(** * SerayahChat: the connection manager of the chat widget

    A shallow embedding of
    [frontend/src/components/serayah/SerayahChat.tsx]: the component's
    state variables and refs, the browser objects it drives (sockets,
    timers, pending HTTP calls), and every callback of the component as a
    function on that state.

    Conventions.
    - A callback of a React component closes over the values the state
      variables had at the render that created it.  Those values are a
      [Render]; every callback takes the [Render] it closed over as an
      explicit argument and reads state variables only from it.  Writes go
      to the [World] (state setters, refs, browser calls).
    - [await] splits a callback in two: the part before it registers a
      [Task], the part after it ([..._resume]) runs when the task settles.
    - The effects run when React commits a render ([commit]); the state
      setters of one callback are applied together, before the next
      commit.  Unmounting is not modelled, nor is the scrolling effect.
    - Strings are byte strings (UTF-8); [Date.now()] is an argument [now].
    - An inbound frame is text and is decoded to an arbitrary JSON value,
      as the handler takes it ([data: unknown]); the bodies of the HTTP
      answers have the shape of their annotations in the source.
    - A timer handle is the index of the timer; every handle is truthy,
      as the positive handles of a browser are. *)

From Stdlib Require Import ZArith String Ascii List Bool Lia DecimalString.
From stdpp Require Import base option list.
Import ListNotations.

Set Warnings "-register-all,-abstract-large-number".

Local Open Scope string_scope.
Local Open Scope list_scope.

(** ** Data model (lines 7-24 of the source) *)

Inductive Role := user | assistant | system.

(** A [Date] value: [new Date()] at a clock reading, or [new Date(s)]. *)
Inductive DateValue :=
| DateAt (ms : Z)
| DateOf (src : string).

Record SerayahMessage := {
  msg_id : string;
  msg_role : Role;
  msg_content : string;
  msg_timestamp : DateValue
}.

Inductive AgentStatus := online | offline | busy | working.

Inductive ConnectionState :=
| connecting | connected | disconnected | reconnecting | poll_mode.

(** Intervals and delays are in milliseconds. *)
Definition POLL_INTERVAL : Z := 10000.
Definition MESSAGE_POLL_INTERVAL : Z := 5000.
Definition MAX_WS_RECONNECT_ATTEMPTS : nat := 3.

#[global] Instance Role_eq_dec : EqDecision Role.
Proof. solve_decision. Defined.
#[global] Instance AgentStatus_eq_dec : EqDecision AgentStatus.
Proof. solve_decision. Defined.
#[global] Instance ConnectionState_eq_dec : EqDecision ConnectionState.
Proof. solve_decision. Defined.

(** ** JavaScript values and string primitives *)

(** What [JSON.parse] returns.  Numbers are kept abstract (type [num]):
    the component only tests them for truthiness and prints them. *)
Inductive json (num : Type) :=
| JNull
| JBool (b : bool)
| JNum (n : num)
| JStr (s : string)
| JArr (items : list (json num))
| JObj (fields : list (string * json num)).

Arguments JNull {num}.
Arguments JBool {num} b.
Arguments JNum {num} n.
Arguments JStr {num} s.
Arguments JArr {num} items.
Arguments JObj {num} fields.

(** The part of the JavaScript runtime the component calls. *)
Class JsRuntime := {
  num : Type;
  num_truthy : num -> bool;              (* false exactly for 0 and -0 *)
  num_toString : num -> string;          (* String(n) *)
  JSON_parse : string -> option (json num);   (* None: SyntaxError *)
  JSON_stringify : json num -> string;   (* JSON.stringify(v, null, 2) *)
  trim : string -> string                (* String.prototype.trim *)
}.

(** [Date.now().toString()]: an integer in decimal. *)
Definition toString (z : Z) : string := NilZero.string_of_int (Z.to_int z).

Definition string_is_empty (s : string) : bool :=
  match s with EmptyString => true | String _ _ => false end.

(** [toLowerCase] on the letters of ASCII; it is used to look for
    "serayah", whose letters no other character lowers to. *)
Definition lower_ascii (c : ascii) : ascii :=
  let n := nat_of_ascii c in
  if (65 <=? n)%nat && (n <=? 90)%nat then ascii_of_nat (n + 32) else c.

Fixpoint toLowerCase (s : string) : string :=
  match s with
  | String c s' => String (lower_ascii c) (toLowerCase s')
  | EmptyString => EmptyString
  end.

Definition includes (needle s : string) : bool :=
  match String.index 0 needle s with Some _ => true | None => false end.

Definition startsWith (p s : string) : bool := String.prefix p s.

(** [s.replace(p, q)] when [s] starts with [p]. *)
Definition replace_prefix (p q s : string) : string :=
  String.append q (String.substring (String.length p) (String.length s - String.length p) s).

(** ** mapAgentStatus (lines 175-189) *)

Definition mapAgentStatus (status : string) : AgentStatus :=
  if String.eqb status "online" then online
  else if String.eqb status "active" then online
  else if String.eqb status "working" then busy
  else if String.eqb status "busy" then busy
  else if String.eqb status "offline" then offline
  else if String.eqb status "provisioning" then offline
  else offline.

(** ** Configuration (lines 26-35) and browser objects *)

Record Config := {
  GATEWAY_WS_URL : string;          (* process.env... || "" *)
  MC_API_URL : string;
  page_is_https : bool;             (* window.location.protocol === "https:" *)
  WebSocket_throws : string -> bool (* [new WebSocket(url)] raises *)
}.

(** The state variables a callback closes over. *)
Record Render := {
  r_isOpen : bool;
  r_connectionState : ConnectionState;
  r_reconnectAttempt : nat;
  r_useHttpFallback : bool
}.

#[global] Instance Render_eq_dec : EqDecision Render.
Proof. solve_decision. Defined.

Inductive ReadyState := CONNECTING | OPEN | CLOSING | CLOSED.

#[global] Instance ReadyState_eq_dec : EqDecision ReadyState.
Proof. solve_decision. Defined.

(** A [WebSocket] object; its handlers were created by the [connect] that
    closed over [ws_closure]. *)
Record Socket := {
  ws_url : string;
  ws_readyState : ReadyState;
  ws_closure : Render
}.

(** Frames the component sends: [JSON.stringify] of the connect handshake
    (lines 268-272) and of [{type: "message", content}]. *)
Inductive Frame :=
| ConnectFrame
| MessageFrame (content : string).

(** Functions handed to [setTimeout] and [setInterval]. *)
Inductive Callback :=
| RetryConnect (r : Render)   (* () => { if (isOpen) connect(); }, line 309 *)
| ForceConnect (r : Render)   (* connect, line 407 *)
| StatusPoll                  (* fetchSerayahStatus, lines 204 and 436 *)
| MessagePoll (r : Render).   (* pollMessages, line 205 *)

Inductive TimerKind := Timeout | Interval.

Record Timer := {
  t_kind : TimerKind;
  t_delay : Z;
  t_callback : Callback;
  t_active : bool
}.

(** An [await] whose continuation has not run yet. *)
Inductive TaskKind :=
| AwaitHealth (r : Render)       (* await checkHealth(), line 195 *)
| AwaitStatus                    (* fetchSerayahStatus, line 91 *)
| AwaitPoll (after : string)     (* pollMessages, line 118 *)
| AwaitPost (content : string).  (* await sendMessageViaHttp(content), line 465 *)

Record Task := {
  task_kind : TaskKind;
  task_pending : bool
}.

(** How a [fetch] settles: it rejects (network error, abort on timeout,
    body that is not JSON), answers outside 2xx, or answers [ok]. *)
Inductive Reply (A : Type) :=
| Failed
| NotOk
| Ok (body : A).

Arguments Failed {A}.
Arguments NotOk {A}.
Arguments Ok {A} body.

(** An element of [items] in the messages response (line 132). *)
Record PollItem := {
  item_id : string;
  item_content : string;
  item_role : string;
  item_created_at : string
}.

(** What the effects saw when they last ran. *)
Record Commit := {
  cm_render : Render;
  cm_messages_length : nat
}.

Section Component.

Context {rt : JsRuntime}.
Variable cfg : Config.

Record SerayahStatus := {
  status : AgentStatus;
  currentTask : option (json num);
  lastSeen : option DateValue
}.

(** An element of [items] in the agents response (lines 96-106). *)
Record Agent := {
  agent_name : option string;
  agent_is_gateway_main : bool;
  agent_status : string;
  agent_current_task : option (json num);
  agent_last_seen_at : option string
}.

(** The component instance together with the browser objects it owns:
    - state variables (lines 38-44);
    - refs (lines 45-51);
    - sockets, timers and tasks, a handle being an index in its list;
      [wire] lists the frames sent, with the socket that carried them;
      [console] collects [console.warn] and [console.error];
    - [committed] and [statusEffectInterval] belong to the effects. *)
Record World := MkWorld {
  isOpen : bool;
  messages : list SerayahMessage;
  input : string;
  connectionState : ConnectionState;
  serayahStatus : SerayahStatus;
  reconnectAttempt : nat;
  useHttpFallback : bool;
  wsRef : option nat;
  reconnectTimeoutRef : option nat;
  pollIntervalRef : option nat;
  messagePollIntervalRef : option nat;
  pendingMessageRef : option string;
  lastMessageIdRef : string;
  sockets : list Socket;
  wire : list (nat * Frame);
  timers : list Timer;
  tasks : list Task;
  console : list string;
  committed : option Commit;
  statusEffectInterval : option nat
}.

Definition upd_isOpen (f : bool -> bool) (w : World) : World :=
  let '(MkWorld o ms i c s a u wr rt pi mp pm lm sk wi ti ta co cm ei) := w in
  MkWorld (f o) ms i c s a u wr rt pi mp pm lm sk wi ti ta co cm ei.

Definition upd_messages (f : list SerayahMessage -> list SerayahMessage) (w : World) : World :=
  let '(MkWorld o ms i c s a u wr rt pi mp pm lm sk wi ti ta co cm ei) := w in
  MkWorld o (f ms) i c s a u wr rt pi mp pm lm sk wi ti ta co cm ei.

Definition upd_input (f : string -> string) (w : World) : World :=
  let '(MkWorld o ms i c s a u wr rt pi mp pm lm sk wi ti ta co cm ei) := w in
  MkWorld o ms (f i) c s a u wr rt pi mp pm lm sk wi ti ta co cm ei.

Definition upd_connectionState (f : ConnectionState -> ConnectionState) (w : World) : World :=
  let '(MkWorld o ms i c s a u wr rt pi mp pm lm sk wi ti ta co cm ei) := w in
  MkWorld o ms i (f c) s a u wr rt pi mp pm lm sk wi ti ta co cm ei.

Definition upd_serayahStatus (f : SerayahStatus -> SerayahStatus) (w : World) : World :=
  let '(MkWorld o ms i c s a u wr rt pi mp pm lm sk wi ti ta co cm ei) := w in
  MkWorld o ms i c (f s) a u wr rt pi mp pm lm sk wi ti ta co cm ei.

Definition upd_reconnectAttempt (f : nat -> nat) (w : World) : World :=
  let '(MkWorld o ms i c s a u wr rt pi mp pm lm sk wi ti ta co cm ei) := w in
  MkWorld o ms i c s (f a) u wr rt pi mp pm lm sk wi ti ta co cm ei.

Definition upd_useHttpFallback (f : bool -> bool) (w : World) : World :=
  let '(MkWorld o ms i c s a u wr rt pi mp pm lm sk wi ti ta co cm ei) := w in
  MkWorld o ms i c s a (f u) wr rt pi mp pm lm sk wi ti ta co cm ei.

Definition upd_wsRef (f : option nat -> option nat) (w : World) : World :=
  let '(MkWorld o ms i c s a u wr rt pi mp pm lm sk wi ti ta co cm ei) := w in
  MkWorld o ms i c s a u (f wr) rt pi mp pm lm sk wi ti ta co cm ei.

Definition upd_reconnectTimeoutRef (f : option nat -> option nat) (w : World) : World :=
  let '(MkWorld o ms i c s a u wr rt pi mp pm lm sk wi ti ta co cm ei) := w in
  MkWorld o ms i c s a u wr (f rt) pi mp pm lm sk wi ti ta co cm ei.

Definition upd_pollIntervalRef (f : option nat -> option nat) (w : World) : World :=
  let '(MkWorld o ms i c s a u wr rt pi mp pm lm sk wi ti ta co cm ei) := w in
  MkWorld o ms i c s a u wr rt (f pi) mp pm lm sk wi ti ta co cm ei.

Definition upd_messagePollIntervalRef (f : option nat -> option nat) (w : World) : World :=
  let '(MkWorld o ms i c s a u wr rt pi mp pm lm sk wi ti ta co cm ei) := w in
  MkWorld o ms i c s a u wr rt pi (f mp) pm lm sk wi ti ta co cm ei.

Definition upd_pendingMessageRef (f : option string -> option string) (w : World) : World :=
  let '(MkWorld o ms i c s a u wr rt pi mp pm lm sk wi ti ta co cm ei) := w in
  MkWorld o ms i c s a u wr rt pi mp (f pm) lm sk wi ti ta co cm ei.

Definition upd_lastMessageIdRef (f : string -> string) (w : World) : World :=
  let '(MkWorld o ms i c s a u wr rt pi mp pm lm sk wi ti ta co cm ei) := w in
  MkWorld o ms i c s a u wr rt pi mp pm (f lm) sk wi ti ta co cm ei.

Definition upd_sockets (f : list Socket -> list Socket) (w : World) : World :=
  let '(MkWorld o ms i c s a u wr rt pi mp pm lm sk wi ti ta co cm ei) := w in
  MkWorld o ms i c s a u wr rt pi mp pm lm (f sk) wi ti ta co cm ei.

Definition upd_wire (f : list (nat * Frame) -> list (nat * Frame)) (w : World) : World :=
  let '(MkWorld o ms i c s a u wr rt pi mp pm lm sk wi ti ta co cm ei) := w in
  MkWorld o ms i c s a u wr rt pi mp pm lm sk (f wi) ti ta co cm ei.

Definition upd_timers (f : list Timer -> list Timer) (w : World) : World :=
  let '(MkWorld o ms i c s a u wr rt pi mp pm lm sk wi ti ta co cm ei) := w in
  MkWorld o ms i c s a u wr rt pi mp pm lm sk wi (f ti) ta co cm ei.

Definition upd_tasks (f : list Task -> list Task) (w : World) : World :=
  let '(MkWorld o ms i c s a u wr rt pi mp pm lm sk wi ti ta co cm ei) := w in
  MkWorld o ms i c s a u wr rt pi mp pm lm sk wi ti (f ta) co cm ei.

Definition upd_console (f : list string -> list string) (w : World) : World :=
  let '(MkWorld o ms i c s a u wr rt pi mp pm lm sk wi ti ta co cm ei) := w in
  MkWorld o ms i c s a u wr rt pi mp pm lm sk wi ti ta (f co) cm ei.

Definition upd_committed (f : option Commit -> option Commit) (w : World) : World :=
  let '(MkWorld o ms i c s a u wr rt pi mp pm lm sk wi ti ta co cm ei) := w in
  MkWorld o ms i c s a u wr rt pi mp pm lm sk wi ti ta co (f cm) ei.

Definition upd_statusEffectInterval (f : option nat -> option nat) (w : World) : World :=
  let '(MkWorld o ms i c s a u wr rt pi mp pm lm sk wi ti ta co cm ei) := w in
  MkWorld o ms i c s a u wr rt pi mp pm lm sk wi ti ta co cm (f ei).

(** *** State setters and the current render *)

Definition setIsOpen (b : bool) : World -> World := upd_isOpen (fun _ => b).
Definition setMessages (f : list SerayahMessage -> list SerayahMessage) : World -> World :=
  upd_messages f.
Definition setInput (s : string) : World -> World := upd_input (fun _ => s).
Definition setConnectionState (c : ConnectionState) : World -> World :=
  upd_connectionState (fun _ => c).
Definition setSerayahStatus (f : SerayahStatus -> SerayahStatus) : World -> World :=
  upd_serayahStatus f.
Definition setReconnectAttempt (f : nat -> nat) : World -> World :=
  upd_reconnectAttempt f.
Definition setUseHttpFallback (b : bool) : World -> World :=
  upd_useHttpFallback (fun _ => b).

(** [{...prev, status: s}] *)
Definition with_status (s : AgentStatus) (prev : SerayahStatus) : SerayahStatus :=
  {| status := s; currentTask := currentTask prev; lastSeen := lastSeen prev |}.

(** The values a callback created now closes over. *)
Definition render (w : World) : Render :=
  {| r_isOpen := isOpen w;
     r_connectionState := connectionState w;
     r_reconnectAttempt := reconnectAttempt w;
     r_useHttpFallback := useHttpFallback w |}.

(** *** Browser calls *)

Definition console_log (s : string) : World -> World :=
  upd_console (fun l => l ++ [s]).

(** [setTimeout] and [setInterval]: the handle is the index of the new timer. *)
Definition setTimer (k : TimerKind) (cb : Callback) (delay : Z) (w : World) : nat * World :=
  (length (timers w),
   upd_timers (fun ts => ts ++ [{| t_kind := k; t_delay := delay;
                                   t_callback := cb; t_active := true |}]) w).

Definition deactivate (t : Timer) : Timer :=
  {| t_kind := t_kind t; t_delay := t_delay t;
     t_callback := t_callback t; t_active := false |}.

(** [clearTimeout] and [clearInterval]. *)
Definition clearTimer (h : nat) : World -> World :=
  upd_timers (alter deactivate h).

Definition new_WebSocket (url : string) (r : Render) (w : World) : nat * World :=
  (length (sockets w),
   upd_sockets (fun l => l ++ [{| ws_url := url; ws_readyState := CONNECTING;
                                  ws_closure := r |}]) w).

Definition readyState (w : World) (ws : nat) : option ReadyState :=
  ws_readyState <$> (sockets w !! ws).

Definition set_readyState (s : ReadyState) (k : Socket) : Socket :=
  {| ws_url := ws_url k; ws_readyState := s; ws_closure := ws_closure k |}.

(** [ws.send(frame)].  Both call sites run on an [OPEN] socket; on a closing
    or closed one the browser discards the data. *)
Definition ws_send (ws : nat) (f : Frame) (w : World) : World :=
  match readyState w ws with
  | Some OPEN => upd_wire (fun l => l ++ [(ws, f)]) w
  | _ => w
  end.

(** [ws.close()]: starts the closing handshake; the close event comes later. *)
Definition ws_close (ws : nat) (w : World) : World :=
  match readyState w ws with
  | Some CONNECTING | Some OPEN => upd_sockets (alter (set_readyState CLOSING) ws) w
  | _ => w
  end.

(** [wsRef.current?.readyState] *)
Definition wsRef_readyState (w : World) : option ReadyState :=
  match wsRef w with
  | Some ws => readyState w ws
  | None => None
  end.

Definition wsRef_is (s : ReadyState) (w : World) : bool :=
  bool_decide (wsRef_readyState w = Some s).

Definition add_task (k : TaskKind) : World -> World :=
  upd_tasks (fun l => l ++ [{| task_kind := k; task_pending := true |}]).

(** ** The callbacks of the component *)

(** checkHealth (lines 73-85): the value it resolves to. *)
Definition checkHealth (reply : Reply unit) : bool :=
  if string_is_empty (MC_API_URL cfg) then false
  else match reply with
       | Ok _ => true
       | NotOk => false
       | Failed => false
       end.

(** fetchSerayahStatus (lines 88-112) *)
Definition fetchSerayahStatus (w : World) : World :=
  if string_is_empty (MC_API_URL cfg) then w else add_task AwaitStatus w.

Definition is_serayah (a : Agent) : bool :=
  match agent_name a with
  | Some n => includes "serayah" (toLowerCase n)
  | None => false
  end || agent_is_gateway_main a.

Definition fetchSerayahStatus_resume (reply : Reply (list Agent)) (w : World) : World :=
  match reply with
  | Ok agents =>
      match List.find is_serayah agents with
      | Some serayahAgent =>
          setSerayahStatus (fun _ =>
            {| status := mapAgentStatus (agent_status serayahAgent);
               currentTask := agent_current_task serayahAgent;
               lastSeen := match agent_last_seen_at serayahAgent with
                           | Some s => if string_is_empty s then None else Some (DateOf s)
                           | None => None
                           end |}) w
      | None => w
      end
  | NotOk => w
  | Failed => console_log "Failed to fetch Serayah status:" w
  end.

(** pollMessages (lines 115-152) *)
Definition pollMessages (r : Render) (w : World) : World :=
  if string_is_empty (MC_API_URL cfg) || negb (r_isOpen r) then w
  else add_task (AwaitPoll (lastMessageIdRef w)) w.

(** The updater of lines 140-144. *)
Definition appendPolled (msg : PollItem) (prev : list SerayahMessage) : list SerayahMessage :=
  if existsb (fun m => String.eqb (msg_id m) (item_id msg)) prev then prev
  else prev ++ [{| msg_id := item_id msg; msg_role := assistant;
                   msg_content := item_content msg;
                   msg_timestamp := DateOf (item_created_at msg) |}].

(** Lines 132-146: the body of the [forEach]. *)
Definition addPolled (w : World) (msg : PollItem) : World :=
  if String.eqb (item_role msg) "assistant" then setMessages (appendPolled msg) w else w.

Definition pollMessages_resume (reply : Reply (list PollItem)) (w : World) : World :=
  match reply with
  | Ok newMessages =>
      match last newMessages with
      | Some lastMsg =>
          let w := upd_lastMessageIdRef
                     (fun cur => if string_is_empty (item_id lastMsg) then cur
                                 else item_id lastMsg) w in
          fold_left addPolled newMessages w
      | None => w
      end
  | NotOk => w
  | Failed => console_log "Failed to poll messages:" w
  end.

(** sendMessageViaHttp (lines 155-173): the value it resolves to, and the
    error it reports. *)
Definition sendMessageViaHttp (reply : Reply unit) (w : World) : bool * World :=
  if string_is_empty (MC_API_URL cfg) then (false, w)
  else match reply with
       | Ok _ => (true, w)
       | NotOk => (false, w)
       | Failed => (false, console_log "Failed to send message via HTTP:" w)
       end.

(** startHttpFallback (lines 192-211), up to the [await] and after it. *)
Definition startHttpFallback (r : Render) (w : World) : World :=
  if r_useHttpFallback r then w else add_task (AwaitHealth r) w.

Definition startHttpFallback_resume (r : Render) (healthy : bool) (w : World) : World :=
  if healthy then
    let w := setUseHttpFallback true w in
    let w := setConnectionState poll_mode w in
    let w := match pollIntervalRef w with Some h => clearTimer h w | None => w end in
    let w := match messagePollIntervalRef w with Some h => clearTimer h w | None => w end in
    let '(h1, w) := setTimer Interval StatusPoll POLL_INTERVAL w in
    let w := upd_pollIntervalRef (fun _ => Some h1) w in
    let '(h2, w) := setTimer Interval (MessagePoll r) MESSAGE_POLL_INTERVAL w in
    let w := upd_messagePollIntervalRef (fun _ => Some h2) w in
    let w := fetchSerayahStatus w in
    pollMessages r w
  else w.

(** stopHttpFallback (lines 214-224) *)
Definition stopHttpFallback (w : World) : World :=
  let w := setUseHttpFallback false w in
  let w := match pollIntervalRef w with
           | Some h => upd_pollIntervalRef (fun _ => None) (clearTimer h w)
           | None => w
           end in
  match messagePollIntervalRef w with
  | Some h => upd_messagePollIntervalRef (fun _ => None) (clearTimer h w)
  | None => w
  end.

(** Lines 248-257: the URL handed to the [WebSocket] constructor. *)
Definition fullWsUrl : string :=
  let wsUrl := GATEWAY_WS_URL cfg in
  let wsUrl := if page_is_https cfg && startsWith "ws://" wsUrl
               then replace_prefix "ws://" "wss://" wsUrl else wsUrl in
  if includes "?" wsUrl
  then String.append wsUrl "&session=agent:serayah:main"
  else String.append wsUrl "?session=agent:serayah:main".

(** connect (lines 227-337); the handlers it installs follow below. *)
Definition connect (r : Render) (w : World) : World :=
  if string_is_empty (GATEWAY_WS_URL cfg) then
    startHttpFallback r
      (console_log "No WebSocket URL configured, using HTTP fallback" w)
  else if wsRef_is OPEN w || wsRef_is CONNECTING w then w
  else
    let w := stopHttpFallback w in
    let currentAttempt := r_reconnectAttempt r in
    let w := setConnectionState
               (if (0 <? currentAttempt)%nat then reconnecting else connecting) w in
    if WebSocket_throws cfg fullWsUrl then
      let w := console_log "Failed to create WebSocket:" w in
      let w := setConnectionState disconnected w in
      let w := setReconnectAttempt S w in
      if (MAX_WS_RECONNECT_ATTEMPTS - 1 <=? r_reconnectAttempt r)%nat
      then startHttpFallback r w else w
    else
      let '(ws, w) := new_WebSocket fullWsUrl r w in
      upd_wsRef (fun _ => Some ws) w.

(** ws.onopen (lines 261-282), for the socket [ws]. *)
Definition onopen (ws : nat) (w : World) : World :=
  let w := setConnectionState connected w in
  let w := setReconnectAttempt (fun _ => 0) w in
  let w := setUseHttpFallback false w in
  let w := setSerayahStatus (with_status online) w in
  let w := ws_send ws ConnectFrame w in
  match pendingMessageRef w with
  | Some content =>
      if string_is_empty content then w
      else upd_pendingMessageRef (fun _ => None) (ws_send ws (MessageFrame content) w)
  | None => w
  end.

(** ws.onclose (lines 300-319), created by the [connect] that closed over [r]. *)
Definition onclose (r : Render) (w : World) : World :=
  let w := setConnectionState disconnected w in
  let w := setSerayahStatus (with_status offline) w in
  if r_isOpen r then
    if (r_reconnectAttempt r <? MAX_WS_RECONNECT_ATTEMPTS)%nat then
      let w := setReconnectAttempt S w in
      let '(h, w) := setTimer Timeout (RetryConnect r)
                       (3000 * Z.of_nat (r_reconnectAttempt r + 1)) w in
      upd_reconnectTimeoutRef (fun _ => Some h) w
    else startHttpFallback r w
  else w.

(** ws.onerror (lines 321-324) *)
Definition onerror (ws : nat) (w : World) : World :=
  ws_close ws (console_log "WebSocket connection error:" w).

(** *** Reading a decoded frame *)

(** An own property of an object; the last binding of a repeated key wins,
    as in [JSON.parse].  On arrays and primitives the names the component
    reads are undefined ([None]). *)
Fixpoint lookup_field (k : string) (fields : list (string * json num)) : option (json num) :=
  match fields with
  | [] => None
  | (k', v) :: rest =>
      match lookup_field k rest with
      | Some v' => Some v'
      | None => if String.eqb k' k then Some v else None
      end
  end.

Definition prop (v : json num) (k : string) : option (json num) :=
  match v with
  | JObj fields => lookup_field k fields
  | _ => None
  end.

(** [o?.k] *)
Definition opt_prop (o : option (json num)) (k : string) : option (json num) :=
  match o with
  | None | Some JNull => None
  | Some v => prop v k
  end.

(** Truthiness of a value that may be undefined. *)
Definition truthy (v : option (json num)) : bool :=
  match v with
  | None => false
  | Some JNull => false
  | Some (JBool b) => b
  | Some (JNum n) => num_truthy n
  | Some (JStr s) => negb (string_is_empty s)
  | Some (JArr _) => true
  | Some (JObj _) => true
  end.

(** [v === s] for a string literal [s] *)
Definition is_string (s : string) (v : option (json num)) : bool :=
  match v with
  | Some (JStr s') => String.eqb s' s
  | _ => false
  end.

(** [String(v)] for a defined value.  Every object prints as the text of
    [Object.prototype.toString]; a decoded object with an own key
    [toString], on which [String] raises a [TypeError] instead, is not told
    apart (nor is an array that holds one). *)
Fixpoint String_of (v : json num) : string :=
  match v with
  | JNull => "null"
  | JBool true => "true"
  | JBool false => "false"
  | JNum n => num_toString n
  | JStr s => s
  | JArr items =>
      (fix join (l : list (json num)) : string :=
         match l with
         | [] => ""
         | x :: rest =>
             let e := match x with JNull => "" | _ => String_of x end in
             match rest with
             | [] => e
             | _ :: _ => String.append e (String.append "," (join rest))
             end
         end) items
  | JObj _ => "[object Object]"
  end.

Definition js_String (v : option (json num)) : string :=
  match v with
  | None => "undefined"
  | Some v => String_of v
  end.

Definition assistantMessage (content : string) (now : Z) : SerayahMessage :=
  {| msg_id := toString now; msg_role := assistant;
     msg_content := content; msg_timestamp := DateAt now |}.

Definition append (m : SerayahMessage) : World -> World :=
  setMessages (fun prev => prev ++ [m]).

(** handleWsMessage (lines 340-385) *)
Definition handleWsMessage (data : json num) (now : Z) (w : World) : World :=
  match data with
  | JObj _ | JArr _ =>
      let msg := data in
      if is_string "event" (prop msg "type") then
        let ev := prop msg "event" in
        let payload := prop msg "payload" in
        if is_string "chat" ev && truthy (opt_prop payload "message") then
          append (assistantMessage (js_String (opt_prop payload "message")) now) w
        else if is_string "presence" ev && truthy (opt_prop payload "agent") then
          let agent := opt_prop payload "agent" in
          setSerayahStatus (fun _ =>
            {| status := mapAgentStatus (js_String (opt_prop agent "status"));
               currentTask := opt_prop agent "current_task";
               lastSeen := Some (DateAt now) |}) w
        else w
      else if is_string "message" (prop msg "type") && truthy (prop msg "content") then
        append (assistantMessage (js_String (prop msg "content")) now) w
      else if is_string "res" (prop msg "type") && truthy (prop msg "result") then
        let content := match prop msg "result" with
                       | Some (JStr s) => s
                       | Some v => JSON_stringify v
                       | None => ""
                       end in
        append (assistantMessage content now) w
      else w
  | _ => w
  end.

(** ws.onmessage (lines 284-298).  The [catch] runs when [JSON.parse]
    fails.  [handleWsMessage] raises on a decoded value only where [String]
    does, on the objects [String_of] does not tell apart; on such a frame
    the source appends the raw text as well and leaves the status alone. *)
Definition onmessage (raw : string) (now : Z) (w : World) : World :=
  match JSON_parse raw with
  | Some data => handleWsMessage data now w
  | None => append (assistantMessage raw now) w
  end.

(** disconnect (lines 388-400) *)
Definition disconnect (w : World) : World :=
  let w := match reconnectTimeoutRef w with
           | Some h => upd_reconnectTimeoutRef (fun _ => None) (clearTimer h w)
           | None => w
           end in
  let w := match wsRef w with
           | Some ws => upd_wsRef (fun _ => None) (ws_close ws w)
           | None => w
           end in
  let w := stopHttpFallback w in
  let w := setConnectionState disconnected w in
  setReconnectAttempt (fun _ => 0) w.

(** forceReconnect (lines 403-408); [connect] is the one of the same render. *)
Definition forceReconnect (r : Render) (w : World) : World :=
  let w := disconnect w in
  let w := setReconnectAttempt (fun _ => 0) w in
  let w := setUseHttpFallback false w in
  snd (setTimer Timeout (ForceConnect r) 100 w).

Definition userMessage (content : string) (now : Z) : SerayahMessage :=
  {| msg_id := toString now; msg_role := user;
     msg_content := content; msg_timestamp := DateAt now |}.

Definition sendFailedNotice (now : Z) : SerayahMessage :=
  {| msg_id := toString (now + 1); msg_role := system;
     msg_content := "âš ï¸ Failed to send message. Service may be temporarily unavailable.";
     msg_timestamp := DateAt now |}.

Definition connectingNotice (now : Z) : SerayahMessage :=
  {| msg_id := toString (now + 1); msg_role := system;
     msg_content := "â³ Connecting to Serayah...";
     msg_timestamp := DateAt now |}.

(** sendMessage (lines 440-488), up to the [await] of line 465.  [inp] is
    the [input] the callback closed over. *)
Definition sendMessage (r : Render) (inp : string) (now : Z) (w : World) : World :=
  if string_is_empty (trim inp) then w
  else
    let content := trim inp in
    let w := append (userMessage content now) w in
    let w := setInput "" w in
    if wsRef_is OPEN w then
      match wsRef w with
      | Some ws => ws_send ws (MessageFrame content) w
      | None => w
      end
    else if r_useHttpFallback r then add_task (AwaitPost content) w
    else
      let w := upd_pendingMessageRef (fun _ => Some content) w in
      let w := append (connectingNotice now) w in
      connect r w.

(** sendMessage after the [await] (lines 466-475). *)
Definition sendMessage_resume (reply : Reply unit) (now : Z) (w : World) : World :=
  let '(sent, w) := sendMessageViaHttp reply w in
  if sent then w else append (sendFailedNotice now) w.

(** ** Effects *)

Definition greeting (now : Z) : SerayahMessage :=
  {| msg_id := "greeting"; msg_role := assistant;
     msg_content := "ðŸ‘‹ Hello! I'm Serayah, your Mission Control assistant.

I can help you with:
â€¢ Creating and assigning tasks
â€¢ Checking on agent status
â€¢ Managing board workflows
â€¢ Answering questions about your operations

How can I help you today?";
     msg_timestamp := DateAt now |}.

(** Lines 411-423, body and cleanup, of the render [r]. *)
Definition connectEffect (r : Render) (w : World) : World :=
  if r_isOpen r then
    let w := fetchSerayahStatus w in
    if bool_decide (r_connectionState r = disconnected) && negb (r_useHttpFallback r)
    then connect r w else w
  else w.

Definition connectEffect_cleanup (r : Render) (w : World) : World :=
  if r_isOpen r then w else disconnect w.

(** Lines 433-438, body and cleanup. *)
Definition statusEffect (r : Render) (w : World) : World :=
  if negb (r_isOpen r) || negb (r_useHttpFallback r) then w
  else
    let '(h, w) := setTimer Interval StatusPoll POLL_INTERVAL w in
    upd_statusEffectInterval (fun _ => Some h) w.

Definition statusEffect_cleanup (w : World) : World :=
  match statusEffectInterval w with
  | Some h => upd_statusEffectInterval (fun _ => None) (clearTimer h w)
  | None => w
  end.

(** Lines 498-509; [n] is [messages.length] of the render. *)
Definition greetingEffect (r : Render) (n : nat) (now : Z) (w : World) : World :=
  if r_isOpen r && (n =? 0)%nat then setMessages (fun _ => [greeting now]) w else w.

(** An effect, or its cleanup, runs when its dependencies changed. *)
Definition when (b : bool) (f : World -> World) (w : World) : World :=
  if b then f w else w.

(** React commits the render of the current state: of the effects whose
    dependencies changed since they last ran, first the cleanups run, then
    the bodies, in source order.  The dependencies of the connect effect
    change exactly when one of the four state variables of [Render] does. *)
Definition commit (now : Z) (w : World) : World :=
  let r := render w in
  let n := length (messages w) in
  let prev := committed w in
  let connect_deps := bool_decide (cm_render <$> prev <> Some r) in
  let status_deps :=
    bool_decide ((fun c => (r_isOpen (cm_render c), r_useHttpFallback (cm_render c))) <$> prev
                 <> Some (r_isOpen r, r_useHttpFallback r)) in
  let greeting_deps :=
    bool_decide ((fun c => (r_isOpen (cm_render c), cm_messages_length c)) <$> prev
                 <> Some (r_isOpen r, n)) in
  let connect_cleanup :=
    match prev with
    | Some c => connectEffect_cleanup (cm_render c)
    | None => fun w => w
    end in
  let w := when connect_deps connect_cleanup w in
  let w := when status_deps statusEffect_cleanup w in
  let w := when connect_deps (connectEffect r) w in
  let w := when status_deps (statusEffect r) w in
  let w := when greeting_deps (greetingEffect r n now) w in
  upd_committed (fun _ => Some {| cm_render := r; cm_messages_length := n |}) w.

(** ** The event loop *)

(** What the browser can deliver to the component. *)
Inductive Event :=
| OpenChat                                  (* the floating button, line 533 *)
| CloseChat                                 (* line 611 *)
| TypeInput (s : string)                    (* setInput, lines 651-693 *)
| Send (now : Z)                            (* sendMessage *)
| ForceReconnect                            (* lines 602, 678, 725 *)
| Rendered (now : Z)                        (* React commits a render *)
| SocketOpen (ws : nat)
| SocketMessage (ws : nat) (raw : string) (now : Z)
| SocketError (ws : nat)
| SocketClose (ws : nat)
| TimerFires (h : nat)
| HealthSettles (i : nat) (reply : Reply unit)
| StatusSettles (i : nat) (reply : Reply (list Agent))
| PollSettles (i : nat) (reply : Reply (list PollItem))
| PostSettles (i : nat) (reply : Reply unit) (now : Z).

Definition settle_task (t : Task) : Task :=
  {| task_kind := task_kind t; task_pending := false |}.

Definition settle (i : nat) : World -> World := upd_tasks (alter settle_task i).

(** The task [i], when its continuation has not run yet. *)
Definition pending_task (w : World) (i : nat) : option TaskKind :=
  match tasks w !! i with
  | Some t => if task_pending t then Some (task_kind t) else None
  | None => None
  end.

Definition run_callback (cb : Callback) (w : World) : World :=
  match cb with
  | RetryConnect r => if r_isOpen r then connect r w else w
  | ForceConnect r => connect r w
  | StatusPoll => fetchSerayahStatus w
  | MessagePoll r => pollMessages r w
  end.

(** One turn of the event loop; [None] when the browser cannot deliver the
    event in this state.  The controls use the callbacks of the current
    render; a socket uses the handlers its [connect] gave it. *)
Definition dispatch (e : Event) (w : World) : option World :=
  match e with
  | OpenChat => Some (setIsOpen true w)
  | CloseChat => Some (setIsOpen false w)
  | TypeInput s => Some (setInput s w)
  | Send now => Some (sendMessage (render w) (input w) now w)
  | ForceReconnect => Some (forceReconnect (render w) w)
  | Rendered now => Some (commit now w)
  | SocketOpen ws =>
      match readyState w ws with
      | Some CONNECTING => Some (onopen ws (upd_sockets (alter (set_readyState OPEN) ws) w))
      | _ => None
      end
  | SocketMessage ws raw now =>
      match readyState w ws with
      | Some OPEN => Some (onmessage raw now w)
      | _ => None
      end
  | SocketError ws =>
      match readyState w ws with
      | Some CLOSED | None => None
      | Some _ => Some (onerror ws w)
      end
  | SocketClose ws =>
      match sockets w !! ws with
      | Some s =>
          if bool_decide (ws_readyState s = CLOSED) then None
          else Some (onclose (ws_closure s)
                       (upd_sockets (alter (set_readyState CLOSED) ws) w))
      | None => None
      end
  | TimerFires h =>
      match timers w !! h with
      | Some t =>
          if t_active t then
            Some (run_callback (t_callback t)
                    match t_kind t with
                    | Timeout => clearTimer h w
                    | Interval => w
                    end)
          else None
      | None => None
      end
  | HealthSettles i reply =>
      match pending_task w i with
      | Some (AwaitHealth r) =>
          Some (startHttpFallback_resume r (checkHealth reply) (settle i w))
      | _ => None
      end
  | StatusSettles i reply =>
      match pending_task w i with
      | Some AwaitStatus => Some (fetchSerayahStatus_resume reply (settle i w))
      | _ => None
      end
  | PollSettles i reply =>
      match pending_task w i with
      | Some (AwaitPoll _) => Some (pollMessages_resume reply (settle i w))
      | _ => None
      end
  | PostSettles i reply now =>
      match pending_task w i with
      | Some (AwaitPost _) => Some (sendMessage_resume reply now (settle i w))
      | _ => None
      end
  end.

Fixpoint run (evs : list Event) (w : World) : option World :=
  match evs with
  | [] => Some w
  | e :: rest =>
      match dispatch e w with
      | Some w' => run rest w'
      | None => None
      end
  end.

(** The component as [useState] and [useRef] initialise it (lines 38-51). *)
Definition initial : World :=
  {| isOpen := false; messages := []; input := "";
     connectionState := disconnected;
     serayahStatus := {| status := offline; currentTask := None; lastSeen := None |};
     reconnectAttempt := 0; useHttpFallback := false;
     wsRef := None; reconnectTimeoutRef := None;
     pollIntervalRef := None; messagePollIntervalRef := None;
     pendingMessageRef := None; lastMessageIdRef := "0";
     sockets := []; wire := []; timers := []; tasks := []; console := [];
     committed := None; statusEffectInterval := None |}.

Definition reachable (w : World) : Prop :=
  exists evs, run evs initial = Some w.

(** *** Observations *)

(** The primary transport is open: the socket of [wsRef] is [OPEN]. *)
Definition primary_open (w : World) : bool := wsRef_is OPEN w.

Definition is_poll_timer (t : Timer) : bool :=
  match t_kind t, t_callback t with
  | Interval, StatusPoll => t_active t
  | Interval, MessagePoll _ => t_active t
  | _, _ => false
  end.

(** A fallback polling timer is running. *)
Definition polling_active (w : World) : bool := existsb is_poll_timer (timers w).

(** The delays of the reconnect retries scheduled so far, oldest first. *)
Definition retry_of (t : Timer) : option Z :=
  match t_callback t with
  | RetryConnect _ => Some (t_delay t)
  | _ => None
  end.

Definition retry_delays (w : World) : list Z := omap retry_of (timers w).


Definition count_id (i : string) (l : list SerayahMessage) : nat :=
  length (List.filter (fun m => String.eqb (msg_id m) i) l).

Definition status_settled (w : World) : Prop := status (serayahStatus w) <> working.

(** The decoded frames that carry nothing for the component: the type is
    none of "event", "message" and "res", or the field the type requires is
    missing or falsy. *)
Definition unrecognised (data : json num) : bool :=
  let type := prop data "type" in
  negb (is_string "event" type || is_string "message" type || is_string "res" type)
  || (is_string "message" type && negb (truthy (prop data "content")))
  || (is_string "res" type && negb (truthy (prop data "result")))
  || (is_string "event" type && is_string "chat" (prop data "event")
      && negb (truthy (opt_prop (prop data "payload") "message")))
  || (is_string "event" type && is_string "presence" (prop data "event")
      && negb (truthy (opt_prop (prop data "payload") "agent"))).

(** A run of message polls settling one after the other. *)
Definition polls (replies : list (Reply (list PollItem))) (w : World) : World :=
  fold_left (fun w reply => pollMessages_resume reply w) replies w.

(** The ids of the items a poll returned, in the order of the response. *)
Definition ids_of (reply : Reply (list PollItem)) : list string :=
  match reply with
  | Ok items => map item_id items
  | NotOk => []
  | Failed => []
  end.

Definition received_ids (replies : list (Reply (list PollItem))) : list string :=
  flat_map ids_of replies.

(** Every string is at most the strings after it, in the order on strings. *)
Fixpoint ascending (l : list string) : bool :=
  match l with
  | [] => true
  | x :: rest => forallb (String.leb x) rest && ascending rest
  end.

Definition nonempty (s : string) : bool := negb (string_is_empty s).

(** The item is rendered by a poll, under the id [x]. *)
Definition delivers (x : string) (it : PollItem) : bool :=
  String.eqb (item_role it) "assistant" && String.eqb (item_id it) x.

(** The timers created between [w] and [w']. *)
Definition started_timers (w w' : World) : list Timer :=
  drop (length (timers w)) (timers w').

Definition interval (cb : Callback) (period : Z) : Timer :=
  {| t_kind := Interval; t_delay := period; t_callback := cb; t_active := true |}.

(** The number of [setInterval] calls so far. *)
Definition is_interval (t : Timer) : bool :=
  match t_kind t with
  | Interval => true
  | Timeout => false
  end.

Definition intervals (w : World) : nat :=
  length (List.filter is_interval (timers w)).



(** The HTTP POSTs of user messages so far, oldest first. *)
Definition posts (w : World) : list string :=
  omap (fun t => match task_kind t with
                 | AwaitPost content => Some content
                 | _ => None
                 end) (tasks w).

(** *** Observations on sockets and timers *)

(** The socket is open or on its way to be. *)
Definition live (s : ReadyState) : bool :=
  match s with
  | CONNECTING | OPEN => true
  | CLOSING | CLOSED => false
  end.

(** Every socket that is open or connecting is the socket of [wsRef]. *)
Definition one_live_socket (w : World) : Prop :=
  forall i s, sockets w !! i = Some s -> live (ws_readyState s) = true -> wsRef w = Some i.

(** The socket table and [wsRef] together. *)
Definition link (w : World) : option nat * list Socket := (wsRef w, sockets w).


(** The items of a messages response; none when the request failed or was
    refused. *)
Definition items_of (reply : Reply (list PollItem)) : list PollItem :=
  match reply with
  | Ok items => items
  | NotOk => []
  | Failed => []
  end.

(** The entry a polled item is rendered as (lines 135-141). *)
Definition polled_entry (it : PollItem) : SerayahMessage :=
  {| msg_id := item_id it; msg_role := assistant;
     msg_content := item_content it;
     msg_timestamp := DateOf (item_created_at it) |}.


(** [clearTimeout] or [clearInterval] of the handle in a ref, when there is one. *)
Definition cancel (h : option nat) (l : list Timer) : list Timer :=
  match h with
  | Some h => alter deactivate h l
  | None => l
  end.


(** No socket was ever created, nothing went out on one, and no retry was
    scheduled; the state shown is disconnected or poll-mode. *)
Definition socketless (w : World) : Prop :=
  sockets w = [] /\ wsRef w = None /\ wire w = [] /\
  reconnectAttempt w = 0 /\ retry_delays w = [] /\
  (connectionState w = disconnected \/ connectionState w = poll_mode).

(** The world without what is displayed or logged: the transcript, the
    status snapshot, the poll cursor and the console are blanked. *)
Definition control (w : World) : World :=
  upd_console (fun _ => [])
    (upd_lastMessageIdRef (fun _ => "")
       (upd_serayahStatus
          (fun _ => {| status := offline; currentTask := None; lastSeen := None |})
          (upd_messages (fun _ => []) w))).


(** A handler that leaves the state connected left the socket of [wsRef]
    alone. *)
Definition keeps (w w' : World) : Prop :=
  connectionState w' = connected -> connectionState w = connected /\ link w' = link w.

(** The state connected is shown only over a socket that has opened and
    whose closure has not been delivered. *)
Definition connected_has_socket (w : World) : Prop :=
  connectionState w = connected -> wsRef_is OPEN w || wsRef_is CLOSING w = true.


(** The timers and the three places that hold the handle of an interval:
    the two refs and the closure of the status effect. *)
Definition lease (w : World) : list Timer * option nat * option nat * option nat :=
  (timers w, pollIntervalRef w, messagePollIntervalRef w, statusEffectInterval w).

(** Every running interval of [l] is held in [p], [m] or [s]. *)
Definition owned (l : list Timer) (p m s : option nat) : Prop :=
  forall h t, l !! h = Some t -> t_kind t = Interval -> t_active t = true ->
              p = Some h \/ m = Some h \/ s = Some h.

Definition intervals_owned (w : World) : Prop :=
  owned (timers w) (pollIntervalRef w) (messagePollIntervalRef w)
    (statusEffectInterval w).


(** Poll-mode is shown only while the fallback flag is set. *)
Definition poll_mode_has_flag (w : World) : Prop :=
  connectionState w = poll_mode -> useHttpFallback w = true.


(** *** Observations on the wire *)

(** The frames sent on the socket [ws], oldest first. *)
Definition frames_on (ws : nat) (wi : list (nat * Frame)) : list Frame :=
  map snd (List.filter (fun p => Nat.eqb (fst p) ws) wi).

Definition is_connect (f : Frame) : bool :=
  match f with
  | ConnectFrame => true
  | MessageFrame _ => false
  end.

(** Nothing was sent, or the connect handshake and then messages only. *)
Definition handshake_first (l : list Frame) : bool :=
  match l with
  | [] => true
  | f :: rest => is_connect f && forallb (fun g => negb (is_connect g)) rest
  end.

(** The socket does not exist or has not opened. *)
Definition unopened (s : option ReadyState) : bool :=
  match s with
  | None | Some CONNECTING => true
  | Some _ => false
  end.

Definition protocol_ok (wi : list (nat * Frame)) (sk : list Socket) : Prop :=
  forall ws,
    handshake_first (frames_on ws wi) = true /\
    (ws_readyState <$> sk !! ws = Some OPEN -> frames_on ws wi <> []) /\
    (unopened (ws_readyState <$> sk !! ws) = true -> frames_on ws wi = []).

Definition handshake_invariant (w : World) : Prop :=
  protocol_ok (wire w) (sockets w).

(** What goes out and on what. *)
Definition channel (w : World) : list (nat * Frame) * list Socket :=
  (wire w, sockets w).


(** While connected is shown the fallback flag is off and the attempt
    counter is 0. *)
Definition connected_settled (w : World) : Prop :=
  connectionState w = connected ->
  useHttpFallback w = false /\ reconnectAttempt w = 0.

(** Every retry timer was scheduled by a handler that closed over an open
    chat. *)
Definition retry_closure_open (t : Timer) : Prop :=
  match t_callback t with
  | RetryConnect r => r_isOpen r = true /\ t_kind t = Timeout
  | _ => True
  end.

Definition retries_closed_over_open (w : World) : Prop :=
  Forall retry_closure_open (timers w).

(** A timer started by [setInterval] and not cleared. *)
Definition running_interval (t : Timer) : bool := is_interval t && t_active t.

Definition running_intervals (w : World) : nat :=
  length (List.filter running_interval (timers w)).

(** The handle before a positive one. *)
Definition below (i : nat) : option nat :=
  match i with
  | O => None
  | S k => Some k
  end.


(** The fallback was never entered: the flag is off and nothing was
    POSTed. *)
Definition never_fell_back (w : World) : Prop :=
  useHttpFallback w = false /\ posts w = [].

(** *** Observations on connection attempts *)








End Component.

(** ** A runtime and a deployment for the examples

    Numbers are integers; [JSON.parse] reads JSON texts without fractions,
    exponents and [\u] escapes and rejects everything else; [trim] removes
    the white space of ASCII. *)

Module ExampleRuntime.

(** The white space of ASCII, which [trim] removes at both ends. *)
Definition is_space (c : ascii) : bool :=
  let n := nat_of_ascii c in
  (n =? 32)%nat || ((9 <=? n)%nat && (n <=? 13)%nat).

Fixpoint trimStart (s : string) : string :=
  match s with
  | String c s' => if is_space c then trimStart s' else s
  | EmptyString => EmptyString
  end.

Fixpoint trimEnd (s : string) : string :=
  match s with
  | String c s' =>
      let t := trimEnd s' in
      if is_space c && string_is_empty t then EmptyString else String c t
  | EmptyString => EmptyString
  end.

Definition trim_ascii (s : string) : string := trimEnd (trimStart s).

Definition dquote : ascii := ascii_of_nat 34.
Definition backslash : ascii := ascii_of_nat 92.

Definition is_digit (c : ascii) : bool :=
  let n := nat_of_ascii c in (48 <=? n)%nat && (n <=? 57)%nat.

Fixpoint skip_ws (s : string) : string :=
  match s with
  | String c s' => if is_space c then skip_ws s' else s
  | EmptyString => EmptyString
  end.

Definition unescape (c : ascii) : option ascii :=
  if Ascii.eqb c dquote then Some c
  else if Ascii.eqb c backslash then Some c
  else if Ascii.eqb c "/" then Some c
  else if Ascii.eqb c "n" then Some (ascii_of_nat 10)
  else if Ascii.eqb c "t" then Some (ascii_of_nat 9)
  else if Ascii.eqb c "r" then Some (ascii_of_nat 13)
  else if Ascii.eqb c "b" then Some (ascii_of_nat 8)
  else if Ascii.eqb c "f" then Some (ascii_of_nat 12)
  else None.

(** The characters of a string literal, after its opening quote. *)
Fixpoint parse_chars (s : string) : option (string * string) :=
  match s with
  | EmptyString => None
  | String c rest =>
      if Ascii.eqb c dquote then Some (EmptyString, rest)
      else if Ascii.eqb c backslash then
        match rest with
        | String e rest' =>
            match unescape e, parse_chars rest' with
            | Some ch, Some (t, r) => Some (String ch t, r)
            | _, _ => None
            end
        | EmptyString => None
        end
      else if (nat_of_ascii c <? 32)%nat then None
      else match parse_chars rest with
           | Some (t, r) => Some (String c t, r)
           | None => None
           end
  end.

Fixpoint parse_digits (acc : Z) (s : string) : Z * string :=
  match s with
  | String c rest =>
      if is_digit c
      then parse_digits (10 * acc + Z.of_nat (nat_of_ascii c - 48)) rest
      else (acc, s)
  | EmptyString => (acc, s)
  end.

(** An integer: an optional minus sign, then 0 or digits that do not start
    with 0; a fraction or an exponent after it is rejected. *)
Definition parse_number (s : string) : option (Z * string) :=
  let '(neg, body) := match s with
                      | String "-" rest => (true, rest)
                      | _ => (false, s)
                      end in
  match body with
  | String c rest =>
      if is_digit c then
        let '(n, r) := if Ascii.eqb c "0" then (0%Z, rest) else parse_digits 0 body in
        match r with
        | String d _ =>
            if is_digit d || Ascii.eqb d "." || Ascii.eqb d "e" || Ascii.eqb d "E"
            then None else Some (if neg then (- n)%Z else n, r)
        | EmptyString => Some (if neg then (- n)%Z else n, r)
        end
      else None
  | EmptyString => None
  end.

Definition literal (word : string) (v : json Z) (s : string) : option (json Z * string) :=
  if String.prefix word s
  then Some (v, String.substring (String.length word)
                  (String.length s - String.length word) s)
  else None.

Fixpoint parse_value (fuel : nat) (s : string) : option (json Z * string) :=
  match fuel with
  | O => None
  | S fuel =>
      match skip_ws s with
      | EmptyString => None
      | String c rest =>
          if Ascii.eqb c "n" then literal "null" JNull (String c rest)
          else if Ascii.eqb c "t" then literal "true" (JBool true) (String c rest)
          else if Ascii.eqb c "f" then literal "false" (JBool false) (String c rest)
          else if Ascii.eqb c dquote then
            match parse_chars rest with
            | Some (str, r) => Some (JStr str, r)
            | None => None
            end
          else if Ascii.eqb c "[" then
            match skip_ws rest with
            | String "]" r => Some (JArr [], r)
            | _ => match parse_items fuel rest with
                   | Some (l, r) => Some (JArr l, r)
                   | None => None
                   end
            end
          else if Ascii.eqb c "{" then
            match skip_ws rest with
            | String "}" r => Some (JObj [], r)
            | _ => match parse_members fuel rest with
                   | Some (l, r) => Some (JObj l, r)
                   | None => None
                   end
            end
          else
            match parse_number (String c rest) with
            | Some (n, r) => Some (JNum n, r)
            | None => None
            end
      end
  end
with parse_items (fuel : nat) (s : string) : option (list (json Z) * string) :=
  match fuel with
  | O => None
  | S fuel =>
      match parse_value fuel s with
      | Some (v, r) =>
          match skip_ws r with
          | String "," r' =>
              match parse_items fuel r' with
              | Some (l, r'') => Some (v :: l, r'')
              | None => None
              end
          | String "]" r' => Some ([v], r')
          | _ => None
          end
      | None => None
      end
  end
with parse_members (fuel : nat) (s : string) : option (list (string * json Z) * string) :=
  match fuel with
  | O => None
  | S fuel =>
      match skip_ws s with
      | EmptyString => None
      | String c rest =>
          if Ascii.eqb c dquote then
            match parse_chars rest with
            | Some (k, r) =>
                match skip_ws r with
                | String ":" r1 =>
                    match parse_value fuel r1 with
                    | Some (v, r2) =>
                        match skip_ws r2 with
                        | String "," r3 =>
                            match parse_members fuel r3 with
                            | Some (l, r4) => Some ((k, v) :: l, r4)
                            | None => None
                            end
                        | String "}" r3 => Some ([(k, v)], r3)
                        | _ => None
                        end
                    | None => None
                    end
                | _ => None
                end
            | None => None
            end
          else None
      end
  end.

Definition parse (s : string) : option (json Z) :=
  match parse_value (S (String.length s)) s with
  | Some (v, r) => if string_is_empty (skip_ws r) then Some v else None
  | None => None
  end.

(** [JSON.stringify(s)] of a string [s], with the escapes [parse] reads. *)
Fixpoint quote_chars (s : string) : string :=
  match s with
  | EmptyString => String dquote EmptyString
  | String c rest =>
      let tail := quote_chars rest in
      if Ascii.eqb c dquote then String backslash (String c tail)
      else if Ascii.eqb c backslash then String backslash (String c tail)
      else if (nat_of_ascii c =? 10)%nat then String backslash (String "n" tail)
      else if (nat_of_ascii c =? 9)%nat then String backslash (String "t" tail)
      else if (nat_of_ascii c =? 13)%nat then String backslash (String "r" tail)
      else String c tail
  end.

Definition quote (s : string) : string := String dquote (quote_chars s).

Definition newline : string := String (ascii_of_nat 10) EmptyString.

(** [JSON.stringify(v, null, 2)], [pad] being the current indentation. *)
Fixpoint stringify (pad : string) (v : json Z) : string :=
  let inner := String.append pad "  " in
  match v with
  | JNull => "null"
  | JBool true => "true"
  | JBool false => "false"
  | JNum n => toString n
  | JStr s => quote s
  | JArr [] => "[]"
  | JArr items =>
      String.append "["
        ((fix rows (l : list (json Z)) : string :=
            match l with
            | [] => String.append newline (String.append pad "]")
            | x :: rest =>
                String.append newline
                  (String.append inner
                     (String.append (stringify inner x)
                        (String.append (match rest with [] => "" | _ => "," end)
                           (rows rest))))
            end) items)
  | JObj [] => "{}"
  | JObj fields =>
      String.append "{"
        ((fix rows (l : list (string * json Z)) : string :=
            match l with
            | [] => String.append newline (String.append pad "}")
            | (k, x) :: rest =>
                String.append newline
                  (String.append inner
                     (String.append (quote k)
                        (String.append ": "
                           (String.append (stringify inner x)
                              (String.append (match rest with [] => "" | _ => "," end)
                                 (rows rest))))))
            end) fields)
  end.

#[export] Instance runtime : JsRuntime :=
  {| num := Z;
     num_truthy := fun z => negb (z =? 0)%Z;
     num_toString := toString;
     JSON_parse := parse;
     JSON_stringify := stringify "";
     trim := trim_ascii |}.

(** A page served over https with both endpoints configured. *)
Definition deployment : Config :=
  {| GATEWAY_WS_URL := "ws://gateway.example/ws";
     MC_API_URL := "https://api.example";
     page_is_https := true;
     WebSocket_throws := fun _ => false |}.

(** The text [{"type":"message","content":c}] for a [c] that needs no escape. *)
Definition message_frame_text (c : string) : string :=
  String.append "{" (String.append (quote "type") (String.append ":"
    (String.append (quote "message") (String.append ","
      (String.append (quote "content") (String.append ":"
        (String.append (quote c) "}"))))))).

(** The text [{"type":"ping"}]. *)
Definition ping_frame_text : string :=
  String.append "{" (String.append (quote "type") (String.append ":"
    (String.append (quote "ping") "}"))).

(** An assistant message as the messages endpoint returns it. *)
Definition polled (i : string) : PollItem :=
  {| item_id := i; item_content := "hi"; item_role := "assistant";
     item_created_at := "2026-01-01T00:00:00Z" |}.

(** The chat is opened and the gateway refuses four sockets in a row, React
    committing after each event; the fourth closure starts the health
    probe and the commit after it opens a fifth socket (the state is
    disconnected and the fallback is off).  The gateway accepts that one,
    and then the probe answers ok. *)
Definition overlap_trace : list Event :=
  [Rendered 0; OpenChat; Rendered 10; Rendered 11;
   SocketClose 0; Rendered 20; Rendered 21;
   SocketClose 1; Rendered 30; Rendered 31;
   SocketClose 2; Rendered 40; Rendered 41;
   SocketClose 3; Rendered 50; Rendered 51;
   SocketOpen 4; Rendered 60;
   HealthSettles 8 (Ok tt); Rendered 70].

Definition overlap_world : World :=
  match run deployment overlap_trace initial with
  | Some w => w
  | None => initial
  end.

(** The chat just opened, nothing rendered yet. *)
Definition opened : World := setIsOpen true initial.


(** A deployment without a gateway endpoint: only the HTTP API. *)
Definition polling_only : Config :=
  {| GATEWAY_WS_URL := "";
     MC_API_URL := "https://api.example";
     page_is_https := true;
     WebSocket_throws := fun _ => false |}.

(** A browser that refuses every socket (a blocked or malformed URL). *)
Definition refusing : Config :=
  {| GATEWAY_WS_URL := "ws://gateway.example/ws";
     MC_API_URL := "https://api.example";
     page_is_https := true;
     WebSocket_throws := fun _ => true |}.

(** The chat is opened and the gateway accepts the socket. *)
Definition connected_trace : list Event :=
  [OpenChat; Rendered 0; SocketOpen 0; Rendered 1].

Definition connected_world : World :=
  match run deployment connected_trace initial with
  | Some w => w
  | None => initial
  end.

(** After [overlap_trace], the user types a question. *)
Definition typing_trace : list Event :=
  overlap_trace ++ [TypeInput "any news?"].

Definition typing_world : World :=
  match run deployment typing_trace initial with
  | Some w => w
  | None => initial
  end.


(** The socket of [connected_world] reports an error, and the user types
    before the closure is delivered. *)
Definition closing_trace : list Event :=
  connected_trace ++ [SocketError 0; TypeInput "are you there?"].

Definition closing_world : World :=
  match run deployment closing_trace initial with
  | Some w => w
  | None => initial
  end.

(** The first socket is refused and the chat is closed before the retry. *)
Definition closed_trace : list Event :=
  [OpenChat; Rendered 0; SocketClose 0; CloseChat].

Definition closed_world : World :=
  match run deployment closed_trace initial with
  | Some w => w
  | None => initial
  end.


(** A deployment without an API base URL: only the gateway. *)
Definition socket_only : Config :=
  {| GATEWAY_WS_URL := "ws://gateway.example/ws";
     MC_API_URL := "";
     page_is_https := true;
     WebSocket_throws := fun _ => false |}.







End ExampleRuntime.

(** * Properties *)

(** ** Reasoning about worlds

    A world is taken apart into its fields; the setters then compute, and
    what remains are the tests of the callback. *)

Ltac open_world :=
  repeat match goal with
         | w : World |- _ => destruct w
         end.

Ltac unfold_calls :=
  unfold sendMessage_resume, sendMessage, forceReconnect, disconnect,
    onmessage, onerror, onclose, onopen, connect,
    stopHttpFallback, startHttpFallback_resume, startHttpFallback,
    sendMessageViaHttp, pollMessages, fetchSerayahStatus_resume,
    fetchSerayahStatus, append, add_task, ws_close, ws_send, new_WebSocket,
    clearTimer, setTimer, console_log, setUseHttpFallback, setReconnectAttempt,
    setSerayahStatus, setConnectionState, setInput, setMessages, setIsOpen in *.

Ltac split_tests :=
  repeat (cbn in *; match goal with
          | |- context [match ?x with _ => _ end] =>
              lazymatch x with
              | context [match _ with _ => _ end] => fail
              | _ => destruct x eqn:?
              end
          end).

Ltac by_cases := intros; open_world; unfold_calls; split_tests; cbn in *; try done.

Section Properties.

Context {rt : JsRuntime}.
Variable cfg : Config.

(** ** The status snapshot *)

Lemma mapAgentStatus_not_working (s : string) : mapAgentStatus s <> working.
Proof. unfold mapAgentStatus. repeat case_match; discriminate. Qed.

Lemma serayahStatus_connect r w : serayahStatus (connect cfg r w) = serayahStatus w.
Proof. by_cases. Qed.

Lemma serayahStatus_startHttpFallback_resume r healthy w :
  serayahStatus (startHttpFallback_resume cfg r healthy w) = serayahStatus w.
Proof. by_cases. Qed.

Lemma serayahStatus_disconnect w : serayahStatus (disconnect w) = serayahStatus w.
Proof. by_cases. Qed.

Lemma serayahStatus_forceReconnect r w : serayahStatus (forceReconnect r w) = serayahStatus w.
Proof. by_cases. Qed.

Lemma serayahStatus_sendMessage r inp now w :
  serayahStatus (sendMessage cfg r inp now w) = serayahStatus w.
Proof.
  unfold sendMessage.
  repeat case_match; try done; try rewrite serayahStatus_connect; by_cases.
Qed.

Lemma serayahStatus_sendMessage_resume reply now w :
  serayahStatus (sendMessage_resume cfg reply now w) = serayahStatus w.
Proof. by_cases. Qed.

Lemma serayahStatus_addPolled items w :
  serayahStatus (fold_left addPolled items w) = serayahStatus w.
Proof.
  revert w. induction items as [|msg items IH]; intros w; [done|].
  cbn. rewrite IH. unfold addPolled. case_match; by_cases.
Qed.

Lemma serayahStatus_pollMessages_resume reply w :
  serayahStatus (pollMessages_resume reply w) = serayahStatus w.
Proof.
  unfold pollMessages_resume.
  repeat case_match; try done; try rewrite serayahStatus_addPolled; by_cases.
Qed.

Lemma when_preserves {A} (p : World -> A) (b : bool) (f : World -> World) :
  (forall w, p (f w) = p w) -> forall w, p (when b f w) = p w.
Proof. intros Hf w. unfold when. destruct b; [apply Hf | done]. Qed.

Lemma serayahStatus_connectEffect r w :
  serayahStatus (connectEffect cfg r w) = serayahStatus w.
Proof.
  unfold connectEffect.
  repeat case_match; try done; try rewrite serayahStatus_connect; by_cases.
Qed.

Lemma serayahStatus_connectEffect_cleanup r w :
  serayahStatus (connectEffect_cleanup r w) = serayahStatus w.
Proof. unfold connectEffect_cleanup. case_match; [done | apply serayahStatus_disconnect]. Qed.

Lemma serayahStatus_upd_committed f w :
  serayahStatus (upd_committed f w) = serayahStatus w.
Proof. by destruct w. Qed.

Lemma serayahStatus_commit now w : serayahStatus (commit cfg now w) = serayahStatus w.
Proof.
  unfold commit. cbv zeta. rewrite serayahStatus_upd_committed.
  rewrite (when_preserves serayahStatus) by (intros; unfold greetingEffect; by_cases).
  rewrite (when_preserves serayahStatus) by (intros; unfold statusEffect; by_cases).
  rewrite (when_preserves serayahStatus) by (intros; apply serayahStatus_connectEffect).
  rewrite (when_preserves serayahStatus) by (intros; unfold statusEffect_cleanup; by_cases).
  apply when_preserves. intros w'. destruct (committed w); [|done].
  apply serayahStatus_connectEffect_cleanup.
Qed.

Lemma serayahStatus_upd_sockets f w : serayahStatus (upd_sockets f w) = serayahStatus w.
Proof. by destruct w. Qed.

Lemma serayahStatus_settle i w : serayahStatus (settle i w) = serayahStatus w.
Proof. by destruct w. Qed.

Lemma serayahStatus_run_callback cb w :
  serayahStatus (run_callback cfg cb w) = serayahStatus w.
Proof.
  destruct cb; cbn; repeat case_match; try done;
    try apply serayahStatus_connect; by_cases.
Qed.

Lemma status_settled_handleWsMessage data now w :
  status_settled w -> status_settled (handleWsMessage data now w).
Proof.
  unfold status_settled, handleWsMessage. intros H.
  repeat case_match; try done; by_cases; apply mapAgentStatus_not_working.
Qed.

Lemma status_settled_fetchSerayahStatus_resume reply w :
  status_settled w -> status_settled (fetchSerayahStatus_resume reply w).
Proof.
  unfold status_settled, fetchSerayahStatus_resume. intros H.
  repeat case_match; try done; by_cases; apply mapAgentStatus_not_working.
Qed.

Lemma status_settled_onopen ws w : status_settled (onopen ws w).
Proof. unfold status_settled. by_cases. Qed.

Lemma status_settled_onclose r w : status_settled (onclose r w).
Proof. unfold status_settled. by_cases. Qed.

Lemma status_settled_dispatch e w w' :
  dispatch cfg e w = Some w' -> status_settled w -> status_settled w'.
Proof.
  intros Hd Hw.
  destruct e; cbn in Hd; repeat case_match; simplify_eq;
    try apply status_settled_onopen; try apply status_settled_onclose;
    try apply status_settled_fetchSerayahStatus_resume;
    try (unfold onmessage; case_match; [apply status_settled_handleWsMessage|]);
    unfold status_settled in *;
    rewrite ?serayahStatus_sendMessage, ?serayahStatus_forceReconnect,
      ?serayahStatus_commit, ?serayahStatus_run_callback,
      ?serayahStatus_startHttpFallback_resume,
      ?serayahStatus_pollMessages_resume, ?serayahStatus_sendMessage_resume,
      ?serayahStatus_settle;
    try done; by_cases.
Qed.

Lemma status_settled_run evs : forall w w',
  run cfg evs w = Some w' -> status_settled w -> status_settled w'.
Proof.
  induction evs as [|e evs IH]; intros w w' Hrun Hw; cbn in Hrun.
  - by simplify_eq.
  - destruct (dispatch cfg e w) as [w1|] eqn:Hd; [|done].
    eapply IH; [done|]. by eapply status_settled_dispatch.
Qed.

(** C9. The status normalisation is total and has range online, busy,
    offline: "online" and "active" give online, "working" and "busy" give
    busy, every other string gives offline (so do "offline", "provisioning",
    "running" and "processing").  It never gives working; a presence event
    and the agents poll set the snapshot to a value it returns, and in no
    state the component reaches is the snapshot working. *)
Theorem mapAgentStatus_range :
  (forall s, mapAgentStatus s = online <-> s = "online" \/ s = "active") /\
  (forall s, mapAgentStatus s = busy <-> s = "working" \/ s = "busy") /\
  (forall s, mapAgentStatus s = offline <->
             s <> "online" /\ s <> "active" /\ s <> "working" /\ s <> "busy") /\
  (forall s, mapAgentStatus s <> working) /\
  map mapAgentStatus ["offline"; "provisioning"; "running"; "processing"]
    = [offline; offline; offline; offline] /\
  (forall data now w,
      status (serayahStatus (handleWsMessage data now w)) = status (serayahStatus w) \/
      status (serayahStatus (handleWsMessage data now w)) <> working) /\
  (forall reply w,
      status (serayahStatus (fetchSerayahStatus_resume reply w)) = status (serayahStatus w) \/
      status (serayahStatus (fetchSerayahStatus_resume reply w)) <> working) /\
  (forall w, reachable cfg w -> status (serayahStatus w) <> working).
Proof.
  assert (Hcases : forall s,
    (s = "online" /\ mapAgentStatus s = online) \/
    (s = "active" /\ mapAgentStatus s = online) \/
    (s = "working" /\ mapAgentStatus s = busy) \/
    (s = "busy" /\ mapAgentStatus s = busy) \/
    (s <> "online" /\ s <> "active" /\ s <> "working" /\ s <> "busy" /\
     mapAgentStatus s = offline)).
  { intros s. unfold mapAgentStatus.
    destruct (String.eqb_spec s "online"); [by left|].
    destruct (String.eqb_spec s "active"); [by right; left|].
    destruct (String.eqb_spec s "working"); [by right; right; left|].
    destruct (String.eqb_spec s "busy"); [by right; right; right; left|].
    right; right; right; right. by repeat case_match. }
  repeat split.
  - intros H. destruct (Hcases s) as [[? E]|[[? E]|[[? E]|[[? E]|(?&?&?&?&E)]]]];
      rewrite E in H; first [by left | by right | discriminate].
  - intros [->| ->]; reflexivity.
  - intros H. destruct (Hcases s) as [[? E]|[[? E]|[[? E]|[[? E]|(?&?&?&?&E)]]]];
      rewrite E in H; first [by left | by right | discriminate].
  - intros [->| ->]; reflexivity.
  - destruct (Hcases s) as [[? E]|[[? E]|[[? E]|[[? E]|(?&?&?&?&E)]]]];
      rewrite E in H; first [done | discriminate].
  - destruct (Hcases s) as [[? E]|[[? E]|[[? E]|[[? E]|(?&?&?&?&E)]]]];
      rewrite E in H; first [done | discriminate].
  - destruct (Hcases s) as [[? E]|[[? E]|[[? E]|[[? E]|(?&?&?&?&E)]]]];
      rewrite E in H; first [done | discriminate].
  - destruct (Hcases s) as [[? E]|[[? E]|[[? E]|[[? E]|(?&?&?&?&E)]]]];
      rewrite E in H; first [done | discriminate].
  - intros (?&?&?&?). destruct (Hcases s) as [[? E]|[[? E]|[[? E]|[[? E]|(?&?&?&?&E)]]]];
      done.
  - apply mapAgentStatus_not_working.
  - intros data now w. unfold handleWsMessage.
    repeat case_match; try (by left); try solve [left; by_cases];
      right; by_cases; apply mapAgentStatus_not_working.
  - intros reply w. unfold fetchSerayahStatus_resume.
    repeat case_match; try (by left); try solve [left; by_cases];
      right; by_cases; apply mapAgentStatus_not_working.
  - intros w [evs Hrun]. eapply status_settled_run; [exact Hrun|]. by cbn.
Qed.

(** ** Inbound frames *)

(** C7. An inbound frame whose text [JSON.parse] rejects appends exactly one
    assistant message whose content is the text of the frame, unchanged;
    nothing else of the component changes: not the connection state, and no
    error is logged. *)
Theorem undecodable_frame_is_plain_text (raw : string) (now : Z) (w : World) :
  JSON_parse raw = None ->
  onmessage raw now w =
    upd_messages (fun prev => prev ++ [{| msg_id := toString now; msg_role := assistant;
                                          msg_content := raw;
                                          msg_timestamp := DateAt now |}]) w /\
  messages (onmessage raw now w) =
    messages w ++ [{| msg_id := toString now; msg_role := assistant;
                      msg_content := raw; msg_timestamp := DateAt now |}] /\
  connectionState (onmessage raw now w) = connectionState w /\
  console (onmessage raw now w) = console w /\
  (forall ws, readyState w ws = Some OPEN ->
     dispatch cfg (SocketMessage ws raw now) w = Some (onmessage raw now w)).
Proof.
  intros Hparse. unfold onmessage. rewrite Hparse.
  repeat split; try (by destruct w).
  intros ws Hopen. cbn. rewrite Hopen. unfold onmessage. by rewrite Hparse.
Qed.

Lemma is_string_exclusive (a b : string) (v : option (json num)) :
  a <> b -> is_string a v = true -> is_string b v = false.
Proof.
  intros Hab. destruct v as [[]|]; cbn; try done.
  destruct (String.eqb_spec s a), (String.eqb_spec s b); congruence.
Qed.

(** C10. A frame that decodes, but whose type is none of "event",
    "message" and "res", or whose required field is missing or falsy
    (a message without content, a res without result, a chat event without
    payload.message, a presence event without payload.agent), changes
    nothing: neither the transcript nor the status snapshot, and it is not
    rendered as plain text. *)
Theorem unrecognised_frame_is_dropped (raw : string) (data : json num) (now : Z) (w : World) :
  JSON_parse raw = Some data ->
  unrecognised data = true ->
  handleWsMessage data now w = w /\
  onmessage raw now w = w /\
  messages (onmessage raw now w) = messages w /\
  serayahStatus (onmessage raw now w) = serayahStatus w.
Proof.
  intros Hparse Hdrop.
  assert (H : handleWsMessage data now w = w).
  { unfold unrecognised in Hdrop. unfold handleWsMessage.
    destruct data as [| | | | |fields]; try done.
    generalize dependent (prop (JObj fields) "type"); intros ty.
    generalize dependent (prop (JObj fields) "event"); intros ev.
    pose proof (is_string_exclusive "event" "message" ty ltac:(done)) as E1.
    pose proof (is_string_exclusive "event" "res" ty ltac:(done)) as E2.
    pose proof (is_string_exclusive "message" "res" ty ltac:(done)) as E3.
    pose proof (is_string_exclusive "chat" "presence" ev ltac:(done)) as E4.
    destruct (is_string "event" ty), (is_string "message" ty), (is_string "res" ty),
      (is_string "chat" ev), (is_string "presence" ev),
      (truthy (prop (JObj fields) "content")), (truthy (prop (JObj fields) "result")),
      (truthy (opt_prop (prop (JObj fields) "payload") "message")),
      (truthy (opt_prop (prop (JObj fields) "payload") "agent"));
      cbn in *; try done; try (by specialize (E1 eq_refl));
      try (by specialize (E2 eq_refl)); try (by specialize (E3 eq_refl));
      try (by specialize (E4 eq_refl)). }
  unfold onmessage. rewrite Hparse, H. done.
Qed.

(** ** The polling cursor and the transcript under polls *)

Lemma lastMessageIdRef_addPolled items w :
  lastMessageIdRef (fold_left addPolled items w) = lastMessageIdRef w.
Proof.
  revert w. induction items as [|msg items IH]; intros w; [done|].
  cbn. rewrite IH. unfold addPolled. case_match; by_cases.
Qed.

Lemma lastMessageIdRef_pollMessages_resume_Ok items w :
  lastMessageIdRef (pollMessages_resume (Ok items) w) =
    match last items with
    | Some lastMsg =>
        if string_is_empty (item_id lastMsg) then lastMessageIdRef w else item_id lastMsg
    | None => lastMessageIdRef w
    end.
Proof.
  unfold pollMessages_resume. destruct (last items) as [m|]; [|done].
  rewrite lastMessageIdRef_addPolled. by destruct w.
Qed.

Lemma lastMessageIdRef_pollMessages_resume reply w :
  forallb nonempty (ids_of reply) = true ->
  lastMessageIdRef (pollMessages_resume reply w) =
    List.last (ids_of reply) (lastMessageIdRef w).
Proof.
  intros Hne. destruct reply as [| |items]; [by_cases..|].
  rewrite lastMessageIdRef_pollMessages_resume_Ok. cbn in *.
  destruct items as [|m items _] using rev_ind; [done|].
  rewrite last_snoc, map_app. cbn. rewrite last_last.
  rewrite map_app, forallb_app in Hne. apply andb_prop in Hne as [_ Hne].
  cbn in Hne. unfold nonempty in Hne. by destruct (string_is_empty (item_id m)).
Qed.

Lemma polls_app pre post w : polls (pre ++ post) w = polls post (polls pre w).
Proof. unfold polls. by rewrite fold_left_app. Qed.

Lemma last_app_default {A} (l1 l2 : list A) (d : A) :
  List.last (l1 ++ l2) d = List.last l2 (List.last l1 d).
Proof.
  revert l1 d. induction l2 as [|x l2 IH] using rev_ind; intros l1 d.
  - by rewrite app_nil_r.
  - by rewrite app_assoc, !last_last.
Qed.

Lemma lastMessageIdRef_polls replies : forall w,
  forallb nonempty (received_ids replies) = true ->
  lastMessageIdRef (polls replies w) =
    List.last (received_ids replies) (lastMessageIdRef w).
Proof.
  induction replies as [|reply replies IH]; intros w Hne; [done|].
  unfold received_ids in *. cbn in *. rewrite forallb_app in Hne.
  apply andb_prop in Hne as [H1 H2].
  change (fold_left _ replies ?x) with (polls replies x).
  rewrite IH by done. rewrite lastMessageIdRef_pollMessages_resume by done.
  by rewrite last_app_default.
Qed.

Lemma leb_refl (s : string) : String.leb s s = true.
Proof. by destruct (String.leb_total s s). Qed.

Lemma In_last_default {A} (l : list A) (d : A) : In (List.last l d) (d :: l).
Proof.
  destruct l as [|x l _] using rev_ind; [by left|].
  rewrite last_last. right. apply in_or_app. right. by left.
Qed.

Lemma last_cons_default {A} (x : A) (l : list A) (d : A) :
  List.last (x :: l) d = List.last l x.
Proof.
  destruct l as [|y l _] using rev_ind; [done|].
  by rewrite app_comm_cons, !last_last.
Qed.

Lemma ascending_last (l : list string) : forall d i,
  ascending (d :: l) = true -> In i (d :: l) ->
  String.leb i (List.last l d) = true.
Proof.
  induction l as [|x l IH]; intros d i Hasc Hin.
  - destruct Hin as [<-|[]]. apply leb_refl.
  - rewrite last_cons_default. cbn [ascending] in Hasc.
    apply andb_prop in Hasc as [Hd Hrest].
    destruct Hin as [<-|Hin]; [|by apply IH].
    rewrite forallb_forall in Hd. apply Hd, In_last_default.
Qed.

(** C3 (amended). A message poll moves the cursor only to the id of the
    positionally last item it returned: a successful batch with items sets
    it to the id of its last item when that id is not empty, and a failed,
    refused or empty poll leaves it unchanged.  After any run of polls whose
    ids are not empty the cursor is the id of the last item received (the
    initial cursor when nothing was received).  When the ids come in
    ascending order, none below the initial cursor, the cursor is the
    greatest id received and never decreases along the run. *)
Theorem cursor_follows_last_item :
  (forall reply w,
     lastMessageIdRef (pollMessages_resume reply w) = lastMessageIdRef w \/
     exists items m, reply = Ok items /\ last items = Some m /\
                     lastMessageIdRef (pollMessages_resume reply w) = item_id m) /\
  (forall items m w,
     last items = Some m -> nonempty (item_id m) = true ->
     lastMessageIdRef (pollMessages_resume (Ok items) w) = item_id m) /\
  (forall w,
     lastMessageIdRef (pollMessages_resume Failed w) = lastMessageIdRef w /\
     lastMessageIdRef (pollMessages_resume NotOk w) = lastMessageIdRef w /\
     lastMessageIdRef (pollMessages_resume (Ok []) w) = lastMessageIdRef w) /\
  (forall replies w,
     forallb nonempty (received_ids replies) = true ->
     lastMessageIdRef (polls replies w) =
       List.last (received_ids replies) (lastMessageIdRef w)) /\
  (forall replies w,
     forallb nonempty (received_ids replies) = true ->
     ascending (lastMessageIdRef w :: received_ids replies) = true ->
     (forall i, In i (lastMessageIdRef w :: received_ids replies) ->
                String.leb i (lastMessageIdRef (polls replies w)) = true) /\
     (forall pre post, replies = pre ++ post ->
        String.leb (lastMessageIdRef (polls pre w))
                   (lastMessageIdRef (polls replies w)) = true)).
Proof.
  split; [|split; [|split; [|split]]].
  - intros reply w. destruct reply as [| |items]; [left; by_cases..|].
    rewrite lastMessageIdRef_pollMessages_resume_Ok.
    destruct (last items) as [m|] eqn:Hlast; [|by left].
    destruct (string_is_empty (item_id m)); [by left|].
    right. by exists items, m.
  - intros items m w Hlast Hne. rewrite lastMessageIdRef_pollMessages_resume_Ok, Hlast.
    unfold nonempty in Hne. by destruct (string_is_empty (item_id m)).
  - intros w. repeat split; by_cases.
  - intros replies w Hne. by apply lastMessageIdRef_polls.
  - intros replies w Hne Hasc. split.
    + intros i Hin. rewrite lastMessageIdRef_polls by done. by apply ascending_last.
    + intros pre post ->. unfold received_ids in *.
      rewrite flat_map_app in *. rewrite forallb_app in Hne.
      apply andb_prop in Hne as [Hpre Hpost].
      rewrite (lastMessageIdRef_polls (pre ++ post))
        by (unfold received_ids; by rewrite flat_map_app, forallb_app, Hpre, Hpost).
      rewrite (lastMessageIdRef_polls pre) by done.
      unfold received_ids. rewrite flat_map_app.
      apply ascending_last; [done|].
      destruct (In_last_default (flat_map ids_of pre) (lastMessageIdRef w)) as [E|Hin].
      * left. exact E.
      * right. apply in_or_app. by left.
Qed.

(** *** Deduplication *)

Lemma count_id_app x l1 l2 : count_id x (l1 ++ l2) = count_id x l1 + count_id x l2.
Proof. unfold count_id. by rewrite List.filter_app, length_app. Qed.

Lemma existsb_count_id x prev :
  existsb (fun m => String.eqb (msg_id m) x) prev = negb (count_id x prev =? 0)%nat.
Proof.
  unfold count_id. induction prev as [|m prev IH]; [done|].
  cbn. destruct (String.eqb (msg_id m) x); cbn; [done|exact IH].
Qed.

Lemma count_id_appendPolled x it prev :
  count_id x (appendPolled it prev) =
    if String.eqb (item_id it) x then Nat.max 1 (count_id x prev) else count_id x prev.
Proof.
  unfold appendPolled. rewrite existsb_count_id.
  destruct (String.eqb_spec (item_id it) x) as [->|Hne].
  - destruct (count_id x prev) as [|n] eqn:E; cbn [Nat.eqb negb Nat.max].
    + rewrite count_id_app, E. unfold count_id. cbn. by rewrite String.eqb_refl.
    + by rewrite E.
  - destruct (count_id (item_id it) prev =? 0)%nat; cbn [negb]; [|done].
    rewrite count_id_app. unfold count_id at 2. cbn.
    destruct (String.eqb_spec (item_id it) x); [done|]. cbn. lia.
Qed.

Lemma appendPolled_idempotent it prev :
  appendPolled it (appendPolled it prev) = appendPolled it prev.
Proof.
  unfold appendPolled at 1. rewrite existsb_count_id, count_id_appendPolled.
  rewrite String.eqb_refl. by destruct (count_id (item_id it) prev).
Qed.

(** The transcript after the [forEach] of a batch. *)
Lemma messages_addPolled items : forall w,
  messages (fold_left addPolled items w) =
    fold_left (fun prev it => if String.eqb (item_role it) "assistant"
                              then appendPolled it prev else prev) items (messages w).
Proof.
  induction items as [|it items IH]; intros w; [done|].
  cbn. rewrite IH. f_equal. unfold addPolled. case_match; by_cases.
Qed.

Lemma messages_pollMessages_resume_Ok items w :
  messages (pollMessages_resume (Ok items) w) = messages (fold_left addPolled items w).
Proof.
  unfold pollMessages_resume. destruct (last items) as [m|] eqn:Hlast.
  - rewrite !messages_addPolled. by destruct w.
  - apply last_None in Hlast. by subst.
Qed.

Lemma count_id_addPolled x items : forall w,
  count_id x (messages (fold_left addPolled items w)) =
    if existsb (delivers x) items
    then Nat.max 1 (count_id x (messages w)) else count_id x (messages w).
Proof.
  induction items as [|it items IH]; intros w; [done|].
  cbn [fold_left existsb]. rewrite IH. unfold delivers at 2, addPolled.
  destruct (String.eqb (item_role it) "assistant"); cbn [andb orb]; [|done].
  assert (E : messages (setMessages (appendPolled it) w) = appendPolled it (messages w))
    by (by destruct w).
  rewrite E, count_id_appendPolled.
  destruct (String.eqb (item_id it) x), (existsb (delivers x) items); cbn; lia.
Qed.

Lemma existsb_delivers x items it :
  In it items -> item_role it = "assistant" -> item_id it = x ->
  existsb (delivers x) items = true.
Proof.
  intros Hin Hrole Hid. apply (proj2 (List.existsb_exists _ _)).
  exists it. split; [done|].
  unfold delivers. by rewrite Hrole, Hid, !String.eqb_refl.
Qed.

Lemma messages_handleWsMessage data now w :
  messages (handleWsMessage data now w) = messages w \/
  exists content,
    messages (handleWsMessage data now w) = messages w ++ [assistantMessage content now].
Proof.
  unfold handleWsMessage.
  repeat case_match; try (by left); try solve [left; by_cases];
    right; eexists; by_cases.
Qed.

(** C4 (amended). The fallback path deduplicates, the realtime path does
    not.  A polled assistant item whose id is already rendered is discarded
    (appending it is idempotent), so an id delivered by a poll, and again by
    the same or a later poll, is rendered exactly once when it was not
    rendered before; so is an id rendered by the realtime path first and
    delivered by a poll afterwards.  A realtime frame carries no id: every
    frame the handler accepts is appended under the current time in
    decimal, whether or not that id is already rendered. *)
Theorem polled_id_rendered_once :
  (forall it prev, appendPolled it (appendPolled it prev) = appendPolled it prev) /\
  (forall items1 items2 it w,
     In it items1 -> item_role it = "assistant" ->
     count_id (item_id it) (messages (polls [Ok items1; Ok items2] w)) =
       Nat.max 1 (count_id (item_id it) (messages w))) /\
  (forall data now items it w,
     messages (handleWsMessage data now w) <> messages w ->
     In it items -> item_role it = "assistant" -> item_id it = toString now ->
     count_id (toString now)
       (messages (pollMessages_resume (Ok items) (handleWsMessage data now w))) =
       S (count_id (toString now) (messages w))) /\
  (forall data now w,
     messages (handleWsMessage data now w) = messages w \/
     exists content,
       messages (handleWsMessage data now w) = messages w ++ [assistantMessage content now] /\
       count_id (toString now) (messages (handleWsMessage data now w)) =
         S (count_id (toString now) (messages w))).
Proof.
  split; [|split; [|split]].
  - apply appendPolled_idempotent.
  - intros items1 items2 it w Hin Hrole. unfold polls. cbn [fold_left].
    rewrite messages_pollMessages_resume_Ok, count_id_addPolled.
    rewrite messages_pollMessages_resume_Ok, count_id_addPolled.
    rewrite (existsb_delivers (item_id it) items1 it) by done.
    destruct (existsb (delivers (item_id it)) items2); lia.
  - intros data now items it w Hnew Hin Hrole Hid.
    rewrite messages_pollMessages_resume_Ok, count_id_addPolled.
    rewrite (existsb_delivers (toString now) items it) by done.
    destruct (messages_handleWsMessage data now w) as [E|[content E]]; [done|].
    rewrite E, count_id_app. unfold count_id at 2. cbn.
    rewrite String.eqb_refl. cbn. lia.
  - intros data now w.
    destruct (messages_handleWsMessage data now w) as [E|[content E]]; [by left|].
    right. exists content. split; [done|].
    rewrite E, count_id_app. unfold count_id at 2. cbn.
    rewrite String.eqb_refl. cbn. lia.
Qed.

(** ** What a turn of the event loop leaves alone *)

Lemma intervals_alter h (l : list Timer) :
  length (List.filter is_interval (alter deactivate h l)) =
  length (List.filter is_interval l).
Proof.
  revert h. induction l as [|t l IH]; intros h; [done|].
  destruct h as [|h]; cbn.
  - by destruct t as [[] ? ? ?].
  - destruct (is_interval t); cbn; by rewrite IH.
Qed.

Ltac count_intervals :=
  unfold intervals; cbn;
  rewrite ?List.filter_app, ?length_app, ?intervals_alter; cbn; try lia.

Ltac same_intervals := by_cases; count_intervals.

Lemma intervals_connect r w : intervals (connect cfg r w) = intervals w.
Proof. same_intervals. Qed.

Lemma intervals_disconnect w : intervals (disconnect w) = intervals w.
Proof. same_intervals. Qed.

Lemma intervals_forceReconnect r w : intervals (forceReconnect r w) = intervals w.
Proof. same_intervals. Qed.

Lemma intervals_onopen ws w : intervals (onopen ws w) = intervals w.
Proof. same_intervals. Qed.

Lemma intervals_onclose r w : intervals (onclose r w) = intervals w.
Proof. same_intervals. Qed.

Lemma intervals_onerror ws w : intervals (onerror ws w) = intervals w.
Proof. same_intervals. Qed.

Lemma intervals_handleWsMessage data now w :
  intervals (handleWsMessage data now w) = intervals w.
Proof. unfold handleWsMessage. repeat case_match; try done; same_intervals. Qed.

Lemma intervals_onmessage raw now w : intervals (onmessage raw now w) = intervals w.
Proof.
  unfold onmessage. case_match; [apply intervals_handleWsMessage|same_intervals].
Qed.

Lemma intervals_sendMessage r inp now w :
  intervals (sendMessage cfg r inp now w) = intervals w.
Proof.
  unfold sendMessage.
  repeat case_match; try done; try rewrite intervals_connect; same_intervals.
Qed.

Lemma intervals_sendMessage_resume reply now w :
  intervals (sendMessage_resume cfg reply now w) = intervals w.
Proof. same_intervals. Qed.

Lemma intervals_fetchSerayahStatus_resume reply w :
  intervals (fetchSerayahStatus_resume reply w) = intervals w.
Proof. same_intervals. Qed.

Lemma intervals_addPolled items : forall w,
  intervals (fold_left addPolled items w) = intervals w.
Proof.
  induction items as [|msg items IH]; intros w; [done|].
  cbn. rewrite IH. unfold addPolled. case_match; same_intervals.
Qed.

Lemma intervals_pollMessages_resume reply w :
  intervals (pollMessages_resume reply w) = intervals w.
Proof.
  unfold pollMessages_resume.
  repeat case_match; try done; try rewrite intervals_addPolled; same_intervals.
Qed.

Lemma intervals_run_callback cb w : intervals (run_callback cfg cb w) = intervals w.
Proof.
  destruct cb; cbn; repeat case_match; try done;
    try apply intervals_connect; same_intervals.
Qed.

Lemma intervals_clearTimer h w : intervals (clearTimer h w) = intervals w.
Proof. same_intervals. Qed.

Lemma intervals_settle i w : intervals (settle i w) = intervals w.
Proof. by destruct w. Qed.

Lemma intervals_upd_sockets f w : intervals (upd_sockets f w) = intervals w.
Proof. by destruct w. Qed.

Lemma intervals_upd_committed f w : intervals (upd_committed f w) = intervals w.
Proof. by destruct w. Qed.

Lemma intervals_connectEffect r w : intervals (connectEffect cfg r w) = intervals w.
Proof.
  unfold connectEffect.
  repeat case_match; try done; try rewrite intervals_connect; same_intervals.
Qed.

Lemma intervals_connectEffect_cleanup r w :
  intervals (connectEffect_cleanup r w) = intervals w.
Proof. unfold connectEffect_cleanup. case_match; [done | apply intervals_disconnect]. Qed.

(** A render starts an interval only for the status effect, in fallback mode. *)
Lemma intervals_commit now w :
  intervals (commit cfg now w) <> intervals w ->
  isOpen w = true /\ useHttpFallback w = true.
Proof.
  unfold commit. cbv zeta. rewrite intervals_upd_committed.
  rewrite (when_preserves intervals) by (intros; unfold greetingEffect; same_intervals).
  destruct (isOpen w) eqn:Ho, (useHttpFallback w) eqn:Hu; [done|..];
    (rewrite (when_preserves intervals);
      [|intros; unfold statusEffect, render; rewrite Ho, Hu; cbn; done]);
    rewrite (when_preserves intervals) by (intros; apply intervals_connectEffect);
    (rewrite (when_preserves intervals);
      [|intros; unfold statusEffect_cleanup; same_intervals]);
    (rewrite (when_preserves intervals);
      [|intros; destruct (committed w); [apply intervals_connectEffect_cleanup|done]]);
    done.
Qed.

Lemma intervals_dispatch e w w' :
  dispatch cfg e w = Some w' ->
  intervals w' <> intervals w ->
  (exists i reply, e = HealthSettles i reply /\ checkHealth cfg reply = true) \/
  (exists now, e = Rendered now /\ isOpen w = true /\ useHttpFallback w = true).
Proof.
  intros Hd Hne.
  destruct e as [| |s|now| |now|ws|ws raw now|ws|ws|h|i reply|i reply|i reply|i reply now];
    unfold dispatch in Hd; repeat case_match; simplify_eq.
  all: try (exfalso; apply Hne; clear Hne;
            rewrite ?intervals_sendMessage, ?intervals_forceReconnect,
              ?intervals_onopen, ?intervals_onmessage, ?intervals_onerror,
              ?intervals_onclose, ?intervals_run_callback, ?intervals_clearTimer,
              ?intervals_fetchSerayahStatus_resume, ?intervals_pollMessages_resume,
              ?intervals_sendMessage_resume, ?intervals_settle, ?intervals_upd_sockets;
            by_cases; fail).
  - right. exists now. split; [done|]. by apply (intervals_commit now).
  - left. exists i, reply. split; [done|].
    destruct (checkHealth cfg reply); [done|].
    exfalso. apply Hne. cbn. apply intervals_settle.
Qed.

(** *** The fallback flag

    [useHttpFallback] is raised by a successful health probe only. *)

Ltac flag_kept := by_cases; rewrite ?Bool.implb_same; try done.

Lemma flag_connect r w :
  implb (useHttpFallback (connect cfg r w)) (useHttpFallback w) = true.
Proof. flag_kept. Qed.

Lemma flag_disconnect w :
  implb (useHttpFallback (disconnect w)) (useHttpFallback w) = true.
Proof. flag_kept. Qed.

Lemma flag_forceReconnect r w :
  implb (useHttpFallback (forceReconnect r w)) (useHttpFallback w) = true.
Proof. flag_kept. Qed.

Lemma flag_onopen ws w :
  implb (useHttpFallback (onopen ws w)) (useHttpFallback w) = true.
Proof. flag_kept. Qed.

Lemma flag_onclose r w :
  implb (useHttpFallback (onclose r w)) (useHttpFallback w) = true.
Proof. flag_kept. Qed.

Lemma flag_onerror ws w :
  implb (useHttpFallback (onerror ws w)) (useHttpFallback w) = true.
Proof. flag_kept. Qed.

Lemma flag_handleWsMessage data now w :
  implb (useHttpFallback (handleWsMessage data now w)) (useHttpFallback w) = true.
Proof.
  unfold handleWsMessage.
  repeat case_match; try apply Bool.implb_same; flag_kept.
Qed.

Lemma flag_onmessage raw now w :
  implb (useHttpFallback (onmessage raw now w)) (useHttpFallback w) = true.
Proof. unfold onmessage. case_match; [apply flag_handleWsMessage|flag_kept]. Qed.

Lemma implb_trans (a b c : bool) : implb a b = true -> implb b c = true -> implb a c = true.
Proof. by destruct a, b, c. Qed.

Lemma flag_sendMessage r inp now w :
  implb (useHttpFallback (sendMessage cfg r inp now w)) (useHttpFallback w) = true.
Proof.
  unfold sendMessage. repeat case_match; try apply Bool.implb_same;
    try (eapply implb_trans; [apply flag_connect|]); flag_kept.
Qed.

Lemma flag_sendMessage_resume reply now w :
  implb (useHttpFallback (sendMessage_resume cfg reply now w)) (useHttpFallback w) = true.
Proof. flag_kept. Qed.

Lemma flag_fetchSerayahStatus_resume reply w :
  implb (useHttpFallback (fetchSerayahStatus_resume reply w)) (useHttpFallback w) = true.
Proof. flag_kept. Qed.

Lemma useHttpFallback_addPolled items : forall w,
  useHttpFallback (fold_left addPolled items w) = useHttpFallback w.
Proof.
  induction items as [|msg items IH]; intros w; [done|].
  cbn. rewrite IH. unfold addPolled. case_match; by_cases.
Qed.

Lemma flag_pollMessages_resume reply w :
  implb (useHttpFallback (pollMessages_resume reply w)) (useHttpFallback w) = true.
Proof.
  unfold pollMessages_resume.
  repeat case_match; rewrite ?useHttpFallback_addPolled; flag_kept.
Qed.

Lemma flag_run_callback cb w :
  implb (useHttpFallback (run_callback cfg cb w)) (useHttpFallback w) = true.
Proof.
  destruct cb; cbn; repeat case_match; try apply Bool.implb_same;
    try apply flag_connect; flag_kept.
Qed.

Lemma flag_when (b : bool) (f : World -> World) (w w0 : World) :
  (forall x, implb (useHttpFallback (f x)) (useHttpFallback x) = true) ->
  implb (useHttpFallback w) (useHttpFallback w0) = true ->
  implb (useHttpFallback (when b f w)) (useHttpFallback w0) = true.
Proof.
  intros Hf Hw. unfold when. destruct b; [|done].
  eapply implb_trans; [apply Hf | exact Hw].
Qed.

Lemma flag_commit now w :
  implb (useHttpFallback (commit cfg now w)) (useHttpFallback w) = true.
Proof.
  unfold commit. cbv zeta.
  match goal with
  | |- implb (useHttpFallback (upd_committed ?f ?x)) _ = true =>
      replace (useHttpFallback (upd_committed f x)) with (useHttpFallback x)
        by (by destruct x)
  end.
  apply flag_when; [|apply flag_when; [|apply flag_when;
    [|apply flag_when; [|apply flag_when; [|apply Bool.implb_same]]]]].
  - intros x. unfold greetingEffect. flag_kept.
  - intros x. unfold statusEffect. flag_kept.
  - intros x. unfold connectEffect. repeat case_match; try apply Bool.implb_same;
      try (eapply implb_trans; [apply flag_connect|]); flag_kept.
  - intros x. unfold statusEffect_cleanup. flag_kept.
  - intros x. destruct (committed w); [|apply Bool.implb_same].
    unfold connectEffect_cleanup. case_match; [apply Bool.implb_same|apply flag_disconnect].
Qed.

Lemma flag_dispatch e w w' :
  dispatch cfg e w = Some w' ->
  useHttpFallback w' = true ->
  useHttpFallback w = true \/
  exists i reply, e = HealthSettles i reply /\ checkHealth cfg reply = true.
Proof.
  intros Hd Hw'.
  assert (Himp : forall x, implb (useHttpFallback w') (useHttpFallback x) = true ->
                           useHttpFallback x = true)
    by (intros x; rewrite Hw'; by destruct (useHttpFallback x)).
  destruct e as [| |s|now| |now|ws|ws raw now|ws|ws|h|i reply|i reply|i reply|i reply now];
    unfold dispatch in Hd; repeat case_match; simplify_eq.
  all: try (left; apply Himp; clear Himp Hw';
            first [ apply flag_sendMessage | apply flag_forceReconnect | apply flag_commit
                  | (eapply implb_trans;
                     [ first [ apply flag_onopen | apply flag_onmessage | apply flag_onerror
                             | apply flag_onclose | apply flag_run_callback
                             | apply flag_fetchSerayahStatus_resume
                             | apply flag_pollMessages_resume
                             | apply flag_sendMessage_resume ] | ]; flag_kept)
                  | flag_kept ]; fail).
  destruct (checkHealth cfg reply) eqn:Hh.
  - right. by exists i, reply.
  - left. cbn in Hw'. by destruct w.
Qed.

(** ** Entering the fallback *)

Lemma timers_startHttpFallback_resume_true r w :
  exists old,
    length old = length (timers w) /\
    timers (startHttpFallback_resume cfg r true w) =
      old ++ [interval StatusPoll POLL_INTERVAL;
              interval (MessagePoll r) MESSAGE_POLL_INTERVAL].
Proof.
  destruct w. unfold startHttpFallback_resume. unfold_calls. cbn.
  destruct pollIntervalRef0 as [h1|], messagePollIntervalRef0 as [h2|]; cbn;
    repeat case_match; cbn;
    eexists; (split; [|by rewrite <- app_assoc]);
    by rewrite ?length_alter.
Qed.

(** C6. [startHttpFallback] starts nothing before its health probe
    settles, and what follows depends on the probe alone: when it succeeds
    (an API base URL is configured and GET /health answers ok) the state
    becomes poll-mode and the two polling timers are started; when it
    fails, throws or no API base URL is configured, the component is left
    as it was: no timer, no poll-mode.  So polling timers are started
    exactly when the probe succeeded.  Over all events: an interval is
    started only when a health probe settles with success, or by the status
    effect of a render in fallback mode, and the fallback flag that effect
    tests is raised only when a health probe settles with success. *)
Theorem fallback_starts_iff_probe_succeeds (r : Render) (reply : Reply unit) (w : World) :
  r_useHttpFallback r = false ->
  let w1 := startHttpFallback r w in
  let w2 := startHttpFallback_resume cfg r (checkHealth cfg reply) w1 in
  w1 = add_task (AwaitHealth r) w /\
  (checkHealth cfg reply = true <->
     string_is_empty (MC_API_URL cfg) = false /\ exists u, reply = Ok u) /\
  (checkHealth cfg reply = true ->
     started_timers w1 w2 = [interval StatusPoll POLL_INTERVAL;
                             interval (MessagePoll r) MESSAGE_POLL_INTERVAL] /\
     pollIntervalRef w2 = Some (length (timers w)) /\
     messagePollIntervalRef w2 = Some (S (length (timers w))) /\
     polling_active w2 = true /\
     connectionState w2 = poll_mode /\
     useHttpFallback w2 = true) /\
  (checkHealth cfg reply = false -> w2 = w1) /\
  (started_timers w1 w2 <> [] <-> checkHealth cfg reply = true) /\
  (forall e w0 w',
     dispatch cfg e w0 = Some w' ->
     intervals w' <> intervals w0 ->
     (exists i reply, e = HealthSettles i reply /\ checkHealth cfg reply = true) \/
     (exists now, e = Rendered now /\ isOpen w0 = true /\ useHttpFallback w0 = true)) /\
  (forall e w0 w',
     dispatch cfg e w0 = Some w' ->
     useHttpFallback w' = true ->
     useHttpFallback w0 = true \/
     exists i reply, e = HealthSettles i reply /\ checkHealth cfg reply = true).
Proof.
  intros Hr w1 w2.
  assert (E1 : w1 = add_task (AwaitHealth r) w).
  { subst w1. unfold startHttpFallback. by rewrite Hr. }
  assert (Et : timers w1 = timers w) by (rewrite E1; by destruct w).
  assert (Hok : checkHealth cfg reply = true ->
     started_timers w1 w2 = [interval StatusPoll POLL_INTERVAL;
                             interval (MessagePoll r) MESSAGE_POLL_INTERVAL] /\
     pollIntervalRef w2 = Some (length (timers w)) /\
     messagePollIntervalRef w2 = Some (S (length (timers w))) /\
     polling_active w2 = true /\
     connectionState w2 = poll_mode /\
     useHttpFallback w2 = true).
  { intros Hh. subst w2. rewrite Hh.
    destruct (timers_startHttpFallback_resume_true r w1) as (old & Hlen & Ht).
    unfold started_timers, polling_active. rewrite Ht.
    split; [by rewrite drop_app_length'|].
    split; [|split; [|split; [|split]]].
    - rewrite <- Et. clear. destruct w1. unfold startHttpFallback_resume.
      unfold_calls. cbn. repeat case_match; cbn; by rewrite ?length_alter.
    - rewrite <- Et. clear. destruct w1. unfold startHttpFallback_resume.
      unfold_calls. cbn.
      repeat case_match; cbn; rewrite ?length_app, ?length_alter; cbn; f_equal; lia.
    - rewrite existsb_app. cbn. by rewrite orb_true_r.
    - clear. by_cases.
    - clear. by_cases. }
  split; [exact E1|]. split; [|split; [exact Hok|split]].
  - unfold checkHealth. destruct (string_is_empty (MC_API_URL cfg)), reply as [| |u];
      split; try done; try (by intros [_ [? ?]]); try (by intros [? _]).
    intros _. split; [done|]. by exists u.
  - intros Hh. subst w2. by rewrite Hh.
  - split; [|split; [apply intervals_dispatch|apply flag_dispatch]]. split.
    + intros Hne. destruct (checkHealth cfg reply) eqn:Hh; [done|].
      exfalso. apply Hne. subst w2. cbn. unfold started_timers. by rewrite drop_all.
    + intros Hh. destruct (Hok Hh) as [-> _]. done.
Qed.

(** *** The transcript *)

Lemma messages_connect r w : messages (connect cfg r w) = messages w.
Proof. by_cases. Qed.

Lemma messages_disconnect w : messages (disconnect w) = messages w.
Proof. by_cases. Qed.

Lemma messages_forceReconnect r w : messages (forceReconnect r w) = messages w.
Proof. by_cases. Qed.

Lemma messages_onopen ws w : messages (onopen ws w) = messages w.
Proof. by_cases. Qed.

Lemma messages_onclose r w : messages (onclose r w) = messages w.
Proof. by_cases. Qed.

Lemma messages_onerror ws w : messages (onerror ws w) = messages w.
Proof. by_cases. Qed.

Lemma messages_fetchSerayahStatus_resume reply w :
  messages (fetchSerayahStatus_resume reply w) = messages w.
Proof. by_cases. Qed.

Lemma messages_startHttpFallback_resume r healthy w :
  messages (startHttpFallback_resume cfg r healthy w) = messages w.
Proof. by_cases. Qed.

Lemma messages_run_callback cb w : messages (run_callback cfg cb w) = messages w.
Proof.
  destruct cb; cbn; repeat case_match; try done; try apply messages_connect; by_cases.
Qed.

Lemma messages_clearTimer h w : messages (clearTimer h w) = messages w.
Proof. by destruct w. Qed.

Lemma messages_settle i w : messages (settle i w) = messages w.
Proof. by destruct w. Qed.

Lemma messages_upd_sockets f w : messages (upd_sockets f w) = messages w.
Proof. by destruct w. Qed.

Lemma messages_upd_committed f w : messages (upd_committed f w) = messages w.
Proof. by destruct w. Qed.

Lemma messages_connectEffect r w : messages (connectEffect cfg r w) = messages w.
Proof.
  unfold connectEffect.
  repeat case_match; try done; try rewrite messages_connect; by_cases.
Qed.

Lemma messages_connectEffect_cleanup r w :
  messages (connectEffect_cleanup r w) = messages w.
Proof. unfold connectEffect_cleanup. case_match; [done | apply messages_disconnect]. Qed.












Lemma messages_sendMessage r inp now w :
  messages (sendMessage cfg r inp now w) = messages w \/
  messages (sendMessage cfg r inp now w) = messages w ++ [userMessage (trim inp) now] \/
  messages (sendMessage cfg r inp now w) =
    messages w ++ [userMessage (trim inp) now; connectingNotice now].
Proof.
  unfold sendMessage. case_match; [by left|]. right.
  repeat case_match; rewrite ?messages_connect;
    first [ left; by_cases; fail | right; by_cases; by rewrite <- app_assoc ].
Qed.




(** ** Sending *)

Lemma wsRef_is_append s m w : wsRef_is s (setInput "" (append m w)) = wsRef_is s w.
Proof. by destruct w. Qed.


Lemma posts_app_task k w :
  posts (add_task k w) =
  posts w ++ match k with AwaitPost c => [c] | _ => [] end.
Proof.
  destruct w. unfold posts, add_task. cbn. rewrite omap_app. cbn.
  by destruct k.
Qed.


(** *** The pending slot *)

Lemma connect_keeps_outbox r w :
  pendingMessageRef (connect cfg r w) = pendingMessageRef w /\
  wire (connect cfg r w) = wire w /\
  posts (connect cfg r w) = posts w.
Proof.
  repeat split; by_cases; unfold posts; cbn; rewrite ?omap_app; cbn;
    by rewrite ?app_nil_r.
Qed.

Lemma wsRef_is_eq s w w' :
  wsRef w' = wsRef w -> sockets w' = sockets w -> wsRef_is s w' = wsRef_is s w.
Proof. unfold wsRef_is, wsRef_readyState, readyState. by intros -> ->. Qed.

(** [connect] leaves the sockets alone or adds a connecting one as [wsRef]. *)
Lemma connect_sockets r w :
  (wsRef (connect cfg r w) = wsRef w /\ sockets (connect cfg r w) = sockets w) \/
  (wsRef (connect cfg r w) = Some (length (sockets w)) /\
   sockets (connect cfg r w) =
     sockets w ++ [{| ws_url := fullWsUrl cfg; ws_readyState := CONNECTING;
                      ws_closure := r |}]).
Proof.
  intros; open_world; unfold_calls; split_tests; cbn; first [by left | by right].
Qed.

Lemma connect_not_open r w :
  wsRef_is OPEN w = false -> wsRef_is OPEN (connect cfg r w) = false.
Proof.
  intros H. destruct (connect_sockets r w) as [[E1 E2]|[E1 E2]].
  - by rewrite (wsRef_is_eq _ _ _ E1 E2).
  - unfold wsRef_is, wsRef_readyState, readyState. rewrite E1, E2.
    by rewrite list_lookup_middle.
Qed.

Lemma sendMessage_pending r inp now w :
  nonempty (trim inp) = true -> wsRef_is OPEN w = false -> r_useHttpFallback r = false ->
  sendMessage cfg r inp now w =
    connect cfg r
      (append (connectingNotice now)
         (upd_pendingMessageRef (fun _ => Some (trim inp))
            (setInput "" (append (userMessage (trim inp) now) w)))).
Proof.
  intros Hne Hws Hr. unfold sendMessage, nonempty in *.
  destruct (string_is_empty (trim inp)); [done|].
  by rewrite wsRef_is_append, Hws, Hr.
Qed.

Lemma sendMessage_pending_outbox r inp now w :
  nonempty (trim inp) = true -> wsRef_is OPEN w = false -> r_useHttpFallback r = false ->
  pendingMessageRef (sendMessage cfg r inp now w) = Some (trim inp) /\
  wire (sendMessage cfg r inp now w) = wire w /\
  posts (sendMessage cfg r inp now w) = posts w /\
  wsRef_is OPEN (sendMessage cfg r inp now w) = false.
Proof.
  intros Hne Hws Hr. rewrite sendMessage_pending by done.
  destruct (connect_keeps_outbox r
    (append (connectingNotice now)
       (upd_pendingMessageRef (fun _ => Some (trim inp))
          (setInput "" (append (userMessage (trim inp) now) w))))) as (-> & -> & ->).
  repeat split; try (by destruct w).
  apply connect_not_open. by destruct w.
Qed.

Lemma onopen_flushes ws c w :
  readyState w ws = Some OPEN ->
  pendingMessageRef w = Some c -> nonempty c = true ->
  wire (onopen ws w) = wire w ++ [(ws, ConnectFrame); (ws, MessageFrame c)] /\
  pendingMessageRef (onopen ws w) = None /\
  posts (onopen ws w) = posts w.
Proof.
  intros Hopen Hp Hc. destruct w. unfold onopen, ws_send, readyState, nonempty in *.
  unfold_calls. cbn in *. rewrite Hopen. cbn. rewrite Hp. cbn.
  destruct (string_is_empty c); [done|]. cbn. rewrite Hopen. cbn.
  by rewrite <- app_assoc.
Qed.

(** C5. After [sendMessage] with content A and then with content B, both
    while the socket is not open and the fallback is not active, the
    pending slot holds B alone and nothing went out; the next socket that
    opens carries the connect handshake and B, the slot is cleared, and A
    is sent neither on a socket nor by HTTP. *)
Theorem pending_slot_keeps_last
    (r1 r2 : Render) (a b : string) (t1 t2 : Z) (ws : nat) (w w3 : World) :
  nonempty (trim a) = true ->
  nonempty (trim b) = true ->
  wsRef_is OPEN w = false ->
  r_useHttpFallback r1 = false ->
  r_useHttpFallback r2 = false ->
  let w1 := sendMessage cfg r1 a t1 w in
  let w2 := sendMessage cfg r2 b t2 w1 in
  dispatch cfg (SocketOpen ws) w2 = Some w3 ->
  pendingMessageRef w1 = Some (trim a) /\
  wsRef_is OPEN w1 = false /\
  pendingMessageRef w2 = Some (trim b) /\
  wire w2 = wire w /\
  posts w2 = posts w /\
  wire w3 = wire w ++ [(ws, ConnectFrame); (ws, MessageFrame (trim b))] /\
  posts w3 = posts w /\
  pendingMessageRef w3 = None.
Proof.
  intros Ha Hb Hws Hr1 Hr2 w1 w2 Hopen.
  destruct (sendMessage_pending_outbox r1 a t1 w Ha Hws Hr1) as (P1 & W1 & S1 & O1).
  fold w1 in P1, W1, S1, O1.
  destruct (sendMessage_pending_outbox r2 b t2 w1 Hb O1 Hr2) as (P2 & W2 & S2 & O2).
  fold w2 in P2, W2, S2, O2.
  unfold dispatch in Hopen.
  destruct (readyState w2 ws) as [[]|] eqn:Hrs; try done. simplify_eq.
  assert (Hnow : readyState (upd_sockets (alter (set_readyState OPEN) ws) w2) ws = Some OPEN).
  { unfold readyState in *. destruct w2. cbn in *.
    rewrite list_lookup_alter_eq. by destruct (sockets0 !! ws). }
  destruct (onopen_flushes ws (trim b) _ Hnow) as (Wo & Po & So);
    [by destruct w2 | done |].
  repeat split; try done; try congruence.
  - rewrite Wo. replace (wire (upd_sockets (alter (set_readyState OPEN) ws) w2))
      with (wire w) by (rewrite <- W1, <- W2; by destruct w2). done.
  - rewrite So. rewrite <- S1, <- S2. by destruct w2.
Qed.

(** ** Reconnecting *)

Lemma retry_delays_alter h (l : list Timer) :
  omap retry_of (alter deactivate h l) = omap retry_of l.
Proof.
  revert h. induction l as [|t l IH]; intros h; [done|].
  destruct h as [|h]; cbn; [done|]. by rewrite IH.
Qed.


(** [connect] when an endpoint is configured, the constructor accepts it
    and no socket is open or connecting. *)
Lemma connect_fresh r w :
  string_is_empty (GATEWAY_WS_URL cfg) = false ->
  WebSocket_throws cfg (fullWsUrl cfg) = false ->
  wsRef_is OPEN w = false -> wsRef_is CONNECTING w = false ->
  wsRef (connect cfg r w) = Some (length (sockets w)) /\
  sockets (connect cfg r w) =
    sockets w ++ [{| ws_url := fullWsUrl cfg; ws_readyState := CONNECTING;
                     ws_closure := r |}] /\
  isOpen (connect cfg r w) = isOpen w /\
  useHttpFallback (connect cfg r w) = false /\
  reconnectAttempt (connect cfg r w) = reconnectAttempt w /\
  retry_delays (connect cfg r w) = retry_delays w /\
  tasks (connect cfg r w) = tasks w /\
  pollIntervalRef (connect cfg r w) = None /\
  messagePollIntervalRef (connect cfg r w) = None.
Proof.
  intros Hurl Hthrow H1 H2. unfold connect. rewrite Hurl, H1, H2, Hthrow.
  cbn [orb]. destruct w. unfold retry_delays. unfold_calls. cbn.
  destruct pollIntervalRef0, messagePollIntervalRef0; cbn;
    by rewrite ?retry_delays_alter.
Qed.

(** ** Further properties of the callbacks

    *** At most one live socket *)

Lemma one_live_socket_eq w w' :
  sockets w' = sockets w -> wsRef w' = wsRef w ->
  one_live_socket w -> one_live_socket w'.
Proof. unfold one_live_socket. intros -> ->. done. Qed.

(** [connect] adds a socket only past its guard. *)
Lemma connect_sockets_guard r w :
  (wsRef (connect cfg r w) = wsRef w /\ sockets (connect cfg r w) = sockets w) \/
  (wsRef (connect cfg r w) = Some (length (sockets w)) /\
   sockets (connect cfg r w) =
     sockets w ++ [{| ws_url := fullWsUrl cfg; ws_readyState := CONNECTING;
                      ws_closure := r |}] /\
   wsRef_is OPEN w = false /\ wsRef_is CONNECTING w = false).
Proof.
  unfold connect. destruct (string_is_empty (GATEWAY_WS_URL cfg)); [left; by_cases|].
  destruct (wsRef_is OPEN w) eqn:H1; [by left|].
  destruct (wsRef_is CONNECTING w) eqn:H2; [by left|]. cbn [orb].
  destruct (WebSocket_throws cfg (fullWsUrl cfg)); [left; by_cases|].
  right. repeat split; try done; by_cases.
Qed.

Lemma one_live_socket_connect r w :
  one_live_socket w -> one_live_socket (connect cfg r w).
Proof.
  intros Hw. destruct (connect_sockets_guard r w) as [[E1 E2]|(E1 & E2 & G1 & G2)].
  - by apply (one_live_socket_eq w).
  - intros i s Hi Hlive. rewrite E1. rewrite E2 in Hi.
    destruct (decide (i < length (sockets w))) as [Hlt|Hge].
    + rewrite lookup_app_l in Hi by done. exfalso.
      pose proof (Hw i s Hi Hlive) as Href.
      unfold wsRef_is, wsRef_readyState, readyState in G1, G2.
      rewrite Href, Hi in G1, G2. cbn in G1, G2.
      by destruct (ws_readyState s).
    + apply lookup_lt_Some in Hi. rewrite length_app in Hi. cbn in Hi.
      f_equal. lia.
Qed.

Lemma one_live_socket_ws_close ws w :
  one_live_socket w -> one_live_socket (ws_close ws w).
Proof.
  intros Hw i s. unfold ws_close.
  destruct (readyState w ws) as [[]|]; try apply Hw.
  all: replace (wsRef (upd_sockets (alter (set_readyState CLOSING) ws) w))
         with (wsRef w) by (by destruct w);
       replace (sockets (upd_sockets (alter (set_readyState CLOSING) ws) w))
         with (alter (set_readyState CLOSING) ws (sockets w)) by (by destruct w);
       rewrite list_lookup_alter; destruct (decide (ws = i)) as [->|Hne];
       [ destruct (sockets w !! i); cbn; intros; simplify_eq; done | apply Hw ].
Qed.

Lemma disconnect_sockets w :
  wsRef (disconnect w) = None /\
  sockets (disconnect w) =
    match wsRef w with
    | Some ws => sockets (ws_close ws w)
    | None => sockets w
    end.
Proof. split; unfold disconnect, ws_close, readyState; by_cases. Qed.

Lemma ws_close_not_live ws w i s :
  sockets (ws_close ws w) !! i = Some s -> live (ws_readyState s) = true -> i <> ws.
Proof.
  intros Hi Hlive ->. unfold ws_close, readyState in Hi.
  destruct (sockets w !! ws) as [k|] eqn:Hk; cbn in Hi; [|by rewrite Hk in Hi].
  destruct (ws_readyState k) eqn:Hr;
    try (replace (sockets (upd_sockets (alter (set_readyState CLOSING) ws) w))
           with (alter (set_readyState CLOSING) ws (sockets w)) in Hi by (by destruct w);
         rewrite list_lookup_alter_eq, Hk in Hi; cbn in Hi; by simplify_eq);
    rewrite Hk in Hi; simplify_eq; by rewrite Hr in Hlive.
Qed.

Lemma wsRef_ws_close ws w : wsRef (ws_close ws w) = wsRef w.
Proof. by_cases. Qed.

Lemma one_live_socket_disconnect w :
  one_live_socket w -> one_live_socket (disconnect w).
Proof.
  intros Hw. destruct (disconnect_sockets w) as [Hnone Hsk].
  intros i s Hi Hlive. rewrite Hnone. exfalso. rewrite Hsk in Hi.
  destruct (wsRef w) as [ws|] eqn:Href.
  - pose proof (one_live_socket_ws_close ws w Hw i s Hi Hlive) as H.
    rewrite wsRef_ws_close, Href in H. simplify_eq.
    by apply (ws_close_not_live i w i s).
  - pose proof (Hw i s Hi Hlive). congruence.
Qed.



Lemma one_live_socket_link w w' :
  link w' = link w -> one_live_socket w -> one_live_socket w'.
Proof. unfold link. intros [= E1 E2]. by apply one_live_socket_eq. Qed.

Lemma link_onopen ws w : link (onopen ws w) = link w.
Proof. unfold link. by_cases. Qed.

Lemma link_onclose r w : link (onclose r w) = link w.
Proof. unfold link. by_cases. Qed.

Lemma link_handleWsMessage data now w : link (handleWsMessage data now w) = link w.
Proof. unfold handleWsMessage. repeat case_match; try done; unfold link; by_cases. Qed.

Lemma link_onmessage raw now w : link (onmessage raw now w) = link w.
Proof.
  unfold onmessage. case_match; [apply link_handleWsMessage|unfold link; by_cases].
Qed.

Lemma link_sendMessage_resume reply now w :
  link (sendMessage_resume cfg reply now w) = link w.
Proof. unfold link. by_cases. Qed.

Lemma link_fetchSerayahStatus_resume reply w :
  link (fetchSerayahStatus_resume reply w) = link w.
Proof. unfold link. by_cases. Qed.

Lemma link_addPolled items : forall w, link (fold_left addPolled items w) = link w.
Proof.
  induction items as [|msg items IH]; intros w; [done|].
  cbn. rewrite IH. unfold addPolled, link. case_match; by_cases.
Qed.

Lemma link_pollMessages_resume reply w : link (pollMessages_resume reply w) = link w.
Proof.
  unfold pollMessages_resume.
  repeat case_match; try done; rewrite ?link_addPolled; unfold link; by_cases.
Qed.

Lemma link_startHttpFallback_resume r healthy w :
  link (startHttpFallback_resume cfg r healthy w) = link w.
Proof. unfold link. by_cases. Qed.

Lemma one_live_socket_sendMessage r inp now w :
  one_live_socket w -> one_live_socket (sendMessage cfg r inp now w).
Proof.
  intros Hw. unfold sendMessage. repeat case_match; try done.
  - apply (one_live_socket_link w); [|done]. unfold link. by_cases.
  - apply (one_live_socket_link w); [|done]. unfold link. by_cases.
  - apply (one_live_socket_link w); [|done]. unfold link. by_cases.
  - apply one_live_socket_connect.
    apply (one_live_socket_link w); [|done]. unfold link. by_cases.
Qed.

Lemma one_live_socket_forceReconnect r w :
  one_live_socket w -> one_live_socket (forceReconnect r w).
Proof.
  intros Hw. unfold forceReconnect.
  apply (one_live_socket_link (disconnect w)); [|by apply one_live_socket_disconnect].
  generalize (disconnect w). unfold link. by_cases.
Qed.

Lemma one_live_socket_run_callback cb w :
  one_live_socket w -> one_live_socket (run_callback cfg cb w).
Proof.
  intros Hw. destruct cb; cbn; repeat case_match; try done;
    try (by apply one_live_socket_connect);
    (apply (one_live_socket_link w); [|done]); unfold link; by_cases.
Qed.

Lemma one_live_socket_when (b : bool) (f : World -> World) w :
  (forall x, one_live_socket x -> one_live_socket (f x)) ->
  one_live_socket w -> one_live_socket (when b f w).
Proof. intros Hf Hw. unfold when. destruct b; [by apply Hf|done]. Qed.

Lemma one_live_socket_commit now w :
  one_live_socket w -> one_live_socket (commit cfg now w).
Proof.
  intros Hw. unfold commit. cbv zeta.
  match goal with
  | |- one_live_socket (upd_committed ?f ?x) =>
      apply (one_live_socket_link x); [by destruct x|]
  end.
  apply one_live_socket_when.
  { intros x Hx. apply (one_live_socket_link x); [|done].
    unfold greetingEffect, link. by_cases. }
  apply one_live_socket_when.
  { intros x Hx. apply (one_live_socket_link x); [|done].
    unfold statusEffect, link. by_cases. }
  apply one_live_socket_when.
  { intros x Hx. unfold connectEffect. repeat case_match; try done.
    - apply one_live_socket_connect.
      apply (one_live_socket_link x); [|done]. unfold link. by_cases.
    - apply (one_live_socket_link x); [|done]. unfold link. by_cases. }
  apply one_live_socket_when.
  { intros x Hx. apply (one_live_socket_link x); [|done].
    unfold statusEffect_cleanup, link. by_cases. }
  apply one_live_socket_when; [|done].
  intros x Hx. destruct (committed w); [|done].
  unfold connectEffect_cleanup. case_match; [done|by apply one_live_socket_disconnect].
Qed.

Lemma one_live_socket_set_readyState s ws w :
  one_live_socket w ->
  (live s = true -> wsRef w = Some ws) ->
  one_live_socket (upd_sockets (alter (set_readyState s) ws) w).
Proof.
  intros Hw Hs i k.
  replace (wsRef (upd_sockets (alter (set_readyState s) ws) w)) with (wsRef w)
    by (by destruct w).
  replace (sockets (upd_sockets (alter (set_readyState s) ws) w))
    with (alter (set_readyState s) ws (sockets w)) by (by destruct w).
  rewrite list_lookup_alter. destruct (decide (ws = i)) as [->|Hne]; [|apply Hw].
  destruct (sockets w !! i); cbn; [|done]. intros [= <-]. cbn. exact Hs.
Qed.

Lemma one_live_socket_dispatch e w w' :
  dispatch cfg e w = Some w' -> one_live_socket w -> one_live_socket w'.
Proof.
  intros Hd Hw.
  destruct e as [| |s|now| |now|ws|ws raw now|ws|ws|h|i reply|i reply|i reply|i reply now];
    unfold dispatch in Hd; repeat case_match; simplify_eq.
  - apply (one_live_socket_link w); [by destruct w|done].
  - apply (one_live_socket_link w); [by destruct w|done].
  - apply (one_live_socket_link w); [by destruct w|done].
  - by apply one_live_socket_sendMessage.
  - by apply one_live_socket_forceReconnect.
  - by apply one_live_socket_commit.
  - eapply one_live_socket_link; [apply link_onopen|].
    apply one_live_socket_set_readyState; [done|]. intros _.
    match goal with H : readyState w ws = Some _ |- _ =>
      unfold readyState in H; destruct (sockets w !! ws) as [k|] eqn:Hk; [|done];
      cbn in H; apply (Hw ws k Hk); simplify_eq; by destruct (ws_readyState k) end.
  - eapply one_live_socket_link; [apply link_onmessage|done].
  - unfold onerror. apply one_live_socket_ws_close.
    apply (one_live_socket_link w); [by destruct w|done].
  - unfold onerror. apply one_live_socket_ws_close.
    apply (one_live_socket_link w); [by destruct w|done].
  - unfold onerror. apply one_live_socket_ws_close.
    apply (one_live_socket_link w); [by destruct w|done].
  - eapply one_live_socket_link; [apply link_onclose|].
    by apply one_live_socket_set_readyState.
  - apply one_live_socket_run_callback.
    apply (one_live_socket_link w); [by destruct w|done].
  - by apply one_live_socket_run_callback.
  - eapply one_live_socket_link; [apply link_startHttpFallback_resume|].
    apply (one_live_socket_link w); [by destruct w|done].
  - eapply one_live_socket_link; [apply link_fetchSerayahStatus_resume|].
    apply (one_live_socket_link w); [by destruct w|done].
  - eapply one_live_socket_link; [apply link_pollMessages_resume|].
    apply (one_live_socket_link w); [by destruct w|done].
  - eapply one_live_socket_link; [apply link_sendMessage_resume|].
    apply (one_live_socket_link w); [by destruct w|done].
Qed.

(** X1. In every state the component reaches, a socket that is open or
    connecting is the socket of [wsRef]: the component never holds two live
    sockets, whatever the order of reconnects, timers and socket events;
    every socket it has dropped is closing or closed. *)
Theorem at_most_one_live_socket (w : World) :
  reachable cfg w ->
  one_live_socket w /\
  (forall i j s t,
     sockets w !! i = Some s -> sockets w !! j = Some t ->
     live (ws_readyState s) = true -> live (ws_readyState t) = true -> i = j).
Proof.
  intros [evs Hrun].
  assert (H : one_live_socket w).
  { assert (Hgen : forall evs w0 w1, run cfg evs w0 = Some w1 ->
                     one_live_socket w0 -> one_live_socket w1).
    { clear. induction evs as [|e evs IH]; intros w0 w1 Hrun H0; cbn in Hrun.
      - by simplify_eq.
      - destruct (dispatch cfg e w0) as [w'|] eqn:Hd; [|done].
        eapply IH; [done|]. by eapply one_live_socket_dispatch. }
    eapply Hgen; [exact Hrun|]. intros i s Hi. by cbn in Hi. }
  split; [exact H|].
  intros i j s t Hi Hj Hs Ht.
  pose proof (H i s Hi Hs). pose proof (H j t Hj Ht). congruence.
Qed.


(** *** What a poll adds to the transcript *)

Lemma existsb_id_false x prev :
  existsb (fun m => String.eqb (msg_id m) x) prev = false ->
  ~ In x (map msg_id prev).
Proof.
  induction prev as [|m prev IH]; cbn; [tauto|].
  intros H. apply orb_false_elim in H as [H1 H2].
  intros [E|Hin]; [|by apply IH].
  subst x. by rewrite String.eqb_refl in H1.
Qed.

Lemma fold_appendPolled items : forall prev,
  exists added,
    fold_left (fun prev it => if String.eqb (item_role it) "assistant"
                              then appendPolled it prev else prev) items prev
      = prev ++ added /\
    Forall (fun m => exists it, In it items /\ item_role it = "assistant" /\
                                m = polled_entry it) added /\
    List.NoDup (map msg_id added) /\
    (forall m, In m added -> ~ In (msg_id m) (map msg_id prev)).
Proof.
  induction items as [|it items IH]; intros prev.
  { exists []. rewrite app_nil_r. repeat split; try constructor. by intros m []. }
  cbn [fold_left].
  set (step := if String.eqb (item_role it) "assistant"
               then appendPolled it prev else prev).
  assert (Hstep : step = prev \/
                  (step = prev ++ [polled_entry it] /\ item_role it = "assistant" /\
                   ~ In (item_id it) (map msg_id prev))).
  { subst step. destruct (String.eqb_spec (item_role it) "assistant") as [Hr|]; [|by left].
    unfold appendPolled.
    destruct (existsb _ prev) eqn:Hex; [by left|].
    right. split; [done|]. split; [done|]. by apply existsb_id_false. }
  destruct (IH step) as (added & Hfold & Hall & Hnd & Hfresh).
  destruct Hstep as [E|(E & Hrole & Hnew)]; rewrite E in *.
  - exists added. split; [done|]. split; [|done].
    eapply Forall_impl; [exact Hall|].
    intros m (it' & Hin & Hr & ->). exists it'. split; [by right|done].
  - exists (polled_entry it :: added). rewrite Hfold, <- app_assoc. split; [done|].
    split; [|split].
    + constructor.
      * exists it. split; [by left|done].
      * eapply Forall_impl; [exact Hall|].
        intros m (it' & Hin & Hr & ->). exists it'. split; [by right|done].
    + cbn [map]. constructor; [|done].
      intros Hin. apply in_map_iff in Hin as (m & Hm & Hin).
      apply (Hfresh m Hin). rewrite map_app, in_app_iff. right. left. by rewrite Hm.
    + intros m [<-|Hin]; [done|].
      intros Hp. apply (Hfresh m Hin). rewrite map_app, in_app_iff. by left.
Qed.

Lemma messages_pollMessages_resume reply w :
  messages (pollMessages_resume reply w) =
    fold_left (fun prev it => if String.eqb (item_role it) "assistant"
                              then appendPolled it prev else prev)
      (items_of reply) (messages w).
Proof.
  destruct reply as [| |items]; [by_cases|done|].
  by rewrite messages_pollMessages_resume_Ok, messages_addPolled.
Qed.

(** X3. A poll only appends to the transcript.  Every entry it adds is an
    assistant entry built from an item of the response whose role is
    "assistant": the item's id, content and creation time.  The ids it adds
    differ from each other and from every id already rendered, so a
    transcript whose ids are distinct stays so; a failed or refused poll
    adds nothing. *)
Theorem poll_appends_fresh_assistant_entries
    (reply : Reply (list PollItem)) (w : World) :
  exists added,
    messages (pollMessages_resume reply w) = messages w ++ added /\
    Forall (fun m => exists it, In it (items_of reply) /\ item_role it = "assistant" /\
                                m = polled_entry it) added /\
    List.NoDup (map msg_id added) /\
    (forall m, In m added -> ~ In (msg_id m) (map msg_id (messages w))) /\
    (List.NoDup (map msg_id (messages w)) ->
     List.NoDup (map msg_id (messages (pollMessages_resume reply w)))) /\
    (items_of reply = [] -> added = []).
Proof.
  destruct (fold_appendPolled (items_of reply) (messages w))
    as (added & Hfold & Hall & Hnd & Hfresh).
  exists added. rewrite messages_pollMessages_resume.
  split; [done|]. split; [done|]. split; [done|]. split; [done|]. split.
  - intros Hw. rewrite Hfold, map_app.
    apply NoDup_ListNoDup, NoDup_app. split; [by apply NoDup_ListNoDup|].
    split; [|by apply NoDup_ListNoDup].
    intros x Hx Hx'. apply list_elem_of_In in Hx, Hx'.
    apply in_map_iff in Hx' as (m & <- & Hm). by apply (Hfresh m Hm).
  - intros Hnil. rewrite Hnil in Hfold. cbn in Hfold.
    apply (f_equal (@length _)) in Hfold. rewrite length_app in Hfold.
    destruct added; [done|]. cbn in Hfold. lia.
Qed.

(** *** The transcript only grows *)

Lemma prefix_messages_eq w w' :
  messages w' = messages w -> messages w `prefix_of` messages w'.
Proof. by intros ->. Qed.

Lemma prefix_messages_commit now w : messages w `prefix_of` messages (commit cfg now w).
Proof.
  unfold commit. cbv zeta.
  set (w4 := when _ (statusEffect _) _).
  assert (E : messages w4 = messages w).
  { subst w4.
    rewrite (when_preserves messages) by (intros; unfold statusEffect; by_cases).
    rewrite (when_preserves messages) by (intros; apply messages_connectEffect).
    rewrite (when_preserves messages) by (intros; unfold statusEffect_cleanup; by_cases).
    apply when_preserves. intros w'. destruct (committed w); [|done].
    apply messages_connectEffect_cleanup. }
  rewrite messages_upd_committed.
  unfold when, greetingEffect. repeat case_match; rewrite ?E; try done.
  assert (Hn : length (messages w) = 0)
    by (apply Nat.eqb_eq; match goal with H : _ && _ = true |- _ =>
          by apply andb_prop in H as [_ ?] end).
  destruct (messages w); [|done]. apply prefix_nil.
Qed.

Lemma prefix_messages_dispatch e w w' :
  dispatch cfg e w = Some w' -> messages w `prefix_of` messages w'.
Proof.
  intros Hd.
  destruct e as [| |s|now| |now|ws|ws raw now|ws|ws|h|i reply|i reply|i reply|i reply now];
    unfold dispatch in Hd; repeat case_match; simplify_eq.
  all: try (apply prefix_messages_eq;
            rewrite ?messages_forceReconnect, ?messages_onopen, ?messages_onerror,
              ?messages_onclose, ?messages_run_callback, ?messages_clearTimer,
              ?messages_fetchSerayahStatus_resume, ?messages_startHttpFallback_resume,
              ?messages_settle, ?messages_upd_sockets;
            by_cases; fail).
  - destruct (messages_sendMessage (render w) (input w) now w) as [E|[E|E]];
      rewrite E; [done|by eexists|by eexists].
  - apply prefix_messages_commit.
  - unfold onmessage. destruct (JSON_parse raw) as [data|].
    + destruct (messages_handleWsMessage data now w) as [E|[c E]];
        rewrite E; [done|by eexists].
    + eexists. by_cases.
  - rewrite messages_pollMessages_resume, messages_settle.
    destruct (fold_appendPolled (items_of reply) (messages w)) as (added & E & _).
    rewrite E. by eexists.
  - unfold sendMessage_resume, sendMessageViaHttp.
    repeat case_match; simplify_eq; rewrite ?messages_settle; try done;
      try (eexists; by_cases; fail); by_cases.
Qed.

Lemma prefix_messages_run evs : forall w w',
  run cfg evs w = Some w' -> messages w `prefix_of` messages w'.
Proof.
  induction evs as [|e evs IH]; intros w w' Hrun; cbn in Hrun.
  - by simplify_eq.
  - destruct (dispatch cfg e w) as [w1|] eqn:Hd; [|done].
    etrans; [by eapply prefix_messages_dispatch|by apply IH].
Qed.

(** X2. The transcript only grows: no event, and so no run of events,
    removes, reorders or rewrites an entry.  What was rendered at a position
    stays there; the greeting is put into an empty transcript only. *)
Theorem transcript_only_grows (evs : list Event) (w w' : World) :
  run cfg evs w = Some w' ->
  (messages w `prefix_of` messages w') /\
  (length (messages w) <= length (messages w'))%nat /\
  (forall i m, messages w !! i = Some m -> messages w' !! i = Some m).
Proof.
  intros Hrun. pose proof (prefix_messages_run evs w w' Hrun) as Hp.
  split; [done|]. split; [by apply prefix_length|].
  intros i m Hi. by eapply prefix_lookup_Some.
Qed.


(** *** Connecting twice *)

Lemma connect_guard r w :
  string_is_empty (GATEWAY_WS_URL cfg) = false ->
  wsRef_is OPEN w || wsRef_is CONNECTING w = true ->
  connect cfg r w = w.
Proof. intros Hurl Hg. unfold connect. by rewrite Hurl, Hg. Qed.

Lemma wsRef_is_connecting_fresh r w :
  string_is_empty (GATEWAY_WS_URL cfg) = false ->
  WebSocket_throws cfg (fullWsUrl cfg) = false ->
  wsRef_is OPEN w || wsRef_is CONNECTING w = false ->
  wsRef_is CONNECTING (connect cfg r w) = true.
Proof.
  intros Hurl Hthrow Hg. apply orb_false_elim in Hg as [H1 H2].
  destruct (connect_fresh r w Hurl Hthrow H1 H2) as (E1 & E2 & _).
  unfold wsRef_is, wsRef_readyState, readyState. rewrite E1, E2.
  rewrite lookup_app_r by done. rewrite Nat.sub_diag. cbn. by apply bool_decide_eq_true.
Qed.

(** X4. With an endpoint configured that the constructor accepts,
    [connect] is idempotent: while the socket of [wsRef] is open or
    connecting it changes nothing, otherwise it leaves a connecting socket
    as [wsRef], so a second call (of any render) right after the first is
    a no-op and at most one socket is created. *)
Theorem connect_is_idempotent (r1 r2 : Render) (w : World) :
  string_is_empty (GATEWAY_WS_URL cfg) = false ->
  WebSocket_throws cfg (fullWsUrl cfg) = false ->
  (wsRef_is OPEN w || wsRef_is CONNECTING w = true -> connect cfg r1 w = w) /\
  wsRef_is OPEN (connect cfg r1 w) || wsRef_is CONNECTING (connect cfg r1 w) = true /\
  connect cfg r2 (connect cfg r1 w) = connect cfg r1 w /\
  (length (sockets (connect cfg r2 (connect cfg r1 w))) <= S (length (sockets w)))%nat.
Proof.
  intros Hurl Hthrow.
  assert (Hlive : wsRef_is OPEN (connect cfg r1 w)
                  || wsRef_is CONNECTING (connect cfg r1 w) = true).
  { destruct (wsRef_is OPEN w || wsRef_is CONNECTING w) eqn:Hg.
    - by rewrite (connect_guard r1 w Hurl Hg).
    - rewrite (wsRef_is_connecting_fresh r1 w Hurl Hthrow Hg). apply orb_true_r. }
  split; [by apply connect_guard|]. split; [exact Hlive|].
  rewrite (connect_guard r2 _ Hurl Hlive). split; [done|].
  destruct (connect_sockets_guard r1 w) as [[_ E]|(_ & E & _)]; rewrite E.
  - lia.
  - rewrite length_app. cbn. lia.
Qed.

(** *** When the constructor throws *)

(** X10. When [new WebSocket] throws (lines 327-336) the attempt counter
    goes up by one and the state is disconnected, but no retry is
    scheduled and no socket exists; the health probe of the fallback is
    started only by a [connect] that closed over a counter of 2 or more and
    over the fallback flag off. *)
Theorem connect_constructor_failure (r : Render) (w : World) :
  string_is_empty (GATEWAY_WS_URL cfg) = false ->
  wsRef_is OPEN w = false -> wsRef_is CONNECTING w = false ->
  WebSocket_throws cfg (fullWsUrl cfg) = true ->
  let w' := connect cfg r w in
  connectionState w' = disconnected /\
  reconnectAttempt w' = S (reconnectAttempt w) /\
  sockets w' = sockets w /\ wsRef w' = wsRef w /\
  retry_delays w' = retry_delays w /\
  reconnectTimeoutRef w' = reconnectTimeoutRef w /\
  useHttpFallback w' = false /\
  pollIntervalRef w' = None /\ messagePollIntervalRef w' = None /\
  console w' = console w ++ ["Failed to create WebSocket:"] /\
  tasks w' =
    tasks w ++ (if (2 <=? r_reconnectAttempt r)%nat && negb (r_useHttpFallback r)
                then [{| task_kind := AwaitHealth r; task_pending := true |}]
                else []).
Proof.
  intros Hurl H1 H2 Hthrow w'. subst w'. unfold connect.
  rewrite Hurl, H1, H2, Hthrow. cbn [orb].
  change (MAX_WS_RECONNECT_ATTEMPTS - 1 <=? r_reconnectAttempt r)%nat
    with (2 <=? r_reconnectAttempt r)%nat.
  destruct (2 <=? r_reconnectAttempt r)%nat, (r_useHttpFallback r) eqn:Hf;
    cbn [andb negb]; unfold startHttpFallback; rewrite ?Hf;
    unfold retry_delays; destruct w; unfold_calls; cbn;
    repeat case_match; cbn; rewrite ?retry_delays_alter, ?app_nil_r; done.
Qed.

(** *** Tearing down *)


(** [stopHttpFallback] and [disconnect], field by field. *)
Lemma stopHttpFallback_eq w :
  stopHttpFallback w =
    {| isOpen := isOpen w; messages := messages w; input := input w;
       connectionState := connectionState w; serayahStatus := serayahStatus w;
       reconnectAttempt := reconnectAttempt w; useHttpFallback := false;
       wsRef := wsRef w; reconnectTimeoutRef := reconnectTimeoutRef w;
       pollIntervalRef := None; messagePollIntervalRef := None;
       pendingMessageRef := pendingMessageRef w;
       lastMessageIdRef := lastMessageIdRef w;
       sockets := sockets w; wire := wire w;
       timers := cancel (messagePollIntervalRef w) (cancel (pollIntervalRef w) (timers w));
       tasks := tasks w; console := console w; committed := committed w;
       statusEffectInterval := statusEffectInterval w |}.
Proof. by_cases. Qed.

Lemma disconnect_eq w :
  disconnect w =
    {| isOpen := isOpen w; messages := messages w; input := input w;
       connectionState := disconnected; serayahStatus := serayahStatus w;
       reconnectAttempt := 0; useHttpFallback := false;
       wsRef := None; reconnectTimeoutRef := None;
       pollIntervalRef := None; messagePollIntervalRef := None;
       pendingMessageRef := pendingMessageRef w;
       lastMessageIdRef := lastMessageIdRef w;
       sockets := match wsRef w with
                  | Some ws => sockets (ws_close ws w)
                  | None => sockets w
                  end;
       wire := wire w;
       timers := cancel (messagePollIntervalRef w)
                   (cancel (pollIntervalRef w)
                      (cancel (reconnectTimeoutRef w) (timers w)));
       tasks := tasks w; console := console w; committed := committed w;
       statusEffectInterval := statusEffectInterval w |}.
Proof. unfold disconnect, ws_close, readyState. by_cases. Qed.

Lemma timers_stopHttpFallback w :
  timers (stopHttpFallback w) =
    cancel (messagePollIntervalRef w) (cancel (pollIntervalRef w) (timers w)).
Proof. by rewrite stopHttpFallback_eq. Qed.

Lemma timers_disconnect w :
  timers (disconnect w) =
    cancel (messagePollIntervalRef w)
      (cancel (pollIntervalRef w) (cancel (reconnectTimeoutRef w) (timers w))).
Proof. by rewrite disconnect_eq. Qed.

Lemma cancel_lookup_ne h i (l : list Timer) :
  h <> Some i -> cancel h l !! i = l !! i.
Proof.
  destruct h as [h|]; [|done]. intros Hne. cbn.
  apply list_lookup_alter_ne. congruence.
Qed.

Lemma cancel_inactive h i (l : list Timer) t :
  cancel h l !! i = Some t -> t_active t = true ->
  l !! i = Some t /\ h <> Some i.
Proof.
  destruct h as [h|]; cbn; [|by intros; split].
  destruct (decide (h = i)) as [->|Hne].
  - rewrite list_lookup_alter_eq. destruct (l !! i); cbn; [|done].
    intros [= <-]. done.
  - rewrite list_lookup_alter_ne by done. intros; split; [done|congruence].
Qed.

(** X7. [stopHttpFallback] switches the fallback flag off, cancels the
    timers of [pollIntervalRef] and [messagePollIntervalRef] and empties the
    two refs.  It cancels no other timer (the interval of the status effect
    keeps running), leaves the connection state as it is (poll-mode stays
    displayed until the caller sets another state), answers no pending
    request, and doing it twice is doing it once. *)
Theorem stopHttpFallback_clears_polling (w : World) :
  let w' := stopHttpFallback w in
  useHttpFallback w' = false /\
  pollIntervalRef w' = None /\ messagePollIntervalRef w' = None /\
  (forall h t, timers w' !! h = Some t -> t_active t = true ->
     timers w !! h = Some t /\
     pollIntervalRef w <> Some h /\ messagePollIntervalRef w <> Some h) /\
  (forall h, pollIntervalRef w <> Some h -> messagePollIntervalRef w <> Some h ->
     timers w' !! h = timers w !! h) /\
  length (timers w') = length (timers w) /\
  connectionState w' = connectionState w /\
  statusEffectInterval w' = statusEffectInterval w /\
  tasks w' = tasks w /\
  stopHttpFallback w' = w'.
Proof.
  intros w'. subst w'.
  split; [by rewrite stopHttpFallback_eq|]. split; [by rewrite stopHttpFallback_eq|].
  split; [by rewrite stopHttpFallback_eq|].
  split; [|split; [|split; [|split; [|split; [|split]]]]].
  - intros h t Hh Ha. rewrite timers_stopHttpFallback in Hh.
    apply cancel_inactive in Hh as [Hh H2]; [|done].
    apply cancel_inactive in Hh as [Hh H1]; [|done]. done.
  - intros h H1 H2. rewrite timers_stopHttpFallback.
    by rewrite !cancel_lookup_ne.
  - rewrite timers_stopHttpFallback. unfold cancel.
    repeat case_match; by rewrite ?length_alter.
  - by rewrite stopHttpFallback_eq.
  - by rewrite stopHttpFallback_eq.
  - by rewrite stopHttpFallback_eq.
  - set (d := stopHttpFallback w). rewrite (stopHttpFallback_eq d). subst d.
    rewrite (stopHttpFallback_eq w). reflexivity.
Qed.

(** X6. [disconnect] leaves no socket in [wsRef] (the one that was there
    is closing or closed), cancels the timers of the three refs and empties
    them, switches the fallback off, and sets the state to disconnected and
    the attempt counter to 0.  It cancels no other timer, keeps the
    transcript, the pending message and the poll cursor, answers no
    pending request, and doing it twice is doing it once. *)
Theorem disconnect_tears_down (w : World) :
  let w' := disconnect w in
  wsRef w' = None /\
  (forall ws s, wsRef w = Some ws -> readyState w' ws = Some s -> live s = false) /\
  (forall i, wsRef w <> Some i -> sockets w' !! i = sockets w !! i) /\
  reconnectTimeoutRef w' = None /\
  pollIntervalRef w' = None /\ messagePollIntervalRef w' = None /\
  (forall h t, timers w' !! h = Some t -> t_active t = true ->
     timers w !! h = Some t /\ reconnectTimeoutRef w <> Some h /\
     pollIntervalRef w <> Some h /\ messagePollIntervalRef w <> Some h) /\
  (forall h, reconnectTimeoutRef w <> Some h -> pollIntervalRef w <> Some h ->
     messagePollIntervalRef w <> Some h -> timers w' !! h = timers w !! h) /\
  useHttpFallback w' = false /\
  connectionState w' = disconnected /\
  reconnectAttempt w' = 0 /\
  messages w' = messages w /\
  pendingMessageRef w' = pendingMessageRef w /\
  lastMessageIdRef w' = lastMessageIdRef w /\
  tasks w' = tasks w /\
  wire w' = wire w /\
  disconnect w' = w'.
Proof.
  intros w'. subst w'. destruct (disconnect_sockets w) as [Hnone Hsk].
  split; [done|]. split; [|split].
  { intros ws s Href Hs. unfold readyState in Hs.
    destruct (sockets (disconnect w) !! ws) as [k|] eqn:Hk; [|done].
    cbn in Hs. simplify_eq. rewrite Hsk, Href in Hk.
    destruct (live (ws_readyState k)) eqn:Hl; [|done].
    by destruct (ws_close_not_live ws w ws k Hk Hl). }
  { intros i Hne. rewrite Hsk. destruct (wsRef w) as [ws|]; [|done].
    unfold ws_close. repeat case_match; try done.
    all: replace (sockets (upd_sockets (alter (set_readyState CLOSING) ws) w))
           with (alter (set_readyState CLOSING) ws (sockets w)) by (by destruct w);
         apply list_lookup_alter_ne; congruence. }
  split; [by rewrite disconnect_eq|].
  split; [by rewrite disconnect_eq|].
  split; [by rewrite disconnect_eq|].
  split.
  { intros h t Hh Ha. rewrite timers_disconnect in Hh.
    apply cancel_inactive in Hh as [Hh H3]; [|done].
    apply cancel_inactive in Hh as [Hh H2]; [|done].
    apply cancel_inactive in Hh as [Hh H1]; [|done]. done. }
  split.
  { intros h H1 H2 H3. rewrite timers_disconnect. by rewrite !cancel_lookup_ne. }
  repeat split; try (by rewrite disconnect_eq).
  set (d := disconnect w). rewrite (disconnect_eq d). subst d.
  rewrite (disconnect_eq w). reflexivity.
Qed.


(** *** Sending on an open socket *)

(** X11. A blank input sends nothing and changes nothing.  Any other input
    is trimmed, rendered as a user entry stamped with the clock, and the
    input box is emptied, on every path.  When the socket of [wsRef] is
    open the trimmed text goes out on it as one message frame, whatever the
    fallback flag says: nothing is POSTed, the pending slot is not touched,
    no socket or timer is created and no notice is rendered. *)
Theorem sendMessage_on_open_socket :
  (forall r inp now w,
     string_is_empty (trim inp) = true -> sendMessage cfg r inp now w = w) /\
  (forall r inp now w,
     nonempty (trim inp) = true ->
     input (sendMessage cfg r inp now w) = "" /\
     exists rest,
       messages (sendMessage cfg r inp now w) =
         messages w ++ userMessage (trim inp) now :: rest) /\
  (forall r inp now w ws,
     nonempty (trim inp) = true ->
     wsRef w = Some ws -> readyState w ws = Some OPEN ->
     let w' := sendMessage cfg r inp now w in
     messages w' = messages w ++ [userMessage (trim inp) now] /\
     wire w' = wire w ++ [(ws, MessageFrame (trim inp))] /\
     posts w' = posts w /\
     tasks w' = tasks w /\
     pendingMessageRef w' = pendingMessageRef w /\
     sockets w' = sockets w /\ wsRef w' = wsRef w /\
     timers w' = timers w /\
     connectionState w' = connectionState w /\
     useHttpFallback w' = useHttpFallback w).
Proof.
  split; [|split].
  - intros r inp now w Hb. unfold sendMessage. by rewrite Hb.
  - intros r inp now w Hne. unfold nonempty in Hne. apply negb_true_iff in Hne.
    split.
    + unfold sendMessage. rewrite Hne.
      repeat case_match; by_cases.
    + unfold sendMessage. rewrite Hne.
      repeat case_match; rewrite ?messages_connect;
        first [ solve [exists []; by_cases]
              | solve [eexists [_]; by_cases; by rewrite <- app_assoc] ].
  - intros r inp now w ws Hne Href Hopen w'. subst w'.
    unfold nonempty in Hne. apply negb_true_iff in Hne.
    unfold sendMessage. rewrite Hne.
    assert (Hlive : wsRef_is OPEN (setInput "" (append (userMessage (trim inp) now) w)) = true).
    { rewrite (wsRef_is_eq OPEN w) by (by destruct w).
      unfold wsRef_is, wsRef_readyState. rewrite Href, Hopen.
      by apply bool_decide_eq_true. }
    rewrite Hlive.
    replace (wsRef (setInput "" (append (userMessage (trim inp) now) w)))
      with (Some ws) by (by destruct w).
    unfold ws_send.
    replace (readyState (setInput "" (append (userMessage (trim inp) now) w)) ws)
      with (Some OPEN) by (rewrite <- Hopen; by destruct w).
    unfold posts. by destruct w.
Qed.


(** *** What an answer and a frame can change *)

Lemma control_handleWsMessage data now w :
  control (handleWsMessage data now w) = control w.
Proof. unfold handleWsMessage. repeat case_match; try done; by_cases. Qed.

Lemma control_onmessage raw now w : control (onmessage raw now w) = control w.
Proof.
  unfold onmessage. case_match; [apply control_handleWsMessage|by_cases].
Qed.

Lemma control_fetchSerayahStatus_resume reply w :
  control (fetchSerayahStatus_resume reply w) = control w.
Proof. by_cases. Qed.

Lemma control_addPolled items : forall w,
  control (fold_left addPolled items w) = control w.
Proof.
  induction items as [|msg items IH]; intros w; [done|].
  cbn. rewrite IH. unfold addPolled. case_match; by_cases.
Qed.

Lemma control_pollMessages_resume reply w :
  control (pollMessages_resume reply w) = control w.
Proof.
  unfold pollMessages_resume.
  repeat case_match; try done; rewrite ?control_addPolled; by_cases.
Qed.

Lemma control_sendMessage_resume reply now w :
  control (sendMessage_resume cfg reply now w) = control w.
Proof. by_cases. Qed.

(** *** Invariants of the reachable states *)

Lemma reachable_ind (P : World -> Prop) :
  P initial ->
  (forall e w w', dispatch cfg e w = Some w' -> P w -> P w') ->
  forall w, reachable cfg w -> P w.
Proof.
  intros H0 Hstep w [evs Hrun].
  assert (Hgen : forall evs w0 w1, run cfg evs w0 = Some w1 -> P w0 -> P w1).
  { clear - Hstep. induction evs as [|e evs IH]; intros w0 w1 Hrun H; cbn in Hrun.
    - by simplify_eq.
    - destruct (dispatch cfg e w0) as [w'|] eqn:Hd; [|done].
      eapply IH; [done|]. by eapply Hstep. }
  by eapply Hgen.
Qed.

(** *** Without a gateway endpoint *)

Lemma connect_no_url r w :
  string_is_empty (GATEWAY_WS_URL cfg) = true ->
  connect cfg r w =
    startHttpFallback r (console_log "No WebSocket URL configured, using HTTP fallback" w).
Proof. intros Hurl. unfold connect. by rewrite Hurl. Qed.

Ltac socketless_tac :=
  unfold socketless, retry_delays in *;
  match goal with
  | H : _ /\ _ |- _ => destruct H as (?Hs & ?Hr & ?Hw & ?Ha & ?Hd & ?Hc)
  end;
  open_world; cbn in *; subst; unfold_calls; split_tests; cbn in *;
  try congruence;
  rewrite ?omap_app, ?retry_delays_alter; cbn;
  rewrite ?omap_app, ?retry_delays_alter, ?app_nil_r; cbn;
  repeat split; auto.

Section NoEndpoint.

Hypothesis no_url : string_is_empty (GATEWAY_WS_URL cfg) = true.

Lemma socketless_connect r w : socketless w -> socketless (connect cfg r w).
Proof. intros H. rewrite connect_no_url by done. socketless_tac. Qed.

Lemma socketless_disconnect w : socketless w -> socketless (disconnect w).
Proof.
  intros (Hs & Hr & Hw & Ha & Hd & Hc). rewrite disconnect_eq.
  unfold socketless, retry_delays, cancel. cbn. rewrite Hr.
  repeat case_match; rewrite ?retry_delays_alter; repeat split; auto.
Qed.

Lemma socketless_sendMessage r inp now w :
  socketless w -> socketless (sendMessage cfg r inp now w).
Proof.
  intros H. unfold sendMessage. repeat case_match; try done.
  - socketless_tac.
  - socketless_tac.
  - socketless_tac.
  - apply socketless_connect. socketless_tac.
Qed.

Lemma socketless_forceReconnect r w :
  socketless w -> socketless (forceReconnect r w).
Proof.
  intros H. apply socketless_disconnect in H. unfold forceReconnect.
  generalize dependent (disconnect w). intros d H. socketless_tac.
Qed.

Lemma socketless_run_callback cb w :
  socketless w -> socketless (run_callback cfg cb w).
Proof.
  intros H. destruct cb; cbn; repeat case_match; try done;
    try (by apply socketless_connect); socketless_tac.
Qed.

Lemma socketless_startHttpFallback_resume r healthy w :
  socketless w -> socketless (startHttpFallback_resume cfg r healthy w).
Proof. intros H. socketless_tac. Qed.

Lemma socketless_when (b : bool) (f : World -> World) w :
  (forall x, socketless x -> socketless (f x)) ->
  socketless w -> socketless (when b f w).
Proof. intros Hf Hw. unfold when. destruct b; [by apply Hf|done]. Qed.

Lemma socketless_upd_committed f w :
  socketless w -> socketless (upd_committed f w).
Proof. intros H. socketless_tac. Qed.

Lemma socketless_commit now w : socketless w -> socketless (commit cfg now w).
Proof.
  intros Hw. unfold commit. cbv zeta.
  apply socketless_upd_committed.
  apply socketless_when.
  { intros x H. unfold greetingEffect. socketless_tac. }
  apply socketless_when.
  { intros x H. unfold statusEffect. socketless_tac. }
  apply socketless_when.
  { intros x H. unfold connectEffect. repeat case_match; try done.
    - apply socketless_connect. socketless_tac.
    - socketless_tac. }
  apply socketless_when.
  { intros x H. unfold statusEffect_cleanup. socketless_tac. }
  apply socketless_when; [|done].
  intros x H. destruct (committed w); [|done].
  unfold connectEffect_cleanup. case_match; [done|by apply socketless_disconnect].
Qed.

Lemma socketless_control w w' :
  control w' = control w -> socketless w -> socketless w'.
Proof.
  intros E H. unfold socketless, retry_delays in *.
  replace (sockets w') with (sockets w)
    by (transitivity (sockets (control w')); [by rewrite E; destruct w|by destruct w']).
  replace (wsRef w') with (wsRef w)
    by (transitivity (wsRef (control w')); [by rewrite E; destruct w|by destruct w']).
  replace (wire w') with (wire w)
    by (transitivity (wire (control w')); [by rewrite E; destruct w|by destruct w']).
  replace (reconnectAttempt w') with (reconnectAttempt w)
    by (transitivity (reconnectAttempt (control w')); [by rewrite E; destruct w|by destruct w']).
  replace (timers w') with (timers w)
    by (transitivity (timers (control w')); [by rewrite E; destruct w|by destruct w']).
  replace (connectionState w') with (connectionState w)
    by (transitivity (connectionState (control w')); [by rewrite E; destruct w|by destruct w']).
  done.
Qed.

Lemma socketless_no_socket w ws : socketless w -> readyState w ws = None.
Proof. intros (Hs & _). unfold readyState. by rewrite Hs. Qed.

Lemma socketless_dispatch e w w' :
  dispatch cfg e w = Some w' -> socketless w -> socketless w'.
Proof.
  intros Hd H.
  destruct e as [| |s|now| |now|ws|ws raw now|ws|ws|h|i reply|i reply|i reply|i reply now];
    unfold dispatch in Hd.
  - simplify_eq. socketless_tac.
  - simplify_eq. socketless_tac.
  - simplify_eq. socketless_tac.
  - simplify_eq. by apply socketless_sendMessage.
  - simplify_eq. by apply socketless_forceReconnect.
  - simplify_eq. by apply socketless_commit.
  - by rewrite (socketless_no_socket w ws H) in Hd.
  - by rewrite (socketless_no_socket w ws H) in Hd.
  - by rewrite (socketless_no_socket w ws H) in Hd.
  - destruct H as (Hs & _). by rewrite Hs in Hd.
  - repeat case_match; simplify_eq; apply socketless_run_callback; [socketless_tac|done].
  - repeat case_match; simplify_eq. apply socketless_startHttpFallback_resume.
    socketless_tac.
  - repeat case_match; simplify_eq.
    unfold fetchSerayahStatus_resume. socketless_tac.
  - repeat case_match; simplify_eq.
    apply (socketless_control (settle i w)); [apply control_pollMessages_resume|].
    socketless_tac.
  - repeat case_match; simplify_eq.
    unfold sendMessage_resume, sendMessageViaHttp. socketless_tac.
Qed.

End NoEndpoint.

(** X5. When no gateway endpoint is configured the component never
    creates a socket: in every state it reaches there is no socket and none
    in [wsRef], nothing was sent on one, no retry was scheduled and the
    attempt counter is 0; the state shown is disconnected or poll-mode,
    never connecting or connected.  Each [connect] logs the warning and
    goes to the health probe. *)
Theorem no_endpoint_no_socket (w : World) :
  string_is_empty (GATEWAY_WS_URL cfg) = true ->
  reachable cfg w ->
  socketless w /\
  (forall r, sockets (connect cfg r w) = [] /\
             console (connect cfg r w) =
               console w ++ ["No WebSocket URL configured, using HTTP fallback"] /\
             tasks (connect cfg r w) =
               tasks w ++ (if r_useHttpFallback r then []
                           else [{| task_kind := AwaitHealth r; task_pending := true |}])).
Proof.
  intros Hurl Hreach.
  assert (H : socketless w).
  { revert w Hreach. apply reachable_ind.
    - repeat split; auto.
    - intros e w w' Hd Hw. by apply (socketless_dispatch Hurl e w w'). }
  split; [exact H|]. intros r. rewrite connect_no_url by done.
  destruct H as (Hs & _). unfold startHttpFallback.
  destruct (r_useHttpFallback r); destruct w; cbn in *; subst;
    by rewrite ?app_nil_r.
Qed.


(** *** The state connected *)

Ltac keeps_tac :=
  unfold keeps, link; open_world; unfold_calls; split_tests; cbn;
  try done; intros; try congruence; try done.

Lemma keeps_refl w : keeps w w.
Proof. by intros H. Qed.

Lemma keeps_trans w1 w2 w3 : keeps w1 w2 -> keeps w2 w3 -> keeps w1 w3.
Proof.
  intros H12 H23 H. destruct (H23 H) as [H2 E23]. destruct (H12 H2) as [H1 E12].
  split; [done|]. by rewrite E23.
Qed.

Lemma keeps_control w w' : control w' = control w -> keeps w w'.
Proof.
  intros E H. unfold link.
  replace (sockets w') with (sockets w)
    by (transitivity (sockets (control w')); [by rewrite E; destruct w|by destruct w']).
  replace (wsRef w') with (wsRef w)
    by (transitivity (wsRef (control w')); [by rewrite E; destruct w|by destruct w']).
  replace (connectionState w') with (connectionState w) in *
    by (transitivity (connectionState (control w')); [by rewrite E; destruct w|by destruct w']).
  done.
Qed.

Lemma keeps_connect r w : keeps w (connect cfg r w).
Proof. keeps_tac. Qed.

Lemma keeps_disconnect w : keeps w (disconnect w).
Proof. intros H. by rewrite disconnect_eq in H. Qed.

Lemma connectionState_onclose r w : connectionState (onclose r w) = disconnected.
Proof. by_cases. Qed.

Lemma keeps_startHttpFallback_resume r healthy w :
  keeps w (startHttpFallback_resume cfg r healthy w).
Proof. keeps_tac. Qed.

Lemma keeps_forceReconnect r w : keeps w (forceReconnect r w).
Proof.
  intros H. exfalso. revert H. unfold forceReconnect. rewrite disconnect_eq.
  by unfold_calls.
Qed.

Lemma keeps_sendMessage r inp now w : keeps w (sendMessage cfg r inp now w).
Proof.
  unfold sendMessage. repeat case_match; try apply keeps_refl;
    try (eapply keeps_trans; [|apply keeps_connect]); keeps_tac.
Qed.

Lemma keeps_run_callback cb w : keeps w (run_callback cfg cb w).
Proof.
  destruct cb; cbn; repeat case_match; try apply keeps_refl;
    try apply keeps_connect; keeps_tac.
Qed.

Lemma keeps_when (b : bool) (f : World -> World) w0 w :
  (forall x, keeps x (f x)) -> keeps w0 w -> keeps w0 (when b f w).
Proof.
  intros Hf Hw. unfold when. destruct b; [|done].
  eapply keeps_trans; [exact Hw|apply Hf].
Qed.

Lemma keeps_commit now w : keeps w (commit cfg now w).
Proof.
  unfold commit. cbv zeta.
  match goal with
  | |- keeps _ (upd_committed ?f ?x) =>
      apply (keeps_trans w x); [|generalize x; intros y; keeps_tac]
  end.
  apply keeps_when. { intros x. unfold greetingEffect. keeps_tac. }
  apply keeps_when. { intros x. unfold statusEffect. keeps_tac. }
  apply keeps_when.
  { intros x. unfold connectEffect. repeat case_match; try apply keeps_refl.
    - eapply keeps_trans; [|apply keeps_connect]. keeps_tac.
    - keeps_tac. }
  apply keeps_when. { intros x. unfold statusEffect_cleanup. keeps_tac. }
  apply keeps_when; [|apply keeps_refl].
  intros x. destruct (committed w); [|apply keeps_refl].
  unfold connectEffect_cleanup. case_match; [apply keeps_refl|apply keeps_disconnect].
Qed.

Lemma connected_has_socket_keeps w w' :
  keeps w w' -> connected_has_socket w -> connected_has_socket w'.
Proof.
  intros Hk Hw H. destruct (Hk H) as [H0 E]. unfold link in E.
  rewrite !(wsRef_is_eq _ w w') by congruence. by apply Hw.
Qed.

Lemma wsRef_is_alter s s' ws w :
  wsRef w = Some ws -> is_Some (sockets w !! ws) ->
  wsRef_is s (upd_sockets (alter (set_readyState s') ws) w) = bool_decide (s' = s).
Proof.
  intros Href [k Hk]. unfold wsRef_is, wsRef_readyState, readyState.
  replace (wsRef (upd_sockets (alter (set_readyState s') ws) w)) with (wsRef w)
    by (by destruct w).
  replace (sockets (upd_sockets (alter (set_readyState s') ws) w))
    with (alter (set_readyState s') ws (sockets w)) by (by destruct w).
  rewrite Href, list_lookup_alter_eq, Hk. cbn.
  apply bool_decide_ext. split; congruence.
Qed.

Lemma wsRef_is_alter_ne s s' ws w :
  wsRef w <> Some ws ->
  wsRef_is s (upd_sockets (alter (set_readyState s') ws) w) = wsRef_is s w.
Proof.
  intros Href. unfold wsRef_is, wsRef_readyState, readyState.
  replace (wsRef (upd_sockets (alter (set_readyState s') ws) w)) with (wsRef w)
    by (by destruct w).
  replace (sockets (upd_sockets (alter (set_readyState s') ws) w))
    with (alter (set_readyState s') ws (sockets w)) by (by destruct w).
  destruct (wsRef w) as [i|]; [|done].
  rewrite list_lookup_alter_ne by congruence. done.
Qed.

Lemma connected_has_socket_ws_close ws w :
  connected_has_socket w -> connected_has_socket (ws_close ws w).
Proof.
  intros Hw. unfold ws_close.
  destruct (readyState w ws) as [[]|] eqn:Hrs; try done.
  all: intros H; assert (H0 : connectionState w = connected) by (by destruct w);
       specialize (Hw H0);
       destruct (decide (wsRef w = Some ws)) as [Href|Href];
       [ rewrite (wsRef_is_alter CLOSING CLOSING ws w Href);
         [ rewrite bool_decide_eq_true_2 by done; apply orb_true_r
         | unfold readyState in Hrs; destruct (sockets w !! ws); [by eexists|done] ]
       | by rewrite !wsRef_is_alter_ne ].
Qed.

Lemma connected_has_socket_dispatch e w w' :
  dispatch cfg e w = Some w' -> one_live_socket w ->
  connected_has_socket w -> connected_has_socket w'.
Proof.
  intros Hd Hlive Hw.
  destruct e as [| |s|now| |now|ws|ws raw now|ws|ws|h|i reply|i reply|i reply|i reply now];
    unfold dispatch in Hd; repeat case_match; simplify_eq.
  - revert Hw. apply connected_has_socket_keeps. keeps_tac.
  - revert Hw. apply connected_has_socket_keeps. keeps_tac.
  - revert Hw. apply connected_has_socket_keeps. keeps_tac.
  - revert Hw. apply connected_has_socket_keeps, keeps_sendMessage.
  - revert Hw. apply connected_has_socket_keeps, keeps_forceReconnect.
  - revert Hw. apply connected_has_socket_keeps, keeps_commit.
  - intros _.
    match goal with H : readyState w ws = Some _ |- _ =>
      unfold readyState in H; destruct (sockets w !! ws) as [k|] eqn:Hk; [|done];
      cbn in H; simplify_eq end.
    assert (Href : wsRef w = Some ws).
    { apply (Hlive ws k Hk). match goal with H : ws_readyState k = _ |- _ => by rewrite H end. }
    rewrite !(wsRef_is_eq _ (upd_sockets (alter (set_readyState OPEN) ws) w))
      by (pose proof (link_onopen ws (upd_sockets (alter (set_readyState OPEN) ws) w)) as E;
          unfold link in E; congruence).
    rewrite (wsRef_is_alter OPEN OPEN ws w Href) by (by eexists). done.
  - revert Hw. apply connected_has_socket_keeps, keeps_control, control_onmessage.
  - unfold onerror. apply connected_has_socket_ws_close.
    revert Hw. apply connected_has_socket_keeps. keeps_tac.
  - unfold onerror. apply connected_has_socket_ws_close.
    revert Hw. apply connected_has_socket_keeps. keeps_tac.
  - unfold onerror. apply connected_has_socket_ws_close.
    revert Hw. apply connected_has_socket_keeps. keeps_tac.
  - intros Hc. by rewrite connectionState_onclose in Hc.
  - revert Hw. apply connected_has_socket_keeps.
    eapply keeps_trans; [|apply keeps_run_callback]. keeps_tac.
  - revert Hw. apply connected_has_socket_keeps, keeps_run_callback.
  - revert Hw. apply connected_has_socket_keeps.
    eapply keeps_trans; [|apply keeps_startHttpFallback_resume]. keeps_tac.
  - revert Hw. apply connected_has_socket_keeps.
    eapply keeps_trans; [|apply keeps_control, control_fetchSerayahStatus_resume].
    keeps_tac.
  - revert Hw. apply connected_has_socket_keeps.
    eapply keeps_trans; [|apply keeps_control, control_pollMessages_resume].
    keeps_tac.
  - revert Hw. apply connected_has_socket_keeps.
    eapply keeps_trans; [|apply keeps_control, control_sendMessage_resume].
    keeps_tac.
Qed.

(** X12. In every state the component reaches, the state connected is
    shown only while the socket of [wsRef] is one that has opened and whose
    closure has not been delivered: it is open, or closing after an error.
    So the input is enabled as connected only over such a socket. *)
Theorem connected_only_over_opened_socket (w : World) :
  reachable cfg w ->
  connectionState w = connected ->
  exists ws, wsRef w = Some ws /\
             (readyState w ws = Some OPEN \/ readyState w ws = Some CLOSING).
Proof.
  intros Hreach.
  assert (H : one_live_socket w /\ connected_has_socket w).
  { revert w Hreach. apply reachable_ind.
    - split; [by intros i s Hi|by intros H].
    - intros e w w' Hd [H1 H2]. split.
      + by eapply one_live_socket_dispatch.
      + by eapply connected_has_socket_dispatch. }
  destruct H as [_ H]. intros Hc. specialize (H Hc).
  unfold wsRef_is, wsRef_readyState in H.
  destruct (wsRef w) as [ws|]; [|done]. exists ws. split; [done|].
  apply orb_prop in H as [H|H]; apply bool_decide_eq_true in H; auto.
Qed.


(** *** The intervals and their handles *)

Lemma owned_cancel x l p m s : owned l p m s -> owned (cancel x l) p m s.
Proof.
  intros H h t Hh Hk Ha. apply cancel_inactive in Hh as [Hh _]; [|done].
  by apply (H h t).
Qed.

Lemma owned_cancel_p l p m s : owned l p m s -> owned (cancel p l) None m s.
Proof.
  intros H h t Hh Hk Ha. apply cancel_inactive in Hh as [Hh Hne]; [|done].
  destruct (H h t Hh Hk Ha) as [?|[?|?]]; [done|by right; left|by right; right].
Qed.

Lemma owned_cancel_m l p m s : owned l p m s -> owned (cancel m l) p None s.
Proof.
  intros H h t Hh Hk Ha. apply cancel_inactive in Hh as [Hh Hne]; [|done].
  destruct (H h t Hh Hk Ha) as [?|[?|?]]; [by left|done|by right; right].
Qed.

Lemma owned_cancel_s l p m s : owned l p m s -> owned (cancel s l) p m None.
Proof.
  intros H h t Hh Hk Ha. apply cancel_inactive in Hh as [Hh Hne]; [|done].
  destruct (H h t Hh Hk Ha) as [?|[?|?]]; [by left|by right; left|done].
Qed.

Lemma owned_timeout l p m s cb d :
  owned l p m s ->
  owned (l ++ [{| t_kind := Timeout; t_delay := d; t_callback := cb;
                  t_active := true |}]) p m s.
Proof.
  intros H h t Hh Hk Ha. apply lookup_app_Some in Hh as [Hh|[_ Hh]].
  - by apply (H h t).
  - apply list_lookup_singleton_Some in Hh as [_ <-]. done.
Qed.

Lemma owned_new_p l m s t0 : owned l None m s -> owned (l ++ [t0]) (Some (length l)) m s.
Proof.
  intros H h t Hh Hk Ha. apply lookup_app_Some in Hh as [Hh|[Hge Hh]].
  - destruct (H h t Hh Hk Ha) as [?|[?|?]]; [done|by right; left|by right; right].
  - apply list_lookup_singleton_Some in Hh as [Hz _]. left. f_equal. lia.
Qed.

Lemma owned_new_m l p s t0 : owned l p None s -> owned (l ++ [t0]) p (Some (length l)) s.
Proof.
  intros H h t Hh Hk Ha. apply lookup_app_Some in Hh as [Hh|[Hge Hh]].
  - destruct (H h t Hh Hk Ha) as [?|[?|?]]; [by left|done|by right; right].
  - apply list_lookup_singleton_Some in Hh as [Hz _]. right; left. f_equal. lia.
Qed.

Lemma owned_new_s l p m t0 : owned l p m None -> owned (l ++ [t0]) p m (Some (length l)).
Proof.
  intros H h t Hh Hk Ha. apply lookup_app_Some in Hh as [Hh|[Hge Hh]].
  - destruct (H h t Hh Hk Ha) as [?|[?|?]]; [by left|by right; left|done].
  - apply list_lookup_singleton_Some in Hh as [Hz _]. right; right. f_equal. lia.
Qed.

Lemma intervals_owned_lease w w' :
  lease w' = lease w -> intervals_owned w -> intervals_owned w'.
Proof. unfold lease, intervals_owned. by intros [= -> -> -> ->]. Qed.

Lemma lease_control w w' : control w' = control w -> lease w' = lease w.
Proof.
  intros E. transitivity (lease (control w')); [by destruct w'|].
  rewrite E. by destruct w.
Qed.

Lemma intervals_owned_stopHttpFallback w :
  intervals_owned w -> intervals_owned (stopHttpFallback w).
Proof.
  unfold intervals_owned. rewrite stopHttpFallback_eq. cbn. intros H.
  by apply owned_cancel_m, owned_cancel_p.
Qed.

Lemma intervals_owned_disconnect w :
  intervals_owned w -> intervals_owned (disconnect w).
Proof.
  unfold intervals_owned. rewrite disconnect_eq. cbn. intros H.
  by apply owned_cancel_m, owned_cancel_p, owned_cancel.
Qed.

Lemma lease_connect r w :
  lease (connect cfg r w) = lease w \/
  lease (connect cfg r w) = lease (stopHttpFallback w).
Proof.
  unfold connect. destruct (string_is_empty (GATEWAY_WS_URL cfg)); [left; by_cases|].
  destruct (wsRef_is OPEN w || wsRef_is CONNECTING w); [by left|].
  right. cbv zeta. generalize (stopHttpFallback w). by_cases.
Qed.

Lemma intervals_owned_connect r w :
  intervals_owned w -> intervals_owned (connect cfg r w).
Proof.
  intros H. destruct (lease_connect r w) as [E|E].
  - by apply (intervals_owned_lease w).
  - apply (intervals_owned_lease (stopHttpFallback w)); [done|].
    by apply intervals_owned_stopHttpFallback.
Qed.

Lemma lease_startHttpFallback_resume_true r w :
  lease (startHttpFallback_resume cfg r true w) =
    ((cancel (messagePollIntervalRef w) (cancel (pollIntervalRef w) (timers w))
        ++ [interval StatusPoll POLL_INTERVAL])
        ++ [interval (MessagePoll r) MESSAGE_POLL_INTERVAL],
     Some (length (timers w)), Some (S (length (timers w))),
     statusEffectInterval w).
Proof.
  destruct w. unfold startHttpFallback_resume, lease, cancel. unfold_calls. cbn.
  destruct pollIntervalRef0 as [h1|], messagePollIntervalRef0 as [h2|]; cbn;
    repeat case_match; cbn;
    rewrite ?length_app, ?length_alter; cbn [length]; by rewrite ?Nat.add_1_r.
Qed.

Lemma timers_startHttpFallback_resume_eq r w :
  timers (startHttpFallback_resume cfg r true w) =
    (cancel (messagePollIntervalRef w) (cancel (pollIntervalRef w) (timers w))
       ++ [interval StatusPoll POLL_INTERVAL])
      ++ [interval (MessagePoll r) MESSAGE_POLL_INTERVAL].
Proof.
  pose proof (lease_startHttpFallback_resume_true r w) as E. unfold lease in E.
  by injection E.
Qed.

Lemma intervals_owned_startHttpFallback_resume r healthy w :
  intervals_owned w -> intervals_owned (startHttpFallback_resume cfg r healthy w).
Proof.
  intros H. destruct healthy; [|done].
  change (match lease (startHttpFallback_resume cfg r true w) with
          | (l, p, m, s) => owned l p m s
          end).
  rewrite lease_startHttpFallback_resume_true. cbv beta iota.
  set (l := cancel _ (cancel _ _)).
  assert (Hl : length l = length (timers w))
    by (subst l; unfold cancel; repeat case_match; by rewrite ?length_alter).
  replace (Some (S (length (timers w))))
    with (Some (length (l ++ [interval StatusPoll POLL_INTERVAL])))
    by (rewrite length_app, Hl; cbn; f_equal; lia).
  apply owned_new_m. rewrite <- Hl. apply owned_new_p.
  subst l. by apply owned_cancel_m, owned_cancel_p.
Qed.

Lemma intervals_owned_onclose r w :
  intervals_owned w -> intervals_owned (onclose r w).
Proof.
  intros H. unfold onclose. cbv zeta.
  destruct (r_isOpen r); [|revert H; apply intervals_owned_lease; by_cases].
  destruct (r_reconnectAttempt r <? MAX_WS_RECONNECT_ATTEMPTS)%nat.
  - unfold intervals_owned in *. destruct w. unfold_calls. cbn in *.
    by apply owned_timeout.
  - revert H. apply intervals_owned_lease. by_cases.
Qed.

Lemma intervals_owned_forceReconnect r w :
  intervals_owned w -> intervals_owned (forceReconnect r w).
Proof.
  intros H. apply intervals_owned_disconnect in H. unfold forceReconnect.
  revert H. generalize (disconnect w). intros d H.
  unfold intervals_owned in *. destruct d. unfold_calls. cbn in *.
  by apply owned_timeout.
Qed.

Lemma intervals_owned_sendMessage r inp now w :
  intervals_owned w -> intervals_owned (sendMessage cfg r inp now w).
Proof.
  intros H. unfold sendMessage. repeat case_match; try done;
    try apply intervals_owned_connect;
    (revert H; apply intervals_owned_lease; by_cases).
Qed.

Lemma intervals_owned_clearTimer h w :
  intervals_owned w -> intervals_owned (clearTimer h w).
Proof.
  unfold intervals_owned. intros H. destruct w. cbn in *.
  by apply (owned_cancel (Some h)).
Qed.

Lemma intervals_owned_run_callback cb w :
  intervals_owned w -> intervals_owned (run_callback cfg cb w).
Proof.
  intros H. destruct cb; cbn; repeat case_match; try done;
    try (by apply intervals_owned_connect);
    (revert H; apply intervals_owned_lease; by_cases).
Qed.

Lemma statusEffectInterval_connect r w :
  statusEffectInterval (connect cfg r w) = statusEffectInterval w.
Proof.
  destruct (lease_connect r w) as [E|E]; apply (f_equal snd) in E;
    unfold lease in E; cbn in E; rewrite E; [done|].
  by rewrite stopHttpFallback_eq.
Qed.

Lemma intervals_owned_connectEffect r w :
  intervals_owned w ->
  intervals_owned (connectEffect cfg r w) /\
  statusEffectInterval (connectEffect cfg r w) = statusEffectInterval w.
Proof.
  intros H. unfold connectEffect. repeat case_match; try done.
  - split.
    + apply intervals_owned_connect. revert H. apply intervals_owned_lease. by_cases.
    + rewrite statusEffectInterval_connect. by_cases.
  - split; [revert H; apply intervals_owned_lease; by_cases|by_cases].
Qed.

Lemma intervals_owned_statusEffect_cleanup w :
  intervals_owned w ->
  intervals_owned (statusEffect_cleanup w) /\
  statusEffectInterval (statusEffect_cleanup w) = None.
Proof.
  unfold statusEffect_cleanup, intervals_owned. intros H.
  destruct w. cbn in *. destruct statusEffectInterval0 as [h|]; cbn; [|done].
  split; [|done]. by apply (owned_cancel_s _ _ _ (Some h)).
Qed.

Lemma intervals_owned_statusEffect r w :
  intervals_owned w -> statusEffectInterval w = None ->
  intervals_owned (statusEffect r w).
Proof.
  unfold statusEffect, intervals_owned. intros H Hs.
  destruct (negb (r_isOpen r) || negb (r_useHttpFallback r)); [done|].
  destruct w. unfold_calls. cbn in *. subst. by apply owned_new_s.
Qed.

Lemma intervals_owned_greetingEffect r n now w :
  intervals_owned w -> intervals_owned (greetingEffect r n now w).
Proof. apply intervals_owned_lease. unfold greetingEffect. by_cases. Qed.

(** The effects of one commit, in the order they run. *)
Lemma intervals_owned_effects (cd sd gd : bool) (f : World -> World) r n now w :
  (forall x, intervals_owned x -> intervals_owned (f x)) ->
  intervals_owned w ->
  intervals_owned
    (when gd (greetingEffect r n now)
       (when sd (statusEffect r)
          (when cd (connectEffect cfg r)
             (when sd statusEffect_cleanup (when cd f w))))).
Proof.
  intros Hf Hw.
  assert (H1 : intervals_owned (when cd f w)) by (destruct cd; cbn; auto).
  revert H1. generalize (when cd f w). clear Hw. intros w1 H1.
  assert (Hc : forall x, intervals_owned x ->
                 intervals_owned (when cd (connectEffect cfg r) x) /\
                 statusEffectInterval (when cd (connectEffect cfg r) x) =
                   statusEffectInterval x).
  { intros x Hx. destruct cd; cbn; [|done]. by apply intervals_owned_connectEffect. }
  assert (Hg : forall x, intervals_owned x ->
                 intervals_owned (when gd (greetingEffect r n now) x)).
  { intros x Hx. destruct gd; cbn; [|done]. by apply intervals_owned_greetingEffect. }
  apply Hg. destruct sd; cbn [when].
  - destruct (intervals_owned_statusEffect_cleanup w1 H1) as [H2 Hs].
    destruct (Hc _ H2) as [H3 Hs3]. apply intervals_owned_statusEffect; [done|].
    by rewrite Hs3.
  - by apply Hc.
Qed.

Lemma intervals_owned_commit now w :
  intervals_owned w -> intervals_owned (commit cfg now w).
Proof.
  intros Hw. unfold commit. cbv zeta.
  match goal with
  | |- intervals_owned (upd_committed ?f ?x) =>
      apply (intervals_owned_lease x); [by destruct x|]
  end.
  apply intervals_owned_effects; [|done].
  intros x Hx. destruct (committed w); [|done].
  unfold connectEffect_cleanup. case_match; [done|by apply intervals_owned_disconnect].
Qed.

Lemma intervals_owned_dispatch e w w' :
  dispatch cfg e w = Some w' -> intervals_owned w -> intervals_owned w'.
Proof.
  intros Hd Hw.
  destruct e as [| |s|now| |now|ws|ws raw now|ws|ws|h|i reply|i reply|i reply|i reply now];
    unfold dispatch in Hd; repeat case_match; simplify_eq.
  - revert Hw. apply intervals_owned_lease. by destruct w.
  - revert Hw. apply intervals_owned_lease. by destruct w.
  - revert Hw. apply intervals_owned_lease. by destruct w.
  - by apply intervals_owned_sendMessage.
  - by apply intervals_owned_forceReconnect.
  - by apply intervals_owned_commit.
  - revert Hw. apply intervals_owned_lease.
    generalize ws at 1. intros ws'. unfold lease. by_cases.
  - revert Hw. apply intervals_owned_lease, lease_control, control_onmessage.
  - revert Hw. apply intervals_owned_lease. unfold lease. by_cases.
  - revert Hw. apply intervals_owned_lease. unfold lease. by_cases.
  - revert Hw. apply intervals_owned_lease. unfold lease. by_cases.
  - apply intervals_owned_onclose. revert Hw. apply intervals_owned_lease. by destruct w.
  - by apply intervals_owned_run_callback, intervals_owned_clearTimer.
  - by apply intervals_owned_run_callback.
  - apply intervals_owned_startHttpFallback_resume.
    revert Hw. apply intervals_owned_lease. by destruct w.
  - apply (intervals_owned_lease (settle i w));
      [apply lease_control, control_fetchSerayahStatus_resume|].
    revert Hw. apply intervals_owned_lease. by destruct w.
  - apply (intervals_owned_lease (settle i w));
      [apply lease_control, control_pollMessages_resume|].
    revert Hw. apply intervals_owned_lease. by destruct w.
  - apply (intervals_owned_lease (settle i w));
      [apply lease_control, control_sendMessage_resume|].
    revert Hw. apply intervals_owned_lease. by destruct w.
Qed.

Lemma length_omap_below (S : list nat) :
  (length (omap below S) <= length S)%nat /\
  (In 0 S -> length (omap below S) < length S)%nat.
Proof.
  induction S as [|i S [IH1 IH2]]; cbn; [split; [lia|tauto]|].
  destruct i as [|k]; cbn; split; try lia.
  intros [?|H]; [done|]. specialize (IH2 H). lia.
Qed.

(** The elements that satisfy [P] are no more than the places they may
    be at. *)
Lemma filter_length_bound {A} (P : A -> bool) (l : list A) : forall (S : list nat),
  (forall h t, l !! h = Some t -> P t = true -> In h S) ->
  (length (List.filter P l) <= length S)%nat.
Proof.
  induction l as [|x l IH]; intros S HS; cbn; [lia|].
  assert (Hl : forall h t, l !! h = Some t -> P t = true -> In h (omap below S)).
  { intros h t Hh Ht. specialize (HS (Datatypes.S h) t Hh Ht).
    apply list_elem_of_In, list_elem_of_omap. exists (Datatypes.S h).
    split; [by apply list_elem_of_In|done]. }
  specialize (IH _ Hl). destruct (length_omap_below S) as [H1 H2].
  destruct (P x) eqn:Hx; cbn; [|lia].
  specialize (H2 (HS 0 x eq_refl Hx)). lia.
Qed.

(** X13. No polling interval leaks.  In every state the component
    reaches, the handle of every running interval is held by
    [pollIntervalRef], by [messagePollIntervalRef] or by the cleanup of the
    status effect, so each can still be cleared and at most three run at a
    time: whenever a handle is overwritten or dropped, its interval was
    cleared first. *)
Theorem no_interval_leaks (w : World) :
  reachable cfg w ->
  (forall h t,
     timers w !! h = Some t -> t_kind t = Interval -> t_active t = true ->
     pollIntervalRef w = Some h \/ messagePollIntervalRef w = Some h \/
     statusEffectInterval w = Some h) /\
  (running_intervals w <= 3)%nat.
Proof.
  intros Hreach.
  assert (H : intervals_owned w).
  { revert w Hreach. apply reachable_ind.
    - by intros h t Hh.
    - intros e w w' Hd Hw. by eapply intervals_owned_dispatch. }
  split; [exact H|].
  set (refs := omap id [pollIntervalRef w; messagePollIntervalRef w;
                        statusEffectInterval w]).
  assert (Hlen : (length refs <= 3)%nat).
  { subst refs. destruct (pollIntervalRef w), (messagePollIntervalRef w),
      (statusEffectInterval w); cbn; lia. }
  etrans; [|exact Hlen]. apply filter_length_bound.
  intros h t Hh Hr. unfold running_interval in Hr. apply andb_prop in Hr as [Hk Ha].
  assert (Hkind : t_kind t = Interval) by (unfold is_interval in Hk; by destruct (t_kind t)).
  subst refs.
  destruct (H h t Hh Hkind Ha) as [E|[E|E]]; rewrite E;
    destruct (pollIntervalRef w), (messagePollIntervalRef w), (statusEffectInterval w);
    cbn; simplify_eq; auto.
Qed.


(** *** Answers and frames *)

Lemma control_fields w w' :
  control w' = control w ->
  isOpen w' = isOpen w /\ input w' = input w /\
  connectionState w' = connectionState w /\
  reconnectAttempt w' = reconnectAttempt w /\
  useHttpFallback w' = useHttpFallback w /\
  wsRef w' = wsRef w /\ reconnectTimeoutRef w' = reconnectTimeoutRef w /\
  pollIntervalRef w' = pollIntervalRef w /\
  messagePollIntervalRef w' = messagePollIntervalRef w /\
  pendingMessageRef w' = pendingMessageRef w /\
  sockets w' = sockets w /\ wire w' = wire w /\
  timers w' = timers w /\ tasks w' = tasks w /\
  committed w' = committed w /\
  statusEffectInterval w' = statusEffectInterval w.
Proof.
  intros E. destruct w, w'. cbn in *. injection E. intros. subst. repeat split.
Qed.

(** X14. A frame from the gateway and the answers to the three requests
    (agents, messages, POST) change only what is displayed or logged: the
    transcript, the status snapshot, the poll cursor and the console.  None
    of them changes the connection state, the attempt counter, the
    fallback flag, a ref other than the cursor, a socket, a timer, a
    pending request, the input or what goes out on the wire; a frame leaves
    the cursor and the console alone as well. *)
Theorem answers_change_only_the_display :
  (forall raw now w, control (onmessage raw now w) = control w) /\
  (forall raw now w,
     lastMessageIdRef (onmessage raw now w) = lastMessageIdRef w /\
     console (onmessage raw now w) = console w) /\
  (forall reply w, control (fetchSerayahStatus_resume reply w) = control w) /\
  (forall reply w, control (pollMessages_resume reply w) = control w) /\
  (forall reply now w, control (sendMessage_resume cfg reply now w) = control w) /\
  (forall w w',
     control w' = control w ->
     isOpen w' = isOpen w /\ input w' = input w /\
     connectionState w' = connectionState w /\
     reconnectAttempt w' = reconnectAttempt w /\
     useHttpFallback w' = useHttpFallback w /\
     wsRef w' = wsRef w /\ reconnectTimeoutRef w' = reconnectTimeoutRef w /\
     pollIntervalRef w' = pollIntervalRef w /\
     messagePollIntervalRef w' = messagePollIntervalRef w /\
     pendingMessageRef w' = pendingMessageRef w /\
     sockets w' = sockets w /\ wire w' = wire w /\
     timers w' = timers w /\ tasks w' = tasks w /\
     committed w' = committed w /\
     statusEffectInterval w' = statusEffectInterval w).
Proof.
  split; [apply control_onmessage|]. split.
  { intros raw now w. unfold onmessage, handleWsMessage.
    repeat case_match; try done; split; by_cases. }
  split; [apply control_fetchSerayahStatus_resume|].
  split; [apply control_pollMessages_resume|].
  split; [apply control_sendMessage_resume|].
  apply control_fields.
Qed.

(** *** The agents poll *)

Lemma find_first_match {A} (p : A -> bool) pre a post :
  forallb (fun x => negb (p x)) pre = true -> p a = true ->
  List.find p (pre ++ a :: post) = Some a.
Proof.
  induction pre as [|x pre IH]; cbn; intros Hpre Ha.
  - by rewrite Ha.
  - apply andb_prop in Hpre as [Hx Hpre]. apply negb_true_iff in Hx.
    rewrite Hx. by apply IH.
Qed.

Lemma find_no_match {A} (p : A -> bool) l :
  forallb (fun x => negb (p x)) l = true -> List.find p l = None.
Proof.
  induction l as [|x l IH]; cbn; intros Hl; [done|].
  apply andb_prop in Hl as [Hx Hl]. apply negb_true_iff in Hx.
  rewrite Hx. by apply IH.
Qed.

(** X15. The agents poll takes the first agent of the response whose name
    contains "serayah" in any letter case, or that is the gateway's main
    agent, and replaces the whole snapshot by it: the normalised status,
    the current task and the last-seen time of that agent, nothing of the
    previous snapshot being kept.  Later matches are ignored; a response
    without a match, a refusal and a failure keep the snapshot. *)
Theorem status_poll_takes_first_match :
  (forall pre a post w,
     forallb (fun x => negb (is_serayah x)) pre = true -> is_serayah a = true ->
     serayahStatus (fetchSerayahStatus_resume (Ok (pre ++ a :: post)) w) =
       {| status := mapAgentStatus (agent_status a);
          currentTask := agent_current_task a;
          lastSeen := match agent_last_seen_at a with
                      | Some s => if string_is_empty s then None else Some (DateOf s)
                      | None => None
                      end |}) /\
  (forall agents w,
     forallb (fun x => negb (is_serayah x)) agents = true ->
     fetchSerayahStatus_resume (Ok agents) w = w) /\
  (forall w, fetchSerayahStatus_resume NotOk w = w) /\
  (forall w, serayahStatus (fetchSerayahStatus_resume Failed w) = serayahStatus w) /\
  (forall a, is_serayah a = true <->
             agent_is_gateway_main a = true \/
             exists n, agent_name a = Some n /\ includes "serayah" (toLowerCase n) = true).
Proof.
  split; [|split; [|split; [|split]]].
  - intros pre a post w Hpre Ha. unfold fetchSerayahStatus_resume.
    rewrite (find_first_match is_serayah pre a post Hpre Ha). by destruct w.
  - intros agents w Hl. unfold fetchSerayahStatus_resume.
    by rewrite (find_no_match is_serayah agents Hl).
  - done.
  - intros w. by destruct w.
  - intros a. unfold is_serayah. destruct (agent_name a) as [n|]; split.
    + intros H. apply orb_prop in H as [H|H]; [right; by exists n|by left].
    + intros [H|(n' & [= <-] & H)]; rewrite H; [apply orb_true_r|done].
    + intros H. by left.
    + intros [H|(n' & [=] & _)]. by rewrite H.
Qed.


(** *** Closing the chat *)

Lemma link_statusEffect_cleanup w : link (statusEffect_cleanup w) = link w.
Proof. unfold statusEffect_cleanup, link. by_cases. Qed.

Lemma when_id (b : bool) (w : World) : when b (fun x => x) w = w.
Proof. by destruct b. Qed.

(** The commit that follows closing the chat: the cleanup that runs is the
    one of the render with the chat open. *)
Lemma commit_after_close now w c :
  committed w = Some c -> r_isOpen (cm_render c) = true -> isOpen w = false ->
  commit cfg now w =
    upd_committed
      (fun _ => Some {| cm_render := render w;
                        cm_messages_length := length (messages w) |})
      (statusEffect_cleanup w).
Proof.
  intros Hc Ho Hw. unfold commit. cbv zeta. rewrite Hc. cbn [fmap option_fmap option_map].
  rewrite (bool_decide_eq_true_2 (Some (cm_render c) <> Some (render w)))
    by (intros [= E]; rewrite E in Ho; cbn in Ho; congruence).
  unfold connectEffect_cleanup, connectEffect, statusEffect, greetingEffect.
  cbn [render r_isOpen r_useHttpFallback]. rewrite Ho, Hw.
  repeat match goal with
         | |- context [bool_decide ?P] =>
             rewrite (bool_decide_eq_true_2 P) by congruence
         end.
  cbn [negb orb andb]. rewrite !when_id. cbn [when]. reflexivity.
Qed.

(** A later commit with the chat still closed, after a state variable of
    the render changed: now the cleanup is the one of a render with the chat
    closed. *)
Lemma commit_closed_change now w c :
  committed w = Some c -> r_isOpen (cm_render c) = false -> isOpen w = false ->
  cm_render c <> render w ->
  exists sd,
    commit cfg now w =
      upd_committed
        (fun _ => Some {| cm_render := render w;
                          cm_messages_length := length (messages w) |})
        (when sd statusEffect_cleanup (disconnect w)).
Proof.
  intros Hc Ho Hw Hne. eexists. unfold commit. cbv zeta. rewrite Hc.
  cbn [fmap option_fmap option_map].
  rewrite (bool_decide_eq_true_2 (Some (cm_render c) <> Some (render w)))
    by (intros [= E]; congruence).
  unfold connectEffect_cleanup, connectEffect, statusEffect, greetingEffect.
  cbn [render r_isOpen r_useHttpFallback]. rewrite Ho, Hw. cbn [negb orb andb].
  rewrite !when_id. cbn [when]. reflexivity.
Qed.

Lemma commit_same_render now w c :
  committed w = Some c -> cm_render c = render w ->
  exists gd,
    commit cfg now w =
      upd_committed
        (fun _ => Some {| cm_render := render w;
                          cm_messages_length := length (messages w) |})
        (when gd (greetingEffect (render w) (length (messages w)) now) w).
Proof.
  intros Hc Hr. eexists. unfold commit. cbv zeta. rewrite Hc.
  cbn [fmap option_fmap option_map]. rewrite Hr.
  rewrite (bool_decide_eq_false_2 (Some (render w) <> Some (render w))) by (by intros H).
  match goal with
  | |- context [when (bool_decide ?P) statusEffect_cleanup] =>
      rewrite (bool_decide_eq_false_2 P) by (by intros H)
  end.
  cbn [when]. reflexivity.
Qed.

(** X8. Closing the chat does not close the connection.  The commit that
    follows runs the cleanup of the render in which the chat was open,
    which does nothing: the socket, [wsRef], the retry timer, the polling
    timers of the refs and the state stay as they are; only the interval
    of the status effect is cleared.  While no state variable changes,
    later commits leave the connection alone too.  [disconnect] runs at
    the first later commit at which a state variable of the render differs,
    the chat still being closed: then no socket is left in [wsRef], the one
    that was there is closing or closed, the state is disconnected and the
    fallback is off. *)
Theorem closing_the_chat_keeps_the_connection :
  (forall now w c,
     committed w = Some c -> r_isOpen (cm_render c) = true -> isOpen w = false ->
     let w' := commit cfg now w in
     wsRef w' = wsRef w /\ sockets w' = sockets w /\ wire w' = wire w /\
     connectionState w' = connectionState w /\
     useHttpFallback w' = useHttpFallback w /\
     reconnectAttempt w' = reconnectAttempt w /\
     reconnectTimeoutRef w' = reconnectTimeoutRef w /\
     pollIntervalRef w' = pollIntervalRef w /\
     messagePollIntervalRef w' = messagePollIntervalRef w /\
     timers w' = cancel (statusEffectInterval w) (timers w) /\
     tasks w' = tasks w /\ messages w' = messages w) /\
  (forall now w c,
     committed w = Some c -> cm_render c = render w ->
     let w' := commit cfg now w in
     wsRef w' = wsRef w /\ sockets w' = sockets w /\ timers w' = timers w /\
     connectionState w' = connectionState w /\ tasks w' = tasks w) /\
  (forall now w c,
     committed w = Some c -> r_isOpen (cm_render c) = false -> isOpen w = false ->
     cm_render c <> render w ->
     let w' := commit cfg now w in
     wsRef w' = None /\
     (forall ws s, wsRef w = Some ws -> readyState w' ws = Some s -> live s = false) /\
     connectionState w' = disconnected /\
     useHttpFallback w' = false /\ reconnectAttempt w' = 0 /\
     reconnectTimeoutRef w' = None /\
     pollIntervalRef w' = None /\ messagePollIntervalRef w' = None).
Proof.
  split; [|split].
  - intros now w c Hc Ho Hw w'. subst w'.
    rewrite (commit_after_close now w c Hc Ho Hw).
    unfold statusEffect_cleanup, cancel. destruct w. cbn.
    destruct statusEffectInterval0; cbn; repeat split.
  - intros now w c Hc Hr w'. subst w'.
    destruct (commit_same_render now w c Hc Hr) as [gd ->].
    unfold when, greetingEffect. repeat case_match; destruct w; cbn; repeat split.
  - intros now w c Hc Ho Hw Hne w'. subst w'.
    destruct (commit_closed_change now w c Hc Ho Hw Hne) as [sd ->].
    set (d := disconnect w).
    assert (Hd : link (upd_committed
                   (fun _ => Some {| cm_render := render w;
                                     cm_messages_length := length (messages w) |})
                   (when sd statusEffect_cleanup d)) = link d).
    { unfold when. destruct sd; [|by destruct d].
      rewrite <- (link_statusEffect_cleanup d). by destruct (statusEffect_cleanup d). }
    unfold link in Hd. injection Hd as Hd1 Hd2.
    split; [by rewrite Hd1; subst d; rewrite disconnect_eq|]. split.
    { intros ws s Href Hs. unfold readyState in Hs. rewrite Hd2 in Hs.
      destruct (disconnect_sockets w) as [_ Hsk]. subst d. rewrite Hsk, Href in Hs.
      destruct (sockets (ws_close ws w) !! ws) as [k|] eqn:Hk; [|done].
      cbn in Hs. simplify_eq.
      destruct (live (ws_readyState k)) eqn:Hl; [|done].
      by destruct (ws_close_not_live ws w ws k Hk Hl). }
    subst d. rewrite disconnect_eq. unfold when, statusEffect_cleanup.
    destruct sd; cbn; repeat case_match; cbn; repeat split.
Qed.

(** *** The state a fresh socket shows *)


(** *** The URL of the socket *)

Lemma prefix_nil s : String.prefix "" s = true.
Proof. by destruct s. Qed.

Lemma prefix_refl_app s t : String.prefix s (String.append s t) = true.
Proof.
  induction s as [|a s IH]; [apply prefix_nil|]. cbn.
  by destruct (ascii_dec a a).
Qed.

Lemma substring_all s : String.substring 0 (String.length s) s = s.
Proof. induction s as [|a s IH]; [done|]. cbn. by rewrite IH. Qed.

Lemma startsWith_ws_inv s :
  startsWith "ws://" s = true ->
  s = String.append "ws://" (String.substring 5 (String.length s - 5) s).
Proof.
  unfold startsWith. intros H.
  do 5 (destruct s as [|? s]; [done|]; cbn [String.prefix] in H;
        match type of H with
        | (match ascii_dec ?a ?b with _ => _ end) = true =>
            destruct (ascii_dec a b); [subst|done]
        end).
  cbn. by rewrite Nat.sub_0_r, substring_all.
Qed.

Lemma not_ws_app s c t :
  startsWith "ws://" s = false ->
  c <> "w"%char -> c <> "s"%char -> c <> ":"%char -> c <> "/"%char ->
  startsWith "ws://" (String.append s (String c t)) = false.
Proof.
  unfold startsWith. intros H Hw Hs Hc Hsl.
  do 5 (destruct s as [|? s];
        [cbn [String.prefix String.append]; match goal with
              | |- (match ascii_dec ?a ?b with _ => _ end) = false =>
                  destruct (ascii_dec a b); [congruence|done]
              end|];
        cbn [String.prefix String.append] in H |- *;
        match goal with
        | |- (match ascii_dec ?a ?b with _ => _ end) = false =>
            destruct (ascii_dec a b); [subst|done]
        end).
  by rewrite prefix_nil in H.
Qed.

Lemma includes_char_app c s t :
  includes (String c "") s = true ->
  includes (String c "") (String.append s t) = true.
Proof.
  unfold includes. induction s as [|a s IH]; intros H; [done|].
  cbn in *. destruct (ascii_dec c a); [by rewrite prefix_nil|].
  destruct (String.index 0 (String c "") s); [|done].
  specialize (IH eq_refl).
  by destruct (String.index 0 (String c "") (String.append s t)).
Qed.

Lemma includes_char_app_r c s t :
  includes (String c "") (String c t) = true /\
  includes (String c "") (String.append s (String c t)) = true.
Proof.
  assert (H : includes (String c "") (String c t) = true).
  { unfold includes. cbn. destruct (ascii_dec c c); [by rewrite prefix_nil|done]. }
  split; [done|].
  unfold includes in *. induction s as [|a s IH]; [done|].
  cbn. destruct (ascii_dec c a); [by rewrite prefix_nil|].
  by destruct (String.index 0 (String c "") (String.append s (String c t))).
Qed.

(** X9. The URL handed to the [WebSocket] constructor is the configured
    endpoint, with a leading ws:// turned into wss:// on an https page and
    the rest kept, followed by the session parameter, which is introduced
    by "&" when the endpoint already has a query and by "?" otherwise.  So
    the URL always carries a query, and on an https page it never starts
    with ws://. *)
Theorem socket_url_shape :
  (exists base,
     (base = GATEWAY_WS_URL cfg \/
      page_is_https cfg = true /\
      exists rest, GATEWAY_WS_URL cfg = String.append "ws://" rest /\
                   base = String.append "wss://" rest) /\
     fullWsUrl cfg =
       String.append base
         (String.append (if includes "?" base then "&" else "?")
            "session=agent:serayah:main")) /\
  includes "?" (fullWsUrl cfg) = true /\
  (page_is_https cfg = true -> startsWith "ws://" (fullWsUrl cfg) = false) /\
  (page_is_https cfg = false ->
   startsWith (GATEWAY_WS_URL cfg) (fullWsUrl cfg) = true).
Proof.
  unfold fullWsUrl. cbv zeta.
  set (url := GATEWAY_WS_URL cfg).
  set (base := if page_is_https cfg && startsWith "ws://" url
               then replace_prefix "ws://" "wss://" url else url).
  assert (Hfull : (if includes "?" base
                   then String.append base "&session=agent:serayah:main"
                   else String.append base "?session=agent:serayah:main") =
                  String.append base
                    (String.append (if includes "?" base then "&" else "?")
                       "session=agent:serayah:main"))
    by (by destruct (includes "?" base)).
  split; [|split; [|split]].
  - exists base. split; [|exact Hfull].
    subst base. destruct (page_is_https cfg); [|by left].
    destruct (startsWith "ws://" url) eqn:Hws; [|by left].
    right. split; [done|]. eexists. split; [by apply startsWith_ws_inv|done].
  - destruct (includes "?" base) eqn:Hq.
    + by apply includes_char_app.
    + apply (includes_char_app_r "?" base "session=agent:serayah:main").
  - intros Hs. subst base. rewrite Hs. cbn [andb].
    destruct (startsWith "ws://" url) eqn:Hws.
    + unfold replace_prefix.
      match goal with
      | |- context [String.substring ?a ?b ?c] =>
          generalize (String.substring a b c)
      end.
      intros x. by destruct (includes "?" (String.append "wss://" x)).
    + destruct (includes "?" url); by apply not_ws_app.
  - intros Hs. subst base. rewrite Hs. cbn [andb].
    destruct (includes "?" url); apply prefix_refl_app.
Qed.


(** *** Proving an invariant handler by handler *)

Lemma commit_preserves (P : World -> Prop) :
  (forall w, P w -> P (disconnect w)) ->
  (forall w, P w -> P (statusEffect_cleanup w)) ->
  (forall r w, P w -> P (connectEffect cfg r w)) ->
  (forall r w, P w -> P (statusEffect r w)) ->
  (forall r n now w, P w -> P (greetingEffect r n now w)) ->
  (forall f w, P w -> P (upd_committed f w)) ->
  forall now w, P w -> P (commit cfg now w).
Proof.
  intros Hd Hsc Hce Hse Hg Hu now w Hw. unfold commit. cbv zeta.
  assert (Hwhen : forall (b : bool) (f : World -> World) x,
            (forall y, P y -> P (f y)) -> P x -> P (when b f x)).
  { intros b f x Hf Hx. destruct b; cbn; auto. }
  apply Hu. apply Hwhen; [apply Hg|]. apply Hwhen; [apply Hse|].
  apply Hwhen; [apply Hce|]. apply Hwhen; [apply Hsc|]. apply Hwhen; [|done].
  intros y Hy. destruct (committed w); [|done].
  unfold connectEffect_cleanup. case_match; [done|by apply Hd].
Qed.

Lemma dispatch_preserves (P : World -> Prop) :
  (forall b w, P w -> P (setIsOpen b w)) ->
  (forall s w, P w -> P (setInput s w)) ->
  (forall r inp now w, P w -> P (sendMessage cfg r inp now w)) ->
  (forall r w, P w -> P (forceReconnect r w)) ->
  (forall now w, P w -> P (commit cfg now w)) ->
  (forall ws w, readyState w ws = Some CONNECTING -> P w ->
                P (onopen ws (upd_sockets (alter (set_readyState OPEN) ws) w))) ->
  (forall w w', control w' = control w -> P w -> P w') ->
  (forall ws w, P w -> P (onerror ws w)) ->
  (forall ws r w, P w ->
                  P (onclose r (upd_sockets (alter (set_readyState CLOSED) ws) w))) ->
  (forall h w, P w -> P (clearTimer h w)) ->
  (forall cb w, P w -> P (run_callback cfg cb w)) ->
  (forall i w, P w -> P (settle i w)) ->
  (forall r healthy w, P w -> P (startHttpFallback_resume cfg r healthy w)) ->
  forall e w w', dispatch cfg e w = Some w' -> P w -> P w'.
Proof.
  intros Ho Hi Hs Hf Hc Hop Hctl Herr Hcl Hct Hcb Hst Hfb e w w' Hd Hw.
  destruct e as [| |s|now| |now|ws|ws raw now|ws|ws|h|i reply|i reply|i reply|i reply now];
    unfold dispatch in Hd; repeat case_match; simplify_eq; auto;
    first [ apply (Hctl w); [apply control_onmessage|done]
          | apply (Hctl (settle i w));
            [ first [ apply control_fetchSerayahStatus_resume
                    | apply control_pollMessages_resume
                    | apply control_sendMessage_resume ]
            | auto ] ].
Qed.

(** *** Poll-mode *)

Ltac intro_binders :=
  repeat lazymatch goal with
         | |- ?A -> ?B => fail
         | |- forall _, _ => intro
         end.

Ltac flagged_tac :=
  unfold poll_mode_has_flag; intro_binders; open_world; unfold_calls; split_tests;
  cbn in *; try done; intros; try congruence; auto.

Lemma connectionState_onopen ws w : connectionState (onopen ws w) = connected.
Proof. by_cases. Qed.

Lemma poll_mode_has_flag_connect r w :
  poll_mode_has_flag w -> poll_mode_has_flag (connect cfg r w).
Proof.
  unfold connect. destruct (string_is_empty (GATEWAY_WS_URL cfg)); [flagged_tac|].
  destruct (wsRef_is OPEN w || wsRef_is CONNECTING w); [done|].
  intros _. cbv zeta. generalize (stopHttpFallback w). flagged_tac.
Qed.

Lemma poll_mode_has_flag_disconnect w :
  poll_mode_has_flag w -> poll_mode_has_flag (disconnect w).
Proof. intros _. rewrite disconnect_eq. by intros H. Qed.

Lemma poll_mode_has_flag_sendMessage r inp now w :
  poll_mode_has_flag w -> poll_mode_has_flag (sendMessage cfg r inp now w).
Proof.
  intros H. unfold sendMessage. repeat case_match; try done;
    try apply poll_mode_has_flag_connect; revert H; flagged_tac.
Qed.

Lemma poll_mode_has_flag_dispatch e w w' :
  dispatch cfg e w = Some w' -> poll_mode_has_flag w -> poll_mode_has_flag w'.
Proof.
  apply dispatch_preserves.
  - flagged_tac.
  - flagged_tac.
  - apply poll_mode_has_flag_sendMessage.
  - intros r x _. unfold forceReconnect. rewrite disconnect_eq. by intros H.
  - apply commit_preserves.
    + apply poll_mode_has_flag_disconnect.
    + unfold statusEffect_cleanup. flagged_tac.
    + intros r x H. unfold connectEffect. repeat case_match; try done;
        try apply poll_mode_has_flag_connect; revert H; flagged_tac.
    + unfold statusEffect. flagged_tac.
    + unfold greetingEffect. flagged_tac.
    + flagged_tac.
  - intros ws x _ _ Hy. by rewrite connectionState_onopen in Hy.
  - intros x x' E. unfold poll_mode_has_flag.
    destruct (control_fields x x' E) as (_ & _ & -> & _ & -> & _). done.
  - unfold onerror, ws_close, readyState. flagged_tac.
  - intros ws r x _ Hy. by rewrite connectionState_onclose in Hy.
  - flagged_tac.
  - intros cb x H. destruct cb; cbn; repeat case_match; try done;
      try (by apply poll_mode_has_flag_connect); revert H; flagged_tac.
  - flagged_tac.
  - flagged_tac.
Qed.

(** X17. In every state the component reaches, poll-mode is shown only
    while the fallback flag is set.  So a message sent in poll-mode is
    never parked in the pending slot: it goes out on the socket of
    [wsRef] when that one is open, and is POSTed otherwise; no socket is
    created and no connecting notice is rendered. *)
Theorem poll_mode_sends_at_once (w : World) (now : Z) :
  reachable cfg w ->
  connectionState w = poll_mode ->
  nonempty (trim (input w)) = true ->
  useHttpFallback w = true /\
  exists w',
    dispatch cfg (Send now) w = Some w' /\
    messages w' = messages w ++ [userMessage (trim (input w)) now] /\
    pendingMessageRef w' = pendingMessageRef w /\
    sockets w' = sockets w /\
    ((exists ws, wsRef w = Some ws /\ readyState w ws = Some OPEN /\
                 wire w' = wire w ++ [(ws, MessageFrame (trim (input w)))] /\
                 posts w' = posts w) \/
     (wsRef_is OPEN w = false /\ wire w' = wire w /\
      posts w' = posts w ++ [trim (input w)])).
Proof.
  intros Hreach Hpm Hne.
  assert (Hinv : forall x, reachable cfg x -> poll_mode_has_flag x).
  { apply reachable_ind.
    - by intros H.
    - intros e x x' Hd Hx. by eapply poll_mode_has_flag_dispatch. }
  assert (Hflag : useHttpFallback w = true) by (by apply Hinv).
  split; [done|]. eexists. split; [reflexivity|].
  unfold nonempty in Hne. apply negb_true_iff in Hne.
  unfold sendMessage. rewrite Hne.
  rewrite (wsRef_is_eq OPEN w) by (by destruct w).
  destruct (wsRef_is OPEN w) eqn:Hopen.
  - unfold wsRef_is, wsRef_readyState in Hopen. apply bool_decide_eq_true in Hopen.
    destruct (wsRef w) as [ws|] eqn:Href; [|done].
    replace (wsRef (setInput "" (append (userMessage (trim (input w)) now) w)))
      with (Some ws) by (rewrite <- Href; by destruct w).
    unfold ws_send.
    replace (readyState (setInput "" (append (userMessage (trim (input w)) now) w)) ws)
      with (Some OPEN) by (rewrite <- Hopen; by destruct w).
    split; [by destruct w|]. split; [by destruct w|]. split; [by destruct w|].
    left. exists ws. split; [done|]. split; [done|]. unfold posts. by destruct w.
  - cbn [render r_useHttpFallback]. rewrite Hflag.
    split; [by destruct w|]. split; [by destruct w|]. split; [by destruct w|].
    right. split; [done|]. split; [by destruct w|].
    rewrite posts_app_task. f_equal. by destruct w.
Qed.


(** *** The handshake *)

Lemma frames_on_app ws l1 l2 :
  frames_on ws (l1 ++ l2) = frames_on ws l1 ++ frames_on ws l2.
Proof. unfold frames_on. by rewrite List.filter_app, map_app. Qed.

Lemma frames_on_single ws i f :
  frames_on ws [(i, f)] = if Nat.eqb i ws then [f] else [].
Proof. unfold frames_on. cbn. by destruct (Nat.eqb i ws). Qed.

Lemma protocol_ok_new_socket wi sk s :
  ws_readyState s = CONNECTING -> protocol_ok wi sk -> protocol_ok wi (sk ++ [s]).
Proof.
  intros Hs H ws. destruct (H ws) as (H1 & H2 & H3). split; [done|].
  destruct (decide (ws < length sk)) as [Hlt|Hge].
  - by rewrite lookup_app_l.
  - assert (Hnone : sk !! ws = None) by (apply lookup_ge_None; lia).
    rewrite Hnone in H3. specialize (H3 eq_refl). split; [|done].
    intros Ho. exfalso. rewrite lookup_app_r in Ho by lia.
    destruct (ws - length sk) as [|k]; cbn in Ho; [congruence|done].
Qed.

Lemma protocol_ok_closing wi sk i s' :
  s' <> OPEN -> s' <> CONNECTING ->
  protocol_ok wi sk -> protocol_ok wi (alter (set_readyState s') i sk).
Proof.
  intros Hno Hnc H ws. destruct (H ws) as (H1 & H2 & H3). split; [done|].
  rewrite list_lookup_alter. destruct (decide (i = ws)) as [->|Hne]; [|done].
  destruct (sk !! ws) as [k|]; cbn in *; [|done].
  split; [congruence|]. by destruct s'.
Qed.

Lemma protocol_ok_open wi sk i pending :
  ws_readyState <$> sk !! i = Some CONNECTING ->
  protocol_ok wi sk ->
  protocol_ok (wi ++ (i, ConnectFrame) ::
                 match pending with
                 | Some c => [(i, MessageFrame c)]
                 | None => []
                 end)
    (alter (set_readyState OPEN) i sk).
Proof.
  intros Hi H ws. destruct (H ws) as (H1 & H2 & H3).
  rewrite frames_on_app, list_lookup_alter.
  destruct (decide (i = ws)) as [->|Hne].
  - rewrite Hi in H3. rewrite (H3 eq_refl). cbn [app].
    destruct (sk !! ws) as [k|]; [|done]. cbn.
    unfold frames_on. cbn. rewrite Nat.eqb_refl.
    destruct pending; cbn; rewrite ?Nat.eqb_refl; cbn; done.
  - assert (E : frames_on ws ((i, ConnectFrame) ::
                   match pending with
                   | Some c => [(i, MessageFrame c)]
                   | None => []
                   end) = []).
    { unfold frames_on. cbn. apply Nat.eqb_neq in Hne. rewrite Hne.
      destruct pending; cbn; by rewrite ?Hne. }
    rewrite E, app_nil_r. done.
Qed.

Lemma handshake_first_snoc l c :
  l <> [] -> handshake_first l = true ->
  handshake_first (l ++ [MessageFrame c]) = true.
Proof.
  destruct l as [|f rest]; [done|]. intros _ H. cbn in *.
  apply andb_prop in H as [-> H]. cbn. rewrite forallb_app, H. done.
Qed.

Lemma protocol_ok_message wi sk i c :
  ws_readyState <$> sk !! i = Some OPEN ->
  protocol_ok wi sk -> protocol_ok (wi ++ [(i, MessageFrame c)]) sk.
Proof.
  intros Hi H ws. destruct (H ws) as (H1 & H2 & H3).
  rewrite frames_on_app, frames_on_single.
  destruct (Nat.eqb_spec i ws) as [->|Hne]; [|by rewrite app_nil_r].
  specialize (H2 Hi). split; [by apply handshake_first_snoc|].
  split; [by destruct (frames_on ws wi)|]. by rewrite Hi.
Qed.

Lemma handshake_invariant_channel w w' :
  channel w' = channel w -> handshake_invariant w -> handshake_invariant w'.
Proof. unfold channel, handshake_invariant. by intros [= -> ->]. Qed.

Lemma channel_control w w' : control w' = control w -> channel w' = channel w.
Proof.
  intros E. unfold channel.
  destruct (control_fields w w' E) as (_&_&_&_&_&_&_&_&_&_& -> & -> &_). done.
Qed.

Lemma handshake_invariant_ws_close ws w :
  handshake_invariant w -> handshake_invariant (ws_close ws w).
Proof.
  intros H. unfold ws_close. repeat case_match; try done;
    unfold handshake_invariant in *; destruct w; cbn in *;
    by apply protocol_ok_closing.
Qed.

Lemma handshake_invariant_connect r w :
  handshake_invariant w -> handshake_invariant (connect cfg r w).
Proof.
  intros H. unfold handshake_invariant.
  destruct (connect_keeps_outbox r w) as (_ & -> & _).
  destruct (connect_sockets_guard r w) as [[_ ->]|(_ & -> & _)]; [done|].
  by apply protocol_ok_new_socket.
Qed.

Lemma handshake_invariant_disconnect w :
  handshake_invariant w -> handshake_invariant (disconnect w).
Proof.
  intros H. unfold handshake_invariant. rewrite disconnect_eq. cbn.
  destruct (wsRef w) as [ws|]; [|done].
  replace (wire w) with (wire (ws_close ws w)) by by_cases.
  by apply handshake_invariant_ws_close.
Qed.

Lemma handshake_invariant_sendMessage r inp now w :
  handshake_invariant w -> handshake_invariant (sendMessage cfg r inp now w).
Proof.
  intros H. unfold sendMessage.
  destruct (string_is_empty (trim inp)); [done|]. cbv zeta.
  set (w1 := setInput "" (append (userMessage (trim inp) now) w)).
  assert (H1 : handshake_invariant w1)
    by (revert H; apply handshake_invariant_channel; by destruct w).
  clearbody w1. clear H.
  destruct (wsRef_is OPEN w1) eqn:Hopen.
  - unfold wsRef_is, wsRef_readyState in Hopen. apply bool_decide_eq_true in Hopen.
    destruct (wsRef w1) as [ws|]; [|done].
    unfold ws_send. rewrite Hopen. unfold handshake_invariant in *.
    destruct w1. cbn in *. by apply protocol_ok_message.
  - destruct (r_useHttpFallback r).
    + revert H1. apply handshake_invariant_channel. by destruct w1.
    + apply handshake_invariant_connect.
      revert H1. apply handshake_invariant_channel. by destruct w1.
Qed.

Lemma wire_onopen ws w :
  readyState w ws = Some OPEN ->
  channel (onopen ws w) =
    (wire w ++ (ws, ConnectFrame) ::
       match (match pendingMessageRef w with
              | Some c => if string_is_empty c then None else Some c
              | None => None
              end) with
       | Some c => [(ws, MessageFrame c)]
       | None => []
       end,
     sockets w).
Proof.
  intros Hopen. unfold onopen, ws_send, channel. destruct w. unfold_calls.
  unfold readyState in *. cbn in *. rewrite Hopen. cbn.
  destruct pendingMessageRef0 as [c|]; cbn; [|done].
  destruct (string_is_empty c); cbn; [done|]. rewrite Hopen. cbn.
  by rewrite <- app_assoc.
Qed.

Lemma handshake_invariant_dispatch e w w' :
  dispatch cfg e w = Some w' -> handshake_invariant w -> handshake_invariant w'.
Proof.
  apply dispatch_preserves.
  - intros b x. apply handshake_invariant_channel. by destruct x.
  - intros s x. apply handshake_invariant_channel. by destruct x.
  - apply handshake_invariant_sendMessage.
  - intros r x H. apply handshake_invariant_disconnect in H.
    revert H. unfold forceReconnect. generalize (disconnect x). intros d.
    apply handshake_invariant_channel. by destruct d.
  - apply commit_preserves.
    + apply handshake_invariant_disconnect.
    + intros x. apply handshake_invariant_channel. unfold statusEffect_cleanup. by_cases.
    + intros r x H. unfold connectEffect. repeat case_match; try done.
      * apply handshake_invariant_connect. revert H.
        apply handshake_invariant_channel. by_cases.
      * revert H. apply handshake_invariant_channel. by_cases.
    + intros r x. apply handshake_invariant_channel. unfold statusEffect. by_cases.
    + intros r n now x. apply handshake_invariant_channel. unfold greetingEffect. by_cases.
    + intros f x. apply handshake_invariant_channel. by destruct x.
  - intros ws x Hc H. unfold handshake_invariant.
    assert (Hopen : readyState (upd_sockets (alter (set_readyState OPEN) ws) x) ws
                    = Some OPEN).
    { unfold readyState in *. destruct x. cbn in *.
      rewrite list_lookup_alter_eq. by destruct (sockets0 !! ws). }
    pose proof (wire_onopen ws _ Hopen) as E. unfold channel in E.
    injection E as -> ->.
    replace (wire (upd_sockets (alter (set_readyState OPEN) ws) x)) with (wire x)
      by (by destruct x).
    replace (sockets (upd_sockets (alter (set_readyState OPEN) ws) x))
      with (alter (set_readyState OPEN) ws (sockets x)) by (by destruct x).
    replace (pendingMessageRef (upd_sockets (alter (set_readyState OPEN) ws) x))
      with (pendingMessageRef x) by (by destruct x).
    by apply protocol_ok_open.
  - intros x x' E. apply handshake_invariant_channel. by apply channel_control.
  - intros ws x H. unfold onerror. apply handshake_invariant_ws_close.
    revert H. apply handshake_invariant_channel. by destruct x.
  - intros ws r x H.
    apply (handshake_invariant_channel (upd_sockets (alter (set_readyState CLOSED) ws) x)).
    { generalize (upd_sockets (alter (set_readyState CLOSED) ws) x). intros y.
      unfold channel, onclose. by_cases. }
    unfold handshake_invariant in *. destruct x. cbn in *.
    by apply protocol_ok_closing.
  - intros h x. apply handshake_invariant_channel. by destruct x.
  - intros cb x H. destruct cb; cbn; repeat case_match; try done;
      try (by apply handshake_invariant_connect);
      revert H; apply handshake_invariant_channel; by_cases.
  - intros i x. apply handshake_invariant_channel. by destruct x.
  - intros r healthy x. apply handshake_invariant_channel.
    unfold channel. by_cases.
Qed.

(** X18. The connect handshake comes first on every socket.  In every
    state the component reaches, what was sent on a socket is nothing, or
    one connect frame followed by message frames only; an open socket has
    carried its handshake, and nothing was ever sent on a socket that has
    not opened. *)
Theorem handshake_comes_first (w : World) (ws : nat) :
  reachable cfg w ->
  handshake_first (frames_on ws (wire w)) = true /\
  (readyState w ws = Some OPEN -> head (frames_on ws (wire w)) = Some ConnectFrame) /\
  (unopened (readyState w ws) = true -> frames_on ws (wire w) = []).
Proof.
  intros Hreach.
  assert (H : handshake_invariant w).
  { revert w Hreach. apply reachable_ind.
    - intros i. repeat split; try done.
    - intros e w w' Hd Hw. by eapply handshake_invariant_dispatch. }
  destruct (H ws) as (H1 & H2 & H3). split; [done|]. split; [|done].
  intros Ho. specialize (H2 Ho).
  destruct (frames_on ws (wire w)) as [|f rest]; [done|].
  cbn in H1. apply andb_prop in H1 as [Hf _]. by destruct f.
Qed.


(** *** The state connected, the flag and the counter *)

Ltac settled_tac :=
  unfold connected_settled; intro_binders; open_world; unfold_calls; split_tests;
  cbn in *; try done; intros; try congruence; auto.

Lemma connected_settled_connect r w :
  connected_settled w -> connected_settled (connect cfg r w).
Proof.
  unfold connect. destruct (string_is_empty (GATEWAY_WS_URL cfg)); [settled_tac|].
  destruct (wsRef_is OPEN w || wsRef_is CONNECTING w); [done|].
  intros _. cbv zeta. generalize (stopHttpFallback w). settled_tac.
Qed.

Lemma connected_settled_dispatch e w w' :
  dispatch cfg e w = Some w' -> connected_settled w -> connected_settled w'.
Proof.
  apply dispatch_preserves.
  - settled_tac.
  - settled_tac.
  - intros r inp now x H. unfold sendMessage. repeat case_match; try done;
      try apply connected_settled_connect; revert H; settled_tac.
  - intros r x _. unfold forceReconnect. rewrite disconnect_eq. by intros H.
  - apply commit_preserves.
    + intros x _. rewrite disconnect_eq. by intros H.
    + unfold statusEffect_cleanup. settled_tac.
    + intros r x H. unfold connectEffect. repeat case_match; try done;
        try apply connected_settled_connect; revert H; settled_tac.
    + unfold statusEffect. settled_tac.
    + unfold greetingEffect. settled_tac.
    + settled_tac.
  - intros ws x _ _ _. generalize (upd_sockets (alter (set_readyState OPEN) ws) x).
    intros y. split; by_cases.
  - intros x x' E. unfold connected_settled.
    destruct (control_fields x x' E) as (_ & _ & -> & -> & -> & _). done.
  - unfold onerror, ws_close, readyState. settled_tac.
  - intros ws r x _ Hy. by rewrite connectionState_onclose in Hy.
  - settled_tac.
  - intros cb x H. destruct cb; cbn; repeat case_match; try done;
      try (by apply connected_settled_connect); revert H; settled_tac.
  - settled_tac.
  - settled_tac.
Qed.

(** *** The closures of the retry timers *)

Lemma retry_closure_open_deactivate t :
  retry_closure_open t -> retry_closure_open (deactivate t).
Proof. done. Qed.

Lemma retries_cancel h l :
  Forall retry_closure_open l -> Forall retry_closure_open (cancel h l).
Proof.
  intros H. destruct h as [h|]; [|done]. cbn.
  apply Forall_alter; [done|]. intros t _. apply retry_closure_open_deactivate.
Qed.

Lemma retries_closed_over_open_timers w w' :
  timers w' = timers w -> retries_closed_over_open w -> retries_closed_over_open w'.
Proof. unfold retries_closed_over_open. by intros ->. Qed.

Ltac retries_tac :=
  unfold retries_closed_over_open; intro_binders; open_world; unfold_calls;
  split_tests; cbn in *; try done; intros;
  repeat first [ apply Forall_app; split
               | apply Forall_alter; [|intros ? _; apply retry_closure_open_deactivate]
               | apply Forall_cons; split
               | apply Forall_nil ];
  try done.

Lemma retries_connect r w :
  retries_closed_over_open w -> retries_closed_over_open (connect cfg r w).
Proof.
  unfold connect. destruct (string_is_empty (GATEWAY_WS_URL cfg)); [retries_tac|].
  destruct (wsRef_is OPEN w || wsRef_is CONNECTING w); [done|].
  intros H. cbv zeta.
  assert (H' : retries_closed_over_open (stopHttpFallback w)).
  { unfold retries_closed_over_open. rewrite stopHttpFallback_eq. cbn.
    by apply retries_cancel, retries_cancel. }
  revert H'. generalize (stopHttpFallback w). clear H. retries_tac.
Qed.

Lemma retries_disconnect w :
  retries_closed_over_open w -> retries_closed_over_open (disconnect w).
Proof.
  intros H. unfold retries_closed_over_open. rewrite disconnect_eq. cbn.
  by apply retries_cancel, retries_cancel, retries_cancel.
Qed.

Lemma retries_onclose r w :
  retries_closed_over_open w -> retries_closed_over_open (onclose r w).
Proof.
  unfold onclose. cbv zeta. destruct (r_isOpen r) eqn:Ho; [|retries_tac].
  destruct (r_reconnectAttempt r <? MAX_WS_RECONNECT_ATTEMPTS)%nat; retries_tac.
Qed.

Lemma retries_dispatch e w w' :
  dispatch cfg e w = Some w' ->
  retries_closed_over_open w -> retries_closed_over_open w'.
Proof.
  apply dispatch_preserves.
  - retries_tac.
  - retries_tac.
  - intros r inp now x H. unfold sendMessage. repeat case_match; try done;
      try apply retries_connect; revert H; retries_tac.
  - intros r x H. apply retries_disconnect in H. revert H.
    unfold forceReconnect. generalize (disconnect x). retries_tac.
  - apply commit_preserves.
    + apply retries_disconnect.
    + unfold statusEffect_cleanup. retries_tac.
    + intros r x H. unfold connectEffect. repeat case_match; try done;
        try apply retries_connect; revert H; retries_tac.
    + unfold statusEffect. retries_tac.
    + unfold greetingEffect. retries_tac.
    + retries_tac.
  - intros ws x _. apply (retries_closed_over_open_timers x).
    transitivity (timers (upd_sockets (alter (set_readyState OPEN) ws) x));
      [|by destruct x].
    generalize (upd_sockets (alter (set_readyState OPEN) ws) x). by_cases.
  - intros x x' E. apply (retries_closed_over_open_timers x x').
    by destruct (control_fields x x' E) as (_&_&_&_&_&_&_&_&_&_&_&_& -> &_).
  - unfold onerror, ws_close, readyState. retries_tac.
  - intros ws r x H. apply retries_onclose. revert H.
    apply (retries_closed_over_open_timers x). by destruct x.
  - retries_tac.
  - intros cb x H. destruct cb; cbn; repeat case_match; try done;
      try (by apply retries_connect); revert H; retries_tac.
  - retries_tac.
  - intros r healthy x. destruct healthy; [|done]. intros H.
    unfold retries_closed_over_open.
    rewrite timers_startHttpFallback_resume_eq.
    repeat (apply Forall_app; split); try (by repeat constructor).
    by apply retries_cancel, retries_cancel.
Qed.

(** X19. In every state the component reaches, while connected is shown
    the fallback flag is off and the attempt counter is 0.  So a message
    sent while connected is shown but the socket is no longer open (it is
    closing after an error, the closure not yet delivered) is not POSTed:
    it is parked in the pending slot behind a connecting notice, and
    nothing goes out on the wire. *)
Theorem connected_send_while_closing (w : World) (now : Z) :
  reachable cfg w ->
  connectionState w = connected ->
  useHttpFallback w = false /\ reconnectAttempt w = 0 /\
  (nonempty (trim (input w)) = true -> wsRef_is OPEN w = false ->
   wsRef_is CLOSING w = true /\
   exists w',
     dispatch cfg (Send now) w = Some w' /\
     pendingMessageRef w' = Some (trim (input w)) /\
     messages w' =
       messages w ++ [userMessage (trim (input w)) now; connectingNotice now] /\
     wire w' = wire w /\ posts w' = posts w).
Proof.
  intros Hreach Hc.
  assert (Hinv : forall x, reachable cfg x ->
            connected_settled x /\ one_live_socket x /\ connected_has_socket x).
  { apply reachable_ind.
    - split; [by intros H|]. split; [by intros i s Hi|by intros H].
    - intros e x x' Hd (H1 & H2 & H3). split; [by eapply connected_settled_dispatch|].
      split; [by eapply one_live_socket_dispatch|].
      by eapply connected_has_socket_dispatch. }
  destruct (Hinv w Hreach) as (H1 & _ & H3). destruct (H1 Hc) as [Hf Ha].
  split; [done|]. split; [done|]. intros Hne Hopen.
  specialize (H3 Hc). rewrite Hopen in H3. cbn in H3. split; [done|].
  eexists. split; [reflexivity|].
  destruct (sendMessage_pending_outbox (render w) (input w) now w Hne Hopen Hf)
    as (Hp & Hw & Hpo & _).
  split; [done|]. split; [|done].
  rewrite (sendMessage_pending (render w) (input w) now w Hne Hopen Hf).
  rewrite messages_connect. destruct w. cbn. by rewrite <- app_assoc.
Qed.

(** X20. Every retry timer was scheduled by a close handler that closed
    over an open chat, and the test of [isOpen] inside the timer reads that
    same closure.  So in every state the component reaches, a retry that
    is still scheduled calls [connect] when it fires, also when the chat
    has been closed in the meantime. *)
Theorem retry_fires_connect (w : World) (h : nat) (t : Timer) (r : Render) :
  reachable cfg w ->
  timers w !! h = Some t -> t_callback t = RetryConnect r ->
  r_isOpen r = true /\
  (t_active t = true ->
   dispatch cfg (TimerFires h) w = Some (connect cfg r (clearTimer h w))).
Proof.
  intros Hreach Hh Hcb.
  assert (Hall : forall y, reachable cfg y -> retries_closed_over_open y).
  { apply reachable_ind; [by constructor|].
    intros e y y' Hd Hy. by eapply retries_dispatch. }
  pose proof (Hall w Hreach) as Hinv. unfold retries_closed_over_open in Hinv.
  rewrite Forall_lookup in Hinv. specialize (Hinv h t Hh).
  unfold retry_closure_open in Hinv. rewrite Hcb in Hinv. destruct Hinv as [Ho Hk].
  split; [done|]. intros Ha. unfold dispatch. rewrite Hh, Ha, Hk, Hcb. cbn.
  by rewrite Ho.
Qed.

(** *** Opening the chat *)

Lemma connect_leaves_live r w :
  string_is_empty (GATEWAY_WS_URL cfg) = false ->
  WebSocket_throws cfg (fullWsUrl cfg) = false ->
  wsRef_is OPEN (connect cfg r w) || wsRef_is CONNECTING (connect cfg r w) = true.
Proof.
  intros Hurl Hthrow.
  destruct (wsRef_is OPEN w || wsRef_is CONNECTING w) eqn:Hg.
  - by rewrite (connect_guard r w Hurl Hg).
  - rewrite (wsRef_is_connecting_fresh r w Hurl Hthrow Hg). apply orb_true_r.
Qed.

Lemma tasks_connect r w :
  string_is_empty (GATEWAY_WS_URL cfg) = false ->
  WebSocket_throws cfg (fullWsUrl cfg) = false ->
  tasks (connect cfg r w) = tasks w.
Proof.
  intros Hurl Hthrow. unfold connect. rewrite Hurl, Hthrow.
  destruct (wsRef_is OPEN w || wsRef_is CONNECTING w); [done|].
  cbv zeta. rewrite stopHttpFallback_eq. by_cases.
Qed.

Lemma commit_deps_changed now w :
  cm_render <$> committed w <> Some (render w) ->
  exists sd gd x1,
    (x1 = w \/ x1 = disconnect w) /\
    commit cfg now w =
      upd_committed
        (fun _ => Some {| cm_render := render w;
                          cm_messages_length := length (messages w) |})
        (when gd (greetingEffect (render w) (length (messages w)) now)
           (when sd (statusEffect (render w))
              (connectEffect cfg (render w) (when sd statusEffect_cleanup x1)))).
Proof.
  intros Hdeps. unfold commit. cbv zeta.
  rewrite (bool_decide_eq_true_2 _ Hdeps). cbn [when].
  eexists _, _, _. split; [|reflexivity].
  destruct (committed w); [|by left]. unfold connectEffect_cleanup.
  case_match; [by left|by right].
Qed.

Lemma connectEffect_fires r w :
  r_isOpen r = true -> r_connectionState r = disconnected ->
  r_useHttpFallback r = false ->
  connectEffect cfg r w = connect cfg r (fetchSerayahStatus cfg w).
Proof.
  intros Ho Hc Hf. unfold connectEffect. rewrite Ho, Hc, Hf. cbn [negb andb].
  by rewrite bool_decide_eq_true_2.
Qed.

Lemma effects_tail f gd sd r n now w :
  link (upd_committed f (when gd (greetingEffect r n now) (when sd (statusEffect r) w)))
    = link w /\
  tasks (upd_committed f (when gd (greetingEffect r n now) (when sd (statusEffect r) w)))
    = tasks w.
Proof. unfold when, statusEffect, greetingEffect, link. split; by_cases. Qed.

(** X21. Opening the chat connects.  At a commit with the chat open, the
    state disconnected and the fallback off, the dependencies of the
    connect effect having changed, the effect asks for the agents (when an
    API base URL is configured) and calls [connect]: with an endpoint
    configured that the constructor accepts, the socket of [wsRef] is
    connecting or open afterwards. *)
Theorem opening_the_chat_connects (now : Z) (w : World) :
  string_is_empty (GATEWAY_WS_URL cfg) = false ->
  WebSocket_throws cfg (fullWsUrl cfg) = false ->
  isOpen w = true -> connectionState w = disconnected -> useHttpFallback w = false ->
  cm_render <$> committed w <> Some (render w) ->
  let w' := commit cfg now w in
  wsRef_is OPEN w' || wsRef_is CONNECTING w' = true /\
  tasks w' =
    tasks w ++ (if string_is_empty (MC_API_URL cfg) then []
                else [{| task_kind := AwaitStatus; task_pending := true |}]).
Proof.
  intros Hurl Hthrow Ho Hc Hf Hdeps w'. subst w'.
  destruct (commit_deps_changed now w Hdeps) as (sd & gd & x1 & Hx1 & ->).
  rewrite connectEffect_fires by done.
  match goal with
  | |- context [connect cfg ?r ?y] => remember (connect cfg r y) as x3 eqn:Hx3
  end.
  destruct (effects_tail
              (fun _ => Some {| cm_render := render w;
                                cm_messages_length := length (messages w) |})
              gd sd (render w) (length (messages w)) now x3) as [E1 E2].
  unfold link in E1. injection E1 as E1 E1'.
  rewrite (wsRef_is_eq OPEN x3), (wsRef_is_eq CONNECTING x3) by done. rewrite E2.
  subst x3. split; [by apply connect_leaves_live|].
  rewrite tasks_connect by done.
  assert (H2 : tasks (when sd statusEffect_cleanup x1) = tasks w).
  { transitivity (tasks x1).
    - unfold when, statusEffect_cleanup. by_cases.
    - destruct Hx1 as [->| ->]; [done|by rewrite disconnect_eq]. }
  rewrite <- H2. unfold fetchSerayahStatus.
  destruct (string_is_empty (MC_API_URL cfg)); [by rewrite app_nil_r|].
  by destruct (when sd statusEffect_cleanup x1).
Qed.


(** *** Without an API base URL *)

(** As [dispatch_preserves], for an invariant that depends on the render a
    control uses and on the answer of the health probe. *)
Lemma dispatch_preserves_current (P : World -> Prop) :
  (forall b w, P w -> P (setIsOpen b w)) ->
  (forall s w, P w -> P (setInput s w)) ->
  (forall now w, P w -> P (sendMessage cfg (render w) (input w) now w)) ->
  (forall w, P w -> P (forceReconnect (render w) w)) ->
  (forall now w, P w -> P (commit cfg now w)) ->
  (forall ws w, readyState w ws = Some CONNECTING -> P w ->
                P (onopen ws (upd_sockets (alter (set_readyState OPEN) ws) w))) ->
  (forall w w', control w' = control w -> P w -> P w') ->
  (forall ws w, P w -> P (onerror ws w)) ->
  (forall ws r w, P w ->
                  P (onclose r (upd_sockets (alter (set_readyState CLOSED) ws) w))) ->
  (forall h w, P w -> P (clearTimer h w)) ->
  (forall cb w, P w -> P (run_callback cfg cb w)) ->
  (forall i w, P w -> P (settle i w)) ->
  (forall r reply w, P w ->
                     P (startHttpFallback_resume cfg r (checkHealth cfg reply) w)) ->
  forall e w w', dispatch cfg e w = Some w' -> P w -> P w'.
Proof.
  intros Ho Hi Hs Hf Hc Hop Hctl Herr Hcl Hct Hcb Hst Hfb e w w' Hd Hw.
  destruct e as [| |s|now| |now|ws|ws raw now|ws|ws|h|i reply|i reply|i reply|i reply now];
    unfold dispatch in Hd; repeat case_match; simplify_eq; auto;
    first [ apply (Hctl w); [apply control_onmessage|done]
          | apply (Hctl (settle i w));
            [ first [ apply control_fetchSerayahStatus_resume
                    | apply control_pollMessages_resume
                    | apply control_sendMessage_resume ]
            | auto ] ].
Qed.

Lemma posts_alter_settle i (l : list Task) :
  omap (fun t => match task_kind t with
                 | AwaitPost content => Some content
                 | _ => None
                 end) (alter settle_task i l) =
  omap (fun t => match task_kind t with
                 | AwaitPost content => Some content
                 | _ => None
                 end) l.
Proof.
  revert i. induction l as [|t l IH]; intros i; [done|].
  destruct i as [|i]; cbn; [done|]. by rewrite IH.
Qed.

Ltac never_tac :=
  unfold never_fell_back, posts; intro_binders; open_world; unfold_calls;
  split_tests; cbn in *; try done;
  let Hf := fresh "Hf" in
  let Hp := fresh "Hp" in
  intros [Hf Hp]; subst;
  rewrite ?omap_app, ?posts_alter_settle, ?Hp; cbn; rewrite ?app_nil_r;
  try done; try congruence; auto.

Section NoApi.

Hypothesis no_api : string_is_empty (MC_API_URL cfg) = true.

Lemma checkHealth_no_api reply : checkHealth cfg reply = false.
Proof. unfold checkHealth. by rewrite no_api. Qed.

Lemma never_fell_back_connect r w :
  never_fell_back w -> never_fell_back (connect cfg r w).
Proof.
  unfold connect. destruct (string_is_empty (GATEWAY_WS_URL cfg)); [never_tac|].
  destruct (wsRef_is OPEN w || wsRef_is CONNECTING w); [done|].
  intros H. cbv zeta.
  assert (H' : never_fell_back (stopHttpFallback w))
    by (rewrite stopHttpFallback_eq; destruct H; by split).
  revert H'. clear H. generalize (stopHttpFallback w). never_tac.
Qed.

Lemma never_fell_back_disconnect w :
  never_fell_back w -> never_fell_back (disconnect w).
Proof. intros [? ?]. rewrite disconnect_eq. by split. Qed.

Lemma never_fell_back_dispatch e w w' :
  dispatch cfg e w = Some w' -> never_fell_back w -> never_fell_back w'.
Proof.
  apply dispatch_preserves_current.
  - never_tac.
  - never_tac.
  - intros now x H. unfold sendMessage. cbn [render r_useHttpFallback].
    pose proof H as [Hf _]. rewrite Hf.
    repeat case_match; try done; try apply never_fell_back_connect;
      revert H; never_tac.
  - intros x H. apply never_fell_back_disconnect in H. revert H.
    unfold forceReconnect. generalize (disconnect x). never_tac.
  - apply commit_preserves.
    + apply never_fell_back_disconnect.
    + unfold statusEffect_cleanup. never_tac.
    + intros r x H. unfold connectEffect. repeat case_match; try done;
        try apply never_fell_back_connect; revert H; never_tac.
    + unfold statusEffect. never_tac.
    + unfold greetingEffect. never_tac.
    + never_tac.
  - intros ws x _ [Hf Hp]. split.
    + generalize (upd_sockets (alter (set_readyState OPEN) ws) x). by_cases.
    + unfold posts.
      replace (tasks (onopen ws (upd_sockets (alter (set_readyState OPEN) ws) x)))
        with (tasks x); [done|].
      transitivity (tasks (upd_sockets (alter (set_readyState OPEN) ws) x));
        [by destruct x|].
      generalize (upd_sockets (alter (set_readyState OPEN) ws) x). by_cases.
  - intros x x' E [Hf Hp]. unfold never_fell_back, posts.
    destruct (control_fields x x' E) as (_&_&_&_& -> &_&_&_&_&_&_&_&_& -> &_). done.
  - unfold onerror, ws_close, readyState. never_tac.
  - intros ws r x H.
    assert (Hy : never_fell_back (upd_sockets (alter (set_readyState CLOSED) ws) x))
      by (revert H; never_tac).
    revert Hy. generalize (upd_sockets (alter (set_readyState CLOSED) ws) x).
    unfold onclose. never_tac.
  - never_tac.
  - intros cb x H. destruct cb; cbn; repeat case_match; try done;
      try (by apply never_fell_back_connect); revert H; never_tac.
  - never_tac.
  - intros r reply x. by rewrite checkHealth_no_api.
Qed.

End NoApi.

(** X22. When no API base URL is configured the fallback is never entered:
    the health probe answers false without a request, so in every state the
    component reaches the fallback flag is off, poll-mode is never shown,
    no interval was ever started and no message was POSTed.  When no
    gateway endpoint is configured either, the state shown is always
    disconnected. *)
Theorem no_api_no_fallback (w : World) :
  string_is_empty (MC_API_URL cfg) = true ->
  reachable cfg w ->
  useHttpFallback w = false /\
  connectionState w <> poll_mode /\
  intervals w = 0 /\
  posts w = [] /\
  (string_is_empty (GATEWAY_WS_URL cfg) = true -> connectionState w = disconnected).
Proof.
  intros Hapi Hreach.
  assert (Hinv : forall x, reachable cfg x ->
            never_fell_back x /\ intervals x = 0 /\ poll_mode_has_flag x).
  { apply reachable_ind.
    - repeat split; done.
    - intros e x x' Hd ([Hf Hp] & Hi & Hpm).
      split; [by apply (never_fell_back_dispatch Hapi e x x')|].
      split; [|by eapply poll_mode_has_flag_dispatch].
      destruct (decide (intervals x' = intervals x)) as [E|Hne]; [congruence|].
      destruct (intervals_dispatch e x x' Hd Hne) as [(i & reply & _ & Hh)|(now & _ & _ & Hfl)].
      + by rewrite (checkHealth_no_api Hapi) in Hh.
      + congruence. }
  destruct (Hinv w Hreach) as ([Hf Hp] & Hi & Hpm).
  split; [done|].
  assert (Hnp : connectionState w <> poll_mode).
  { intros Hc. specialize (Hpm Hc). congruence. }
  split; [done|]. split; [done|]. split; [done|].
  intros Hurl.
  assert (Hall : forall x, reachable cfg x -> socketless x).
  { apply reachable_ind.
    - repeat split; auto.
    - intros e x x' Hd Hx. by apply (socketless_dispatch Hurl e x x'). }
  destruct (Hall w Hreach) as (_ & _ & _ & _ & _ & [Hc|Hc]); [done|by destruct Hnp].
Qed.

End Properties.

(** * The connection over the event loop

    What the commits, the sockets and the timers do together, with an
    endpoint configured that the constructor accepts. *)

Section Reconnecting.

Context {rt : JsRuntime}.
Variable cfg : Config.
Hypothesis Hurl : string_is_empty (GATEWAY_WS_URL cfg) = false.
Hypothesis Hthrow : WebSocket_throws cfg (fullWsUrl cfg) = false.

(** ** A refused attempt *)














(** ** The handle of the status effect *)


















(** ** The reconnect button *)







End Reconnecting.



(** * The claims on a deployment *)

Import ExampleRuntime.

(** C1 (code defect). The invariant that the primary transport is never
    open while a fallback polling timer runs does not hold of the code:
    [startHttpFallback] looks at nothing after its [await], and [onopen]
    switches [useHttpFallback] off without clearing the timers.  On
    [overlap_trace] the component reaches, and stays in, a state where the
    socket of [wsRef] is open, both polling timers run and the state is
    poll-mode. *)
Theorem transports_overlap :
  run deployment overlap_trace initial = Some overlap_world /\
  reachable deployment overlap_world /\
  primary_open overlap_world = true /\
  polling_active overlap_world = true /\
  readyState overlap_world 4 = Some OPEN /\
  wsRef overlap_world = Some 4 /\
  connectionState overlap_world = poll_mode /\
  useHttpFallback overlap_world = true /\
  retry_delays overlap_world = [3000; 6000; 9000]%Z.
Proof.
  assert (Hrun : bool_decide (is_Some (run deployment overlap_trace initial)) = true)
    by (vm_compute; reflexivity).
  apply bool_decide_eq_true in Hrun as [w Hw].
  assert (H : run deployment overlap_trace initial = Some overlap_world)
    by (unfold overlap_world; by rewrite Hw).
  split; [exact H|]. split; [exists overlap_trace; exact H|].
  repeat split; vm_compute; reflexivity.
Qed.




(** Counterexample to C3 as stated: a later batch with a smaller id rewinds
    the cursor, which is then not the greatest id received. *)
Lemma cursor_rewinds :
  lastMessageIdRef (polls [Ok [polled "2"]] initial) = "2" /\
  lastMessageIdRef (polls [Ok [polled "2"]; Ok [polled "1"]] initial) = "1" /\
  String.ltb "1" "2" = true.
Proof. repeat split; vm_compute; reflexivity. Qed.

(** Witness of C3: three batches in ascending order. *)
Lemma cursor_follows_last_item_witness :
  lastMessageIdRef
    (polls [Ok [polled "1"; polled "2"]; Failed; Ok []; Ok [polled "3"]] initial) = "3" /\
  String.leb "2" (lastMessageIdRef
    (polls [Ok [polled "1"; polled "2"]; Failed; Ok []; Ok [polled "3"]] initial)) = true.
Proof.
  pose proof cursor_follows_last_item as (_ & _ & _ & Hlast & Hasc).
  split.
  - rewrite Hlast; reflexivity.
  - apply (Hasc [Ok [polled "1"; polled "2"]; Failed; Ok []; Ok [polled "3"]] initial);
      [reflexivity | reflexivity | right; right; left; reflexivity].
Defined.

(** Counterexample to C4 as stated: the poll renders the id 1700000000000,
    then a realtime frame handled at that clock reading is rendered under
    the same id: two entries carry it. *)
Lemma realtime_repeats_polled_id :
  let w1 := pollMessages_resume (Ok [polled "1700000000000"]) initial in
  let w2 := onmessage (message_frame_text "hi") 1700000000000 w1 in
  map msg_id (messages w2) = ["1700000000000"; "1700000000000"] /\
  count_id "1700000000000" (messages w2) = 2.
Proof. split; vm_compute; reflexivity. Qed.

(** Witness of C4: the same item in two polls. *)
Lemma polled_id_rendered_once_witness :
  count_id "41" (messages (polls [Ok [polled "41"]; Ok [polled "41"; polled "42"]] initial)) = 1.
Proof.
  pose proof polled_id_rendered_once as (_ & Htwice & _).
  apply (Htwice [polled "41"] [polled "41"; polled "42"] (polled "41") initial);
    [left; reflexivity | reflexivity].
Defined.

(** Witness of C5: two sends before the first socket opens. *)
Lemma pending_slot_keeps_last_witness :
  trim " first " = "first" /\ wsRef_is OPEN opened = false /\
  exists w3,
    dispatch deployment (SocketOpen 0)
      (sendMessage deployment (render opened) "second" 2
         (sendMessage deployment (render opened) " first " 1 opened)) = Some w3 /\
    wire w3 = [(0, ConnectFrame); (0, MessageFrame "second")] /\
    pendingMessageRef w3 = None.
Proof.
  split; [reflexivity|]. split; [reflexivity|].
  eexists. split; [reflexivity|].
  pose proof (pending_slot_keeps_last deployment (render opened) (render opened)
                " first " "second" 1 2 0 opened _
                eq_refl eq_refl eq_refl eq_refl eq_refl eq_refl) as H.
  destruct H as (_ & _ & _ & _ & _ & Hw & _ & Hp). split; [exact Hw | exact Hp].
Defined.

(** Witness of C6: the probe answers ok on the deployment. *)
Lemma fallback_starts_iff_probe_succeeds_witness :
  r_useHttpFallback (render opened) = false /\
  polling_active
    (startHttpFallback_resume deployment (render opened) (checkHealth deployment (Ok tt))
       (startHttpFallback (render opened) opened)) = true /\
  startHttpFallback_resume deployment (render opened) (checkHealth deployment Failed)
    (startHttpFallback (render opened) opened) = startHttpFallback (render opened) opened.
Proof.
  pose proof (fallback_starts_iff_probe_succeeds deployment (render opened) (Ok tt) opened
                eq_refl) as (_ & _ & Hok & _).
  pose proof (fallback_starts_iff_probe_succeeds deployment (render opened) Failed opened
                eq_refl) as (_ & _ & _ & Hko & _).
  split; [reflexivity|]. split.
  - destruct (Hok eq_refl) as (_ & _ & _ & H & _). exact H.
  - exact (Hko eq_refl).
Defined.

(** Witness of C7: a frame that is not JSON. *)
Lemma undecodable_frame_witness :
  JSON_parse "hello" = None /\
  messages (onmessage "hello" 1700000000000 opened) =
    [{| msg_id := "1700000000000"; msg_role := assistant;
        msg_content := "hello"; msg_timestamp := DateAt 1700000000000 |}].
Proof.
  pose proof (undecodable_frame_is_plain_text deployment "hello" 1700000000000 opened
                eq_refl) as (_ & H & _).
  split; [reflexivity | exact H].
Defined.


(** Witness of C9: the chat just opened. *)
Lemma mapAgentStatus_range_witness :
  status (serayahStatus opened) <> working.
Proof.
  pose proof (mapAgentStatus_range deployment) as (_ & _ & _ & _ & _ & _ & _ & H).
  apply H. exists [OpenChat]. reflexivity.
Defined.

(** Witness of C10: a frame of an unknown type. *)
Lemma unrecognised_frame_witness :
  JSON_parse ping_frame_text = Some (JObj [("type", JStr "ping")]) /\
  unrecognised (JObj [("type", JStr "ping")]) = true /\
  onmessage ping_frame_text 1700000000000 opened = opened.
Proof.
  pose proof (unrecognised_frame_is_dropped ping_frame_text
                (JObj [("type", JStr "ping")]) 1700000000000 opened
                eq_refl eq_refl) as (_ & H & _).
  split; [reflexivity|]. split; [reflexivity | exact H].
Defined.


(** * The further properties on a deployment *)

Lemma overlap_world_reachable : reachable deployment overlap_world.
Proof.
  assert (Hrun : bool_decide (is_Some (run deployment overlap_trace initial)) = true)
    by (vm_compute; reflexivity).
  apply bool_decide_eq_true in Hrun as [w Hw].
  exists overlap_trace. unfold overlap_world. by rewrite Hw.
Qed.

Lemma connected_world_reachable : reachable deployment connected_world.
Proof.
  assert (Hrun : bool_decide (is_Some (run deployment connected_trace initial)) = true)
    by (vm_compute; reflexivity).
  apply bool_decide_eq_true in Hrun as [w Hw].
  exists connected_trace. unfold connected_world. by rewrite Hw.
Qed.

Lemma typing_world_reachable : reachable deployment typing_world.
Proof.
  assert (Hrun : bool_decide (is_Some (run deployment typing_trace initial)) = true)
    by (vm_compute; reflexivity).
  apply bool_decide_eq_true in Hrun as [w Hw].
  exists typing_trace. unfold typing_world. by rewrite Hw.
Qed.

(** Witness of X1: after four refused sockets and an accepted one, the
    fifth is the only live one. *)
Lemma at_most_one_live_socket_witness :
  reachable deployment overlap_world /\
  map ws_readyState (sockets overlap_world) = [CLOSED; CLOSED; CLOSED; CLOSED; OPEN] /\
  one_live_socket overlap_world.
Proof.
  split; [exact overlap_world_reachable|]. split; [vm_compute; reflexivity|].
  exact (proj1 (at_most_one_live_socket deployment overlap_world overlap_world_reachable)).
Defined.

(** Witness of X2: a message is typed and sent from the chat just opened. *)
Lemma transcript_only_grows_witness :
  exists w',
    run deployment [Rendered 0; TypeInput " hello "; Send 5; Rendered 6] opened = Some w' /\
    (messages opened `prefix_of` messages w').
Proof.
  eexists. split; [reflexivity|].
  exact (proj1 (transcript_only_grows deployment
                  [Rendered 0; TypeInput " hello "; Send 5; Rendered 6] opened _ eq_refl)).
Defined.

(** Witness of X4: two [connect]s from the chat just opened. *)
Lemma connect_is_idempotent_witness :
  connect deployment (render initial) (connect deployment (render opened) opened) =
    connect deployment (render opened) opened.
Proof.
  apply (connect_is_idempotent deployment (render opened) (render initial) opened);
    reflexivity.
Defined.

(** Witness of X5: the chat is opened and a message is sent where no
    gateway endpoint is configured. *)
Lemma no_endpoint_no_socket_witness :
  exists w,
    run polling_only [OpenChat; Rendered 0; TypeInput "hi"; Send 5; Rendered 6] initial
      = Some w /\
    socketless w.
Proof.
  eexists. split; [reflexivity|].
  apply (no_endpoint_no_socket polling_only); [reflexivity|].
  exists [OpenChat; Rendered 0; TypeInput "hi"; Send 5; Rendered 6]. reflexivity.
Defined.

(** Witness of X10: the first [connect] of a browser that refuses the
    socket. *)
Lemma connect_constructor_failure_witness :
  connectionState (connect refusing (render opened) opened) = disconnected /\
  reconnectAttempt (connect refusing (render opened) opened) = 1.
Proof.
  pose proof (connect_constructor_failure refusing (render opened) opened
                eq_refl eq_refl eq_refl eq_refl) as (H1 & H2 & _).
  split; [exact H1|exact H2].
Defined.

(** Witness of X12: the gateway accepted the socket. *)
Lemma connected_only_over_opened_socket_witness :
  reachable deployment connected_world /\
  connectionState connected_world = connected /\
  exists ws, wsRef connected_world = Some ws /\
             (readyState connected_world ws = Some OPEN \/
              readyState connected_world ws = Some CLOSING).
Proof.
  assert (Hc : connectionState connected_world = connected) by (vm_compute; reflexivity).
  split; [exact connected_world_reachable|]. split; [exact Hc|].
  exact (connected_only_over_opened_socket deployment connected_world
           connected_world_reachable Hc).
Defined.

(** Witness of X13: the three intervals of [overlap_world]. *)
Lemma no_interval_leaks_witness :
  (pollIntervalRef overlap_world = Some 4 \/
   messagePollIntervalRef overlap_world = Some 4 \/
   statusEffectInterval overlap_world = Some 4) /\
  running_intervals overlap_world = 3.
Proof.
  split; [|vm_compute; reflexivity].
  apply (proj1 (no_interval_leaks deployment overlap_world overlap_world_reachable) 4
           (interval (MessagePoll {| r_isOpen := true; r_connectionState := disconnected;
                                     r_reconnectAttempt := 3;
                                     r_useHttpFallback := false |})
              MESSAGE_POLL_INTERVAL));
    [vm_compute; reflexivity | reflexivity | reflexivity].
Defined.



(** Witness of X17: a question typed in [overlap_world], where poll-mode
    is shown. *)
Lemma poll_mode_sends_at_once_witness :
  reachable deployment typing_world /\
  connectionState typing_world = poll_mode /\
  useHttpFallback typing_world = true.
Proof.
  assert (Hc : connectionState typing_world = poll_mode) by (vm_compute; reflexivity).
  assert (Hn : nonempty (trim (input typing_world)) = true) by (vm_compute; reflexivity).
  split; [exact typing_world_reachable|]. split; [exact Hc|].
  exact (proj1 (poll_mode_sends_at_once deployment typing_world 100
                  typing_world_reachable Hc Hn)).
Defined.

(** Witness of X18: the socket the gateway accepted in [overlap_world]. *)
Lemma handshake_comes_first_witness :
  readyState overlap_world 4 = Some OPEN /\
  handshake_first (frames_on 4 (wire overlap_world)) = true.
Proof.
  split; [vm_compute; reflexivity|].
  exact (proj1 (handshake_comes_first deployment overlap_world 4 overlap_world_reachable)).
Defined.


Lemma closing_world_reachable : reachable deployment closing_world.
Proof.
  assert (Hrun : bool_decide (is_Some (run deployment closing_trace initial)) = true)
    by (vm_compute; reflexivity).
  apply bool_decide_eq_true in Hrun as [w Hw].
  exists closing_trace. unfold closing_world. by rewrite Hw.
Qed.

Lemma closed_world_reachable : reachable deployment closed_world.
Proof.
  assert (Hrun : bool_decide (is_Some (run deployment closed_trace initial)) = true)
    by (vm_compute; reflexivity).
  apply bool_decide_eq_true in Hrun as [w Hw].
  exists closed_trace. unfold closed_world. by rewrite Hw.
Qed.

(** Witness of X19: connected is still shown over the closing socket, and
    the message typed is parked. *)
Lemma connected_send_while_closing_witness :
  connectionState closing_world = connected /\
  readyState closing_world 0 = Some CLOSING /\
  useHttpFallback closing_world = false /\
  wsRef_is CLOSING closing_world = true.
Proof.
  assert (Hc : connectionState closing_world = connected) by (vm_compute; reflexivity).
  assert (Hn : nonempty (trim (input closing_world)) = true) by (vm_compute; reflexivity).
  assert (Ho : wsRef_is OPEN closing_world = false) by (vm_compute; reflexivity).
  pose proof (connected_send_while_closing deployment closing_world 9
                closing_world_reachable Hc) as (Hf & _ & Hsend).
  split; [exact Hc|]. split; [vm_compute; reflexivity|]. split; [exact Hf|].
  exact (proj1 (Hsend Hn Ho)).
Defined.

(** Witness of X20: the chat was closed, the retry connects all the same. *)
Lemma retry_fires_connect_witness :
  isOpen closed_world = false /\
  dispatch deployment (TimerFires 0) closed_world =
    Some (connect deployment
            {| r_isOpen := true; r_connectionState := disconnected;
               r_reconnectAttempt := 0; r_useHttpFallback := false |}
            (clearTimer 0 closed_world)).
Proof.
  split; [vm_compute; reflexivity|].
  apply (retry_fires_connect deployment closed_world 0
           {| t_kind := Timeout; t_delay := 3000;
              t_callback := RetryConnect
                {| r_isOpen := true; r_connectionState := disconnected;
                   r_reconnectAttempt := 0; r_useHttpFallback := false |};
              t_active := true |});
    [exact closed_world_reachable | vm_compute; reflexivity | reflexivity | reflexivity].
Defined.

(** Witness of X21: the first commit of the chat just opened. *)
Lemma opening_the_chat_connects_witness :
  wsRef_is OPEN (commit deployment 0 opened)
  || wsRef_is CONNECTING (commit deployment 0 opened) = true.
Proof.
  refine (proj1 (opening_the_chat_connects deployment 0 opened
                   eq_refl eq_refl eq_refl eq_refl eq_refl _)).
  discriminate.
Defined.


(** Witness of X22: without an API base URL the gateway refuses the first
    socket. *)
Lemma no_api_no_fallback_witness :
  exists w,
    run socket_only [OpenChat; Rendered 0; SocketClose 0; Rendered 1] initial = Some w /\
    useHttpFallback w = false /\ intervals w = 0.
Proof.
  eexists. split; [reflexivity|].
  pose proof (no_api_no_fallback socket_only _ eq_refl
                (ex_intro _ [OpenChat; Rendered 0; SocketClose 0; Rendered 1] eq_refl))
    as (H1 & _ & H3 & _).
  split; [exact H1|exact H3].
Defined.
